(** * a2alloc: a shallow embedding of the parallel memory allocator

    The allocator of [allocators/a2alloc/a2alloc.c] keeps all of its data
    (arena directory, page-refs, subpage pages, large spans) inside one
    sbrk-style heap segment and reaches it through raw pointer arithmetic.
    The embedding therefore models the segment as a byte-addressed store and
    every C function as a computation over an explicit state: the globals of
    the translation unit plus the bytes of the segment.

    Layout assumptions (x86_64, LP64, little endian): [int] is 4 bytes,
    pointers and [size_t] are 8 bytes,
      struct big_freelist { int num_pages @0; next @8 }
      struct freelist     { next @0 }
      struct pageref      { next @0; freelist @8; freelist_base @16; num_free @24 }.
    The pthread mutexes are not modelled: every function is embedded with its
    sequential semantics, lock and unlock being no-ops. *)

From Stdlib Require Import ZArith Lia Bool List.
From stdpp Require Import base option gmap.

Local Open Scope Z_scope.

(** ** Constants *)

Definition PAGE_SIZE : Z := 4096.
Definition CACHELINE_SIZE : Z := 64.
Definition NUM_CLASS : Z := 9.
Definition BASE_CLASS : Z := 3.
Definition NULL : Z := 0.

(** Sizes and field offsets fixed by the ABI. *)
Definition SIZEOF_INT : Z := 4.
Definition SIZEOF_PTR : Z := 8.
Definition BIG_NEXT : Z := 8.
Definition PR_NEXT : Z := 0.
Definition PR_FREELIST : Z := 8.
Definition PR_BASE : Z := 16.
Definition PR_NUM_FREE : Z := 24.

(** ** Machine integers *)

(** Conversion to a (signed, 32-bit) C [int]. *)
Definition to_int (z : Z) : Z :=
  let w := z mod 2 ^ 32 in
  if w <? 2 ^ 31 then w else w - 2 ^ 32.

(** Conversion to a 64-bit unsigned [size_t]. *)
Definition to_size_t (z : Z) : Z := z mod 2 ^ 64.

(** ** The byte store *)

Module Mem.

(** Content of one byte, a value in 0..255; a byte never written reads
    as 0. *)
Definition byte_at (m : gmap Z Z) (a : Z) : Z := default 0 (m !! a) mod 256.

(** Little-endian read of [n] bytes starting at [a], as an unsigned number. *)
Fixpoint read_le (m : gmap Z Z) (a : Z) (n : nat) : Z :=
  match n with
  | O => 0
  | S k => byte_at m a + 256 * read_le m (a + 1) k
  end.

(** Little-endian write of the low [n] bytes of [v] starting at [a]. *)
Fixpoint write_le (m : gmap Z Z) (a : Z) (n : nat) (v : Z) : gmap Z Z :=
  match n with
  | O => m
  | S k => write_le (<[a := v mod 256]> m) (a + 1) k (v / 256)
  end.

(** [bzero]: [n] zero bytes from [a] on. *)
Fixpoint zero_range (m : gmap Z Z) (a : Z) (n : nat) : gmap Z Z :=
  match n with
  | O => m
  | S k => zero_range (<[a := 0]> m) (a + 1) k
  end.

End Mem.

(** ** Allocator state *)

Record state : Type := mkState {
  (* heap substrate (memlib) *)
  dseg_lo : Z;
  dseg_hi : Z;
  dseg_max : Z;
  heap : gmap Z Z;
  (* globals of a2alloc.c *)
  big_list : Z;
  new_free_page_refs : Z;
  reusable_page_refs : Z;
  processor_locks_base : Z;
  num_processors : Z
}.

Definition set_heap (s : state) (m : gmap Z Z) : state :=
  mkState (dseg_lo s) (dseg_hi s) (dseg_max s) m (big_list s)
          (new_free_page_refs s) (reusable_page_refs s)
          (processor_locks_base s) (num_processors s).

Definition set_segment (lo hi mx : Z) (s : state) : state :=
  mkState lo hi mx (heap s) (big_list s)
          (new_free_page_refs s) (reusable_page_refs s)
          (processor_locks_base s) (num_processors s).

Definition set_big_list (v : Z) (s : state) : state :=
  mkState (dseg_lo s) (dseg_hi s) (dseg_max s) (heap s) v
          (new_free_page_refs s) (reusable_page_refs s)
          (processor_locks_base s) (num_processors s).

Definition set_new_free_page_refs (v : Z) (s : state) : state :=
  mkState (dseg_lo s) (dseg_hi s) (dseg_max s) (heap s) (big_list s)
          v (reusable_page_refs s)
          (processor_locks_base s) (num_processors s).

Definition set_reusable_page_refs (v : Z) (s : state) : state :=
  mkState (dseg_lo s) (dseg_hi s) (dseg_max s) (heap s) (big_list s)
          (new_free_page_refs s) v
          (processor_locks_base s) (num_processors s).

Definition set_processor_locks_base (v : Z) (s : state) : state :=
  mkState (dseg_lo s) (dseg_hi s) (dseg_max s) (heap s) (big_list s)
          (new_free_page_refs s) (reusable_page_refs s)
          v (num_processors s).

Definition set_num_processors (v : Z) (s : state) : state :=
  mkState (dseg_lo s) (dseg_hi s) (dseg_max s) (heap s) (big_list s)
          (new_free_page_refs s) (reusable_page_refs s)
          (processor_locks_base s) v.

(** The state of the process before [mm_init]: no segment, all globals at
    their static initialisers. *)
Definition initial_state : state :=
  mkState 0 0 0 ∅ NULL NULL NULL 0 0.

(** ** Computations

    A call either returns a value and a new state, performs an access
    outside the segment ([Fault]: undefined behaviour in C, a crash in
    practice), or exhausts the fuel of a list walk ([Timeout]). *)

Inductive outcome (A : Type) : Type :=
| Ret (a : A) (s : state)
| Fault
| Timeout.

Arguments Ret {A} a s.
Arguments Fault {A}.
Arguments Timeout {A}.

Definition M (A : Type) : Type := state -> outcome A.

Definition ret {A} (a : A) : M A := fun s => Ret a s.

Definition bind {A B} (c : M A) (k : A -> M B) : M B :=
  fun s => match c s with
           | Ret a s' => k a s'
           | Fault => Fault
           | Timeout => Timeout
           end.

Definition fault {A} : M A := fun _ => Fault.
Definition timeout {A} : M A := fun _ => Timeout.
Definition gets {A} (f : state -> A) : M A := fun s => Ret (f s) s.
Definition modify (f : state -> state) : M unit := fun s => Ret tt (f s).

Notation "x <- c1 ;; c2" := (bind c1 (fun x => c2))
  (at level 100, c1 at next level, right associativity).
Notation "c1 ;; c2" := (bind c1 (fun _ => c2))
  (at level 100, right associativity).

(** ** Typed accesses to the segment *)

(** [n] bytes at [a] lie inside [dseg_lo, dseg_hi). *)
Definition valid (s : state) (a n : Z) : bool :=
  (dseg_lo s <=? a) && (a + n <=? dseg_hi s).

Definition rd_int (s : state) (a : Z) : Z := to_int (Mem.read_le (heap s) a 4).
Definition rd_ptr (s : state) (a : Z) : Z := Mem.read_le (heap s) a 8.
Definition wr_int (a v : Z) (s : state) : state := set_heap s (Mem.write_le (heap s) a 4 v).
Definition wr_ptr (a v : Z) (s : state) : state := set_heap s (Mem.write_le (heap s) a 8 v).
Definition wr_char (a v : Z) (s : state) : state := set_heap s (Mem.write_le (heap s) a 1 v).
Definition wr_zero (a n : Z) (s : state) : state := set_heap s (Mem.zero_range (heap s) a (Z.to_nat n)).

Definition load_int (a : Z) : M Z :=
  fun s => if valid s a 4 then Ret (rd_int s a) s else Fault.
Definition load_ptr (a : Z) : M Z :=
  fun s => if valid s a 8 then Ret (rd_ptr s a) s else Fault.
Definition store_int (a v : Z) : M unit :=
  fun s => if valid s a 4 then Ret tt (wr_int a v s) else Fault.
Definition store_ptr (a v : Z) : M unit :=
  fun s => if valid s a 8 then Ret tt (wr_ptr a v s) else Fault.
Definition store_char (a v : Z) : M unit :=
  fun s => if valid s a 1 then Ret tt (wr_char a v s) else Fault.

(** libc [bzero(a, n)]. *)
Definition bzero (a n : Z) : M unit :=
  fun s => if n <=? 0 then Ret tt s
           else if valid s a n
                then Ret tt (wr_zero a n s)
                else Fault.

(** ** The heap substrate and the platform (collaborators) *)

(** What the environment decides: where and how large the segment is,
    whether its initialisation succeeds, and the number of processors. *)
Record platform : Type := mkPlatform {
  heap_base : Z;
  heap_size : Z;
  heap_ok : bool;
  ncpus : Z
}.

(** Modelled from the spec: memlib's [mem_init] is not part of the sources.
    The spec gives [substrate_init() -> 0 | -1] and bounds [lo], [hi] that
    are stable afterwards; the segment starts empty at [heap_base]. *)
Definition mem_init (pf : platform) : M Z :=
  fun s => if heap_ok pf
           then Ret 0 (set_segment (heap_base pf) (heap_base pf)
                                   (heap_base pf + heap_size pf) s)
           else Ret (-1) s.

(** Modelled from the spec: memlib's [mem_sbrk] is not part of the sources.
    The spec gives [substrate_sbrk(bytes) -> pointer | NULL], monotonic,
    never overlapping, staying inside the fixed region: the old break is
    returned and the break advances, or NULL is returned when the region
    cannot hold [incr] more bytes. *)
Definition mem_sbrk (incr : Z) : M Z :=
  fun s => if (0 <=? incr) && (dseg_hi s + incr <=? dseg_max s)
           then Ret (dseg_hi s) (set_segment (dseg_lo s) (dseg_hi s + incr) (dseg_max s) s)
           else Ret NULL s.

(** ** Large-object allocator *)

(** The [while (curr != NULL)] loop of [big_mm_malloc]; the value is
    [result]. *)
Fixpoint big_walk (fuel : nat) (num_pages curr prior : Z) : M Z :=
  match fuel with
  | O => timeout
  | S fuel' =>
      if curr =? NULL then ret NULL
      else
        n <- load_int curr ;;
        if n >? num_pages then
          (* curr->num_pages -= num_pages *)
          store_int curr (to_int (n - num_pages)) ;;
          n' <- load_int curr ;;
          let header_ptr := curr + to_int (n' * PAGE_SIZE) in
          store_int header_ptr num_pages ;;
          ret (header_ptr + SIZEOF_INT)
        else if n =? num_pages then
          nxt <- load_ptr (curr + BIG_NEXT) ;;
          (if negb (prior =? NULL)
           then store_ptr (prior + BIG_NEXT) nxt
           else modify (set_big_list nxt)) ;;
          let header_ptr := curr in
          ret (header_ptr + SIZEOF_INT)
        else
          nxt <- load_ptr (curr + BIG_NEXT) ;;
          big_walk fuel' num_pages nxt curr
  end.

Definition big_mm_malloc (fuel : nat) (sz : Z) : M Z :=
  let num_pages := to_int (to_size_t (sz + PAGE_SIZE - 1) / PAGE_SIZE) in
  curr <- gets big_list ;;
  result <- big_walk fuel num_pages curr NULL ;;
  if result =? NULL then
    header_ptr <- mem_sbrk (to_int (num_pages * PAGE_SIZE)) ;;
    if negb (header_ptr =? NULL) then
      store_int header_ptr (-1) ;;
      store_int (header_ptr + SIZEOF_INT) num_pages ;;
      ret (header_ptr + SIZEOF_INT + SIZEOF_INT)
    else ret result
  else ret result.

Definition big_mm_free (ptr : Z) : M unit :=
  let header_ptr := ptr - SIZEOF_INT in
  let newly_freed := header_ptr in
  old <- gets big_list ;;
  store_ptr (newly_freed + BIG_NEXT) old ;;
  modify (set_big_list newly_freed).

(** ** Helpers of the subpage allocator *)

(** The [for] loop of [get_block_class_index], [n] iterations left. *)
Fixpoint class_loop (n : nat) (i sz : Z) : Z :=
  match n with
  | O => -1
  | S n' => if Z.shiftl 1 (i + BASE_CLASS) >=? sz then i
            else class_loop n' (i + 1) sz
  end.

Definition get_block_class_index (sz : Z) : Z :=
  class_loop (Z.to_nat NUM_CLASS) 0 sz.

(** [sched_getcpu() % num_processors]; [cpu] is what [sched_getcpu]
    returns for the calling thread. A zero divisor traps. *)
Definition get_processor_index (cpu : Z) : M Z :=
  np <- gets num_processors ;;
  if np =? 0 then fault else ret (Z.rem cpu np).

(** Address of the lock of a processor heap (lines 189-193). *)
Definition processor_mutex (processor_index : Z) : M Z :=
  gets (fun s => processor_locks_base s + to_int (processor_index * CACHELINE_SIZE)).

Definition pageref_slot (s : state) (processor_index block_class_index : Z) : Z :=
  dseg_lo s + processor_index * SIZEOF_PTR * NUM_CLASS + block_class_index * SIZEOF_PTR.

Definition pageref_head (processor_index block_class_index : Z) : M Z :=
  lo <- gets (fun s => pageref_slot s processor_index block_class_index) ;;
  load_ptr lo.

Definition set_pageref_head (processor_index block_class_index address : Z) : M unit :=
  lo <- gets (fun s => pageref_slot s processor_index block_class_index) ;;
  store_ptr lo address.

Definition page_head_of (lo address : Z) : Z :=
  lo + Z.quot (address - lo) PAGE_SIZE * PAGE_SIZE.

Definition get_page_head (address : Z) : M Z :=
  gets (fun s => page_head_of (dseg_lo s) address).

(** ** Page-ref pool *)

(** The loop carving a metadata page into page-refs:
    [for (i = CACHELINE_SIZE; i < PAGE_SIZE; i += CACHELINE_SIZE)]. *)
Fixpoint carve_loop (fuel : nat) (page_ref i : Z) : M unit :=
  match fuel with
  | O => timeout
  | S fuel' =>
      if i <? PAGE_SIZE then
        let tmp := page_ref + i in
        old <- gets new_free_page_refs ;;
        store_ptr (tmp + PR_NEXT) old ;;
        modify (set_new_free_page_refs tmp) ;;
        carve_loop fuel' page_ref (i + CACHELINE_SIZE)
      else ret tt
  end.

(** The loop chaining the slots of a page:
    [for (i = 0; i < PAGE_SIZE; i += 1 << (block_class_index + BASE_CLASS))]. *)
Fixpoint build_loop (fuel : nat) (page_ref freelist_base_address step i : Z) : M unit :=
  match fuel with
  | O => timeout
  | S fuel' =>
      if i <? PAGE_SIZE then
        let free_list_tmp := freelist_base_address + i in
        fl <- load_ptr (page_ref + PR_FREELIST) ;;
        store_ptr free_list_tmp fl ;;
        store_ptr (page_ref + PR_FREELIST) free_list_tmp ;;
        nf <- load_int (page_ref + PR_NUM_FREE) ;;
        store_int (page_ref + PR_NUM_FREE) (to_int (nf + 1)) ;;
        build_loop fuel' page_ref freelist_base_address step (i + step)
      else ret tt
  end.

(** First half of [allocate_pageref]: take a page-ref from the pool.
    The value is [(page_ref, create_freelist)]. *)
Definition acquire_pageref : M (Z * bool) :=
  reusable <- gets reusable_page_refs ;;
  if negb (reusable =? NULL) then
    nxt <- load_ptr (reusable + PR_NEXT) ;;
    modify (set_reusable_page_refs nxt) ;;
    ret (reusable, false)
  else
    fresh <- gets new_free_page_refs ;;
    if fresh =? NULL then
      page_ref <- mem_sbrk PAGE_SIZE ;;
      carve_loop (Z.to_nat (PAGE_SIZE / CACHELINE_SIZE)) page_ref CACHELINE_SIZE ;;
      ret (page_ref, true)
    else
      nxt <- load_ptr (fresh + PR_NEXT) ;;
      modify (set_new_free_page_refs nxt) ;;
      ret (fresh, true).

Definition allocate_pageref (processor_index block_class_index : Z) : M Z :=
  acquired <- acquire_pageref ;;
  let page_ref := fst acquired in
  let create_freelist := snd acquired in
  old_head <- pageref_head processor_index block_class_index ;;
  store_ptr (page_ref + PR_NEXT) old_head ;;
  set_pageref_head processor_index block_class_index page_ref ;;
  bound <- load_ptr (page_ref + PR_BASE) ;;
  freelist_base_address <-
    (if create_freelist then
       fresh <- mem_sbrk PAGE_SIZE ;;
       store_ptr (page_ref + PR_BASE) fresh ;;
       ret fresh
     else ret bound) ;;
  store_ptr (page_ref + PR_FREELIST) NULL ;;
  store_int (page_ref + PR_NUM_FREE) 0 ;;
  build_loop (Z.to_nat PAGE_SIZE + 1) page_ref freelist_base_address
             (Z.shiftl 1 (block_class_index + BASE_CLASS)) 0 ;;
  (* the two metadata stores go through a char pointer *)
  base1 <- load_ptr (page_ref + PR_BASE) ;;
  store_char base1 processor_index ;;
  base2 <- load_ptr (page_ref + PR_BASE) ;;
  store_char (base2 + SIZEOF_INT) block_class_index ;;
  ret page_ref.

(** ** Subpage allocator *)

(** The [while (page_ref != NULL)] loop of [subpage_mm_malloc]: find the
    first page-ref able to serve [sz]; the value is [page_ref]. *)
Fixpoint find_pageref (fuel : nat) (block_class_index sz page_ref : Z) : M Z :=
  match fuel with
  | O => timeout
  | S fuel' =>
      if page_ref =? NULL then ret NULL
      else
        nf <- load_int (page_ref + PR_NUM_FREE) ;;
        if nf >? 0 then
          fl <- load_ptr (page_ref + PR_FREELIST) ;;
          base <- load_ptr (page_ref + PR_BASE) ;;
          if fl =? base then
            if to_size_t (Z.shiftl 1 (BASE_CLASS + block_class_index) - 8) >=? sz
            then ret page_ref
            else if nf >? 1 then
              (* swap next free block with this special block *)
              old_freelist_next <- load_ptr fl ;;
              after <- load_ptr old_freelist_next ;;
              fl1 <- load_ptr (page_ref + PR_FREELIST) ;;
              store_ptr fl1 after ;;
              fl2 <- load_ptr (page_ref + PR_FREELIST) ;;
              store_ptr old_freelist_next fl2 ;;
              store_ptr (page_ref + PR_FREELIST) old_freelist_next ;;
              ret page_ref
            else
              nxt <- load_ptr (page_ref + PR_NEXT) ;;
              find_pageref fuel' block_class_index sz nxt
          else ret page_ref
        else
          nxt <- load_ptr (page_ref + PR_NEXT) ;;
          find_pageref fuel' block_class_index sz nxt
  end.

(** Lines 370-378 of [subpage_mm_malloc]: pop the head of the page-ref's
    freelist; the value is the pointer handed to the caller. *)
Definition take_block (page_ref : Z) : M Z :=
  memory <- load_ptr (page_ref + PR_FREELIST) ;;
  nf <- load_int (page_ref + PR_NUM_FREE) ;;
  store_int (page_ref + PR_NUM_FREE) (to_int (nf - 1)) ;;
  nxt <- load_ptr memory ;;
  store_ptr (page_ref + PR_FREELIST) nxt ;;
  base <- load_ptr (page_ref + PR_BASE) ;;
  if memory =? base then ret (memory + 2 * SIZEOF_INT) else ret memory.

Definition subpage_mm_malloc (fuel : nat) (cpu sz : Z) : M Z :=
  processor_index <- get_processor_index cpu ;;
  let block_class_index := get_block_class_index sz in
  head <- pageref_head processor_index block_class_index ;;
  found <- find_pageref fuel block_class_index sz head ;;
  page_ref <- (if found =? NULL
               then allocate_pageref processor_index block_class_index
               else ret found) ;;
  take_block page_ref.

(** The [while (page_ref != NULL)] loop of [subpage_mm_free]: find the
    page-ref bound to [page_head]; the value is [(prior_page_ref, page_ref)]. *)
Fixpoint find_owner (fuel : nat) (page_head prior_page_ref page_ref : Z) : M (Z * Z) :=
  match fuel with
  | O => timeout
  | S fuel' =>
      if page_ref =? NULL then ret (prior_page_ref, page_ref)
      else
        base <- load_ptr (page_ref + PR_BASE) ;;
        if base =? page_head then ret (prior_page_ref, page_ref)
        else
          nxt <- load_ptr (page_ref + PR_NEXT) ;;
          find_owner fuel' page_head page_ref nxt
  end.

(** Lines 409-431 of [subpage_mm_free]: push [ptr] on the page-ref's
    freelist and recycle the page-ref when its page is fully empty. *)
Definition release_block (processor_index block_class_index prior_page_ref page_ref ptr : Z)
  : M unit :=
  tmp <- load_ptr (page_ref + PR_FREELIST) ;;
  store_ptr (page_ref + PR_FREELIST) ptr ;;
  fl <- load_ptr (page_ref + PR_FREELIST) ;;
  store_ptr fl tmp ;;
  nf <- load_int (page_ref + PR_NUM_FREE) ;;
  store_int (page_ref + PR_NUM_FREE) (to_int (nf + 1)) ;;
  nf' <- load_int (page_ref + PR_NUM_FREE) ;;
  if nf' =? Z.quot PAGE_SIZE (Z.shiftl 1 (BASE_CLASS + block_class_index)) then
    nxt <- load_ptr (page_ref + PR_NEXT) ;;
    (if negb (prior_page_ref =? NULL)
     then store_ptr (prior_page_ref + PR_NEXT) nxt
     else set_pageref_head processor_index block_class_index nxt) ;;
    base <- load_ptr (page_ref + PR_BASE) ;;
    bzero base PAGE_SIZE ;;
    old <- gets reusable_page_refs ;;
    store_ptr (page_ref + PR_NEXT) old ;;
    modify (set_reusable_page_refs page_ref)
  else ret tt.

(** The value is 1 on success and 0 when the page belongs to a large span. *)
Definition subpage_mm_free (fuel : nat) (ptr : Z) : M Z :=
  page_head <- get_page_head ptr ;;
  processor_index <- load_int page_head ;;
  if processor_index =? -1 then ret 0
  else
    block_class_index <- load_int (page_head + SIZEOF_INT) ;;
    page_ref_head <- pageref_head processor_index block_class_index ;;
    found <- find_owner fuel page_head NULL page_ref_head ;;
    release_block processor_index block_class_index (fst found) (snd found) ptr ;;
    ret 1.

(** ** Public operations *)

Definition mm_malloc (fuel : nat) (cpu sz : Z) : M Z :=
  if sz <=? PAGE_SIZE / 2
  then subpage_mm_malloc fuel cpu sz
  else big_mm_malloc fuel (to_size_t (sz + 2 * SIZEOF_INT)).

Definition mm_free (fuel : nat) (ptr : Z) : M unit :=
  if ptr =? NULL then ret tt
  else
    r <- subpage_mm_free fuel ptr ;;
    if r =? 0 then big_mm_free ptr else ret tt.

Definition freelist_space_of (np : Z) : Z := to_int (to_size_t (NUM_CLASS * SIZEOF_PTR * np)).
Definition mutex_space_of (np : Z) : Z := to_int (CACHELINE_SIZE * np).
Definition page_needed_of (np : Z) : Z :=
  to_int (Z.quot (freelist_space_of np + mutex_space_of np + PAGE_SIZE - 1) PAGE_SIZE).

(** [getNumProcessors()] answers [ncpus pf]. [pthread_mutex_init] leaves no
    trace in this state. *)
Definition mm_init (pf : platform) : M Z :=
  lo <- gets dseg_lo ;;
  hi <- gets dseg_hi ;;
  r <- (if (lo =? NULL) && (hi =? NULL) then mem_init pf else ret 0) ;;
  if r =? -1 then ret (-1)
  else
    modify (set_num_processors (ncpus pf)) ;;
    np <- gets num_processors ;;
    let freelist_space := freelist_space_of np in
    let page_needed := page_needed_of np in
    ref <- mem_sbrk (to_int (page_needed * PAGE_SIZE)) ;;
    bzero ref (to_int (page_needed * PAGE_SIZE)) ;;
    modify (set_processor_locks_base (ref + freelist_space)) ;;
    ret 0.

(** * Vocabulary of the statements *)

(** State updates that touch the bytes of the heap only. *)
Class HeapWrite (f : state -> state) : Prop :=
  heap_write : forall s,
    dseg_lo (f s) = dseg_lo s /\ dseg_hi (f s) = dseg_hi s /\
    dseg_max (f s) = dseg_max s /\ big_list (f s) = big_list s /\
    new_free_page_refs (f s) = new_free_page_refs s /\
    reusable_page_refs (f s) = reusable_page_refs s /\
    processor_locks_base (f s) = processor_locks_base s /\
    num_processors (f s) = num_processors s.

(** State updates that touch a global only: the heap and the bounds of the
    segment stay. *)
Class GlobalWrite (f : state -> state) : Prop :=
  global_write : forall s,
    heap (f s) = heap s /\ dseg_lo (f s) = dseg_lo s /\
    dseg_hi (f s) = dseg_hi s /\ dseg_max (f s) = dseg_max s.

(** Pointers fit the 64-bit address space and NULL is outside the segment. *)
Definition addressable (s : state) : Prop :=
  0 < dseg_lo s /\ dseg_hi s <= 2 ^ 64.

(** The page-ref record at [pr] and the 4 KiB page at [base] it is bound
    to both lie in the segment and do not overlap. *)
Definition pageref_ok (s : state) (pr base : Z) : Prop :=
  pr <> NULL /\
  dseg_lo s <= pr /\ pr + 32 <= dseg_hi s /\
  dseg_lo s <= base /\ base + PAGE_SIZE <= dseg_hi s /\
  (pr + 32 <= base \/ base + PAGE_SIZE <= pr) /\
  rd_ptr s (pr + PR_BASE) = base.

(** The word that links to a page-ref on its (processor, class) list: the
    directory slot when the page-ref is first, else its predecessor's
    [next] field. *)
Definition link_of (s : state) (processor_index block_class_index prior_page_ref : Z) : Z :=
  if prior_page_ref =? NULL
  then pageref_slot s processor_index block_class_index
  else prior_page_ref + PR_NEXT.

(** That word lies in the segment, outside the page and outside the
    page-ref record. *)
Definition link_ok (s : state) (link pr base : Z) : Prop :=
  dseg_lo s <= link /\ link + 8 <= dseg_hi s /\
  (link + 8 <= base \/ base + PAGE_SIZE <= link) /\
  (link + 8 <= pr \/ pr + 32 <= link).

(** What [subpage_mm_free fuel ptr] finds on its way to the push: the head
    of the page of [ptr], the (processor, class) pair stored there, and
    the page-ref its walk stops at together with that page-ref's
    predecessor. *)
Definition free_finds (fuel : nat) (s : state)
    (ptr page_head processor_index block_class_index prior_page_ref page_ref : Z) : Prop :=
  page_head = page_head_of (dseg_lo s) ptr /\
  processor_index = rd_int s page_head /\
  processor_index <> -1 /\
  block_class_index = rd_int s (page_head + SIZEOF_INT) /\
  valid s (pageref_slot s processor_index block_class_index) 8 = true /\
  find_owner fuel page_head NULL
             (rd_ptr s (pageref_slot s processor_index block_class_index)) s
    = Ret (prior_page_ref, page_ref) s.

(** Number of blocks of class [block_class_index] in a page, as
    [subpage_mm_free] computes it. *)
Definition blocks_per_page (block_class_index : Z) : Z :=
  Z.quot PAGE_SIZE (Z.shiftl 1 (BASE_CLASS + block_class_index)).

(** A computation that leaves the bounds of the segment alone: it does not
    reach [mem_sbrk]. *)
Definition keeps_segment {A} (c : M A) : Prop :=
  forall s a s', c s = Ret a s' ->
    dseg_lo s' = dseg_lo s /\ dseg_hi s' = dseg_hi s /\ dseg_max s' = dseg_max s.

(** The list headed by the directory word [slot] holds the single page-ref
    [pr], and the only free block of [pr] is the base block of its page. *)
Definition lone_base_block (s : state) (slot pr : Z) : Prop :=
  rd_ptr s slot = pr /\ pr <> NULL /\
  dseg_lo s <= pr /\ pr + 32 <= dseg_hi s /\
  (slot + 8 <= pr \/ pr + 32 <= slot) /\
  rd_ptr s (pr + PR_NEXT) = NULL /\
  rd_int s (pr + PR_NUM_FREE) = 1 /\
  rd_ptr s (pr + PR_FREELIST) = rd_ptr s (pr + PR_BASE).

(** The page-ref [pr2] heads the list of fresh page-refs; its record lies
    in the segment, apart from the directory word [slot] and from the
    page-ref [pr]. *)
Definition fresh_pageref_ready (s : state) (slot pr pr2 : Z) : Prop :=
  reusable_page_refs s = NULL /\
  new_free_page_refs s = pr2 /\ pr2 <> NULL /\
  dseg_lo s <= pr2 /\ pr2 + 32 <= dseg_hi s /\
  (slot + 8 <= pr2 \/ pr2 + 32 <= slot) /\
  (pr + 32 <= pr2 \/ pr2 + 32 <= pr).

(** A NULL-terminated chain of [n] freelist nodes starting at [h]. *)
Inductive chain (s : state) : Z -> nat -> Prop :=
| chain_nil : chain s NULL 0
| chain_cons h n :
    h <> NULL -> valid s h 8 = true ->
    chain s (rd_ptr s h) n -> chain s h (S n).

(** The state a computation ends in, and its value. *)
Definition state_after {A} (c : M A) (s : state) : state :=
  match c s with Ret _ s' => s' | _ => s end.

Definition value_of {A} (c : M A) (s : state) : option A :=
  match c s with Ret a _ => Some a | _ => None end.

(** Pages of the span [mm_malloc] asks [big_mm_malloc] for: the payload and
    the two header words, rounded up to whole pages. *)
Definition span_pages (sz : Z) : Z := (sz + 2 * SIZEOF_INT + PAGE_SIZE - 1) / PAGE_SIZE.

(** Two states that differ in the bytes of the heap only. *)
Definition heap_only (s s' : state) : Prop :=
  dseg_lo s' = dseg_lo s /\ dseg_hi s' = dseg_hi s /\
  dseg_max s' = dseg_max s /\ big_list s' = big_list s /\
  new_free_page_refs s' = new_free_page_refs s /\
  reusable_page_refs s' = reusable_page_refs s /\
  processor_locks_base s' = processor_locks_base s /\
  num_processors s' = num_processors s.

(** Size in bytes of the blocks of a class, [1 << (block_class_index + BASE_CLASS)]. *)
Definition class_size (block_class_index : Z) : Z :=
  Z.shiftl 1 (block_class_index + BASE_CLASS).

(** Bytes [mm_init] asks the substrate for on a machine with [np]
    processors: the directory and the lock array, rounded up to pages. *)
Definition init_bytes (np : Z) : Z :=
  (NUM_CLASS * SIZEOF_PTR * np + CACHELINE_SIZE * np + PAGE_SIZE - 1) / PAGE_SIZE * PAGE_SIZE.

(** ** Scenarios *)

(** A one-processor machine with a segment of 64 pages at 0x100000. *)
Definition demo_platform : platform := mkPlatform 1048576 (64 * 4096) true 1.

Definition walk_fuel : nat := 16.

(** The heap right after a first [mm_init]. *)
Definition fresh_heap : state := state_after (mm_init demo_platform) initial_state.

(** C8 read literally: once a first call has succeeded, a second call
    returns 0 and leaves the state as it was. *)
Definition init_idempotent (pf : platform) : Prop :=
  forall s1, mm_init pf initial_state = Ret 0 s1 -> mm_init pf s1 = Ret 0 s1.

(** After [mm_init] and one [mm_malloc(2048)] on processor 0: the page-ref
    at 0x101000 serves the page at 0x102000, whose block at offset 2048 is
    allocated. *)
Definition one_block_taken : state :=
  state_after (mm_init demo_platform ;; mm_malloc walk_fuel 0 2048) initial_state.

(** After one more [mm_malloc(2040)]: the base block of that page is
    allocated too, handed out as 0x102008. *)
Definition base_block_taken : state :=
  state_after (mm_init demo_platform ;; mm_malloc walk_fuel 0 2048 ;;
               mm_malloc walk_fuel 0 2040) initial_state.

(** Scenario S3: two allocations of 2048 bytes on one processor of a fresh
    heap. The value is the pair of pointers. *)
Definition two_allocations_of_2048 (pf : platform) (cpu : Z) : M (Z * Z) :=
  mm_init pf ;;
  p1 <- mm_malloc walk_fuel cpu 2048 ;;
  p2 <- mm_malloc walk_fuel cpu 2048 ;;
  ret (p1, p2).

(** C6 read literally: both allocations succeed and the second pointer lies
    in the page of the first. *)
Definition second_2048_from_same_page (pf : platform) (cpu : Z) : Prop :=
  exists p1 p2 s,
    two_allocations_of_2048 pf cpu initial_state = Ret (p1, p2) s /\
    p2 <> NULL /\
    page_head_of (dseg_lo s) p2 = page_head_of (dseg_lo s) p1.

(** A large allocation of three pages whose payload the caller writes to,
    freed, then a smaller large allocation carved off its tail. The value is
    the pair of pointers. *)
Definition large_then_split : M (Z * Z) :=
  mm_init demo_platform ;;
  p1 <- mm_malloc walk_fuel 0 10000 ;;
  store_int (p1 + 8184) 0 ;;
  mm_free walk_fuel p1 ;;
  p2 <- mm_malloc walk_fuel 0 4000 ;;
  ret (p1, p2).

(** A machine with 512 processors, and an allocation of 8 bytes by a
    thread running on processor 256. *)
Definition big_machine : platform := mkPlatform 1048576 (64 * 4096) true 512.

Definition alloc_on_cpu_256 : M Z :=
  mm_init big_machine ;; mm_malloc walk_fuel 256 8.

(** [n] allocations in a row; the value lists the pointers. *)
Fixpoint mallocs (n : nat) (cpu sz : Z) : M (list Z) :=
  match n with
  | O => ret nil
  | S n' =>
      p <- mm_malloc walk_fuel cpu sz ;;
      ps <- mallocs n' cpu sz ;;
      ret (p :: ps)
  end.

(** 511 allocations of 8 bytes and one of 0 bytes fill a class-8 page; the
    last two pointers are then freed. The value is that pair of pointers. *)
Definition double_handout : M (Z * Z) :=
  mm_init demo_platform ;;
  ps <- mallocs 511 0 8 ;;
  p <- mm_malloc walk_fuel 0 0 ;;
  let q := default NULL (last ps) in
  mm_free walk_fuel q ;;
  mm_free walk_fuel p ;;
  ret (q, p).

(** Segments that hold the directory-and-locks region only, or that region
    and one more page. *)
Definition one_page_platform : platform := mkPlatform 1048576 4096 true 1.
Definition two_page_platform : platform := mkPlatform 1048576 8192 true 1.

(** A heap that has served one large allocation of 10000 bytes. *)
Definition one_span_taken : state :=
  state_after (mm_init demo_platform ;; mm_malloc walk_fuel 0 10000) initial_state.

(** The same heap after that allocation has been freed. *)
Definition one_span_freed : state :=
  state_after (mm_init demo_platform ;; p <- mm_malloc walk_fuel 0 10000 ;;
               mm_free walk_fuel p) initial_state.

(** Two large spans, of three pages and of two pages, both freed: the free
    list starts with the two-page span at 0x104004 and continues with the
    three-page span at 0x101004. *)
Definition two_spans_freed : state :=
  state_after (mm_init demo_platform ;;
               p1 <- mm_malloc walk_fuel 0 10000 ;;
               p2 <- mm_malloc walk_fuel 0 5000 ;;
               mm_free walk_fuel p1 ;;
               mm_free walk_fuel p2) initial_state.

(** After [mm_init] and one [mm_malloc(8)] on processor 0: the page-ref at
    0x101000 serves the class-8 page at 0x102000 and has 511 free blocks. *)
Definition small_block_taken : state :=
  state_after (mm_init demo_platform ;; mm_malloc walk_fuel 0 8) initial_state.

(** After a second [mm_malloc(8)]: the blocks at 0x102ff8 and 0x102ff0 are
    allocated. *)
Definition two_small_blocks_taken : state :=
  state_after (mm_init demo_platform ;; mm_malloc walk_fuel 0 8 ;;
               mm_malloc walk_fuel 0 8) initial_state.

(** Two class-2048 pages, both full, then the block at offset 2048 of the
    older page freed: the list of processor 0 starts with the full page-ref
    at 0x101fc0 and continues with the page-ref at 0x101000, which has one
    free block. *)
Definition full_then_free : state :=
  state_after (mm_init demo_platform ;;
               p1 <- mm_malloc walk_fuel 0 2048 ;;
               mm_malloc walk_fuel 0 2040 ;;
               mm_malloc walk_fuel 0 2048 ;;
               mm_malloc walk_fuel 0 2040 ;;
               mm_free walk_fuel p1) initial_state.

(** After [mm_init], one [mm_malloc(2048)] and the free of that block: the
    page at 0x102000 is empty again and its page-ref at 0x101000 is on the
    reusable list. *)
Definition page_recycled : state :=
  state_after (mm_init demo_platform ;; p <- mm_malloc walk_fuel 0 2048 ;;
               mm_free walk_fuel p) initial_state.

(** [mm_init] called again on a heap that serves an allocation. *)
Definition initialised_twice : state :=
  state_after (mm_init demo_platform) small_block_taken.

(** A class-1024 page is filled (three blocks of 1024 bytes, then the base
    block asked for with 1016 bytes); two blocks and the base block are
    freed; a request of 1024 bytes is served, the caller writes the last 8
    of those 1024 bytes, and two more requests of 1024 bytes follow. The
    value lists the pointer of the base block and those of the last three
    allocations. *)
Definition base_block_reused : M (Z * Z * Z * Z) :=
  mm_init demo_platform ;;
  mm_malloc walk_fuel 0 1024 ;;
  b2 <- mm_malloc walk_fuel 0 1024 ;;
  b1 <- mm_malloc walk_fuel 0 1024 ;;
  p0 <- mm_malloc walk_fuel 0 1016 ;;
  mm_free walk_fuel b2 ;;
  mm_free walk_fuel b1 ;;
  mm_free walk_fuel p0 ;;
  r <- mm_malloc walk_fuel 0 1024 ;;
  store_ptr (r + 1016) (p0 - 4) ;;
  x <- mm_malloc walk_fuel 0 1024 ;;
  y <- mm_malloc walk_fuel 0 1024 ;;
  ret (p0, r, x, y).

(** * Properties *)

(** ** Machine integers *)

Lemma to_int_small z : - 2 ^ 31 <= z < 2 ^ 31 -> to_int z = z.
Proof.
  intros Hz. unfold to_int.
  destruct (Z_lt_le_dec z 0) as [Hneg | Hpos].
  - assert (Hm : z mod 2 ^ 32 = z + 2 ^ 32).
    { symmetry. apply (Z.mod_unique_pos z (2 ^ 32) (-1)); lia. }
    rewrite Hm. destruct (Z.ltb_spec (z + 2 ^ 32) (2 ^ 31)); lia.
  - rewrite Z.mod_small by lia.
    destruct (Z.ltb_spec z (2 ^ 31)); lia.
Qed.

Lemma to_int_mod z : to_int (z mod 2 ^ 32) = to_int z.
Proof. unfold to_int. now rewrite Z.mod_mod by lia. Qed.

Lemma to_int_congr x y : x mod 2 ^ 32 = y mod 2 ^ 32 -> to_int x = to_int y.
Proof. intros H. unfold to_int. now rewrite H. Qed.

Lemma to_int_mod_idem z : to_int (to_int z) = to_int z.
Proof.
  apply to_int_congr. unfold to_int.
  destruct (Z.ltb_spec (z mod 2 ^ 32) (2 ^ 31)).
  - apply Z.mod_mod. lia.
  - rewrite <- (Z.mod_add (z mod 2 ^ 32 - 2 ^ 32) 1) by lia.
    replace (z mod 2 ^ 32 - 2 ^ 32 + 1 * 2 ^ 32) with (z mod 2 ^ 32) by lia.
    apply Z.mod_mod. lia.
Qed.

Lemma to_size_t_small z : 0 <= z < 2 ^ 64 -> to_size_t z = z.
Proof. intros Hz. unfold to_size_t. now apply Z.mod_small. Qed.

(** ** The byte store *)

Section ByteStore.

Implicit Types (m : gmap Z Z) (a b v : Z) (n k : nat).

Lemma byte_at_range m a : 0 <= Mem.byte_at m a < 256.
Proof. unfold Mem.byte_at. apply Z.mod_pos_bound. lia. Qed.

Lemma byte_at_insert m a v b :
  Mem.byte_at (<[a := v]> m) b = if decide (a = b) then v mod 256 else Mem.byte_at m b.
Proof.
  unfold Mem.byte_at. rewrite lookup_insert.
  destruct (decide (a = b)); reflexivity.
Qed.

Lemma byte_at_write_le m a n v b :
  b < a \/ a + Z.of_nat n <= b ->
  Mem.byte_at (Mem.write_le m a n v) b = Mem.byte_at m b.
Proof.
  revert m a v. induction n as [| n IH]; intros m a v Hb; simpl; [reflexivity |].
  rewrite IH by lia. rewrite byte_at_insert.
  destruct (decide (a = b)); [lia | reflexivity].
Qed.

Lemma byte_at_zero_range m a n b :
  Mem.byte_at (Mem.zero_range m a n) b =
  if decide (a <= b < a + Z.of_nat n) then 0 else Mem.byte_at m b.
Proof.
  revert m a. induction n as [| n IH]; intros m a; simpl.
  - destruct (decide _); [lia | reflexivity].
  - rewrite IH, byte_at_insert.
    repeat destruct (decide _); try reflexivity; lia.
Qed.

Lemma read_le_ext m1 m2 a n :
  (forall b, a <= b < a + Z.of_nat n -> Mem.byte_at m1 b = Mem.byte_at m2 b) ->
  Mem.read_le m1 a n = Mem.read_le m2 a n.
Proof.
  revert a. induction n as [| n IH]; intros a Hb; simpl; [reflexivity |].
  rewrite (Hb a) by lia. rewrite (IH (a + 1)); [reflexivity |].
  intros b Hr. apply Hb. lia.
Qed.

Lemma read_le_range m a n : 0 <= Mem.read_le m a n < 256 ^ Z.of_nat n.
Proof.
  revert a. induction n as [| n IH]; intros a.
  - simpl. lia.
  - cbn [Mem.read_le]. rewrite Nat2Z.inj_succ, Z.pow_succ_r by lia.
    specialize (IH (a + 1)). pose proof (byte_at_range m a). lia.
Qed.

Lemma read_le_write_le_same m a n v :
  Mem.read_le (Mem.write_le m a n v) a n = v mod 256 ^ Z.of_nat n.
Proof.
  revert m a v. induction n as [| n IH]; intros m a v.
  - simpl. now rewrite Z.mod_1_r.
  - cbn [Mem.read_le Mem.write_le].
    rewrite byte_at_write_le by lia.
    rewrite byte_at_insert. destruct (decide (a = a)) as [_ | Hne]; [| congruence].
    rewrite Z.mod_mod by lia. rewrite IH. rewrite Nat2Z.inj_succ, Z.pow_succ_r by lia.
    rewrite (Z.rem_mul_r v 256 (256 ^ Z.of_nat n)) by lia. reflexivity.
Qed.

Lemma read_le_write_le_other m a n b k v :
  a + Z.of_nat n <= b \/ b + Z.of_nat k <= a ->
  Mem.read_le (Mem.write_le m b k v) a n = Mem.read_le m a n.
Proof.
  intros Hd. apply read_le_ext. intros c Hc.
  apply byte_at_write_le. lia.
Qed.

Lemma read_le_zero_range_in m a n b k :
  b <= a -> a + Z.of_nat n <= b + Z.of_nat k ->
  Mem.read_le (Mem.zero_range m b k) a n = 0.
Proof.
  intros Hlo Hhi. revert a Hlo Hhi. induction n as [| n IH]; intros a Hlo Hhi.
  - reflexivity.
  - cbn [Mem.read_le]. rewrite byte_at_zero_range.
    destruct (decide _); [| lia]. rewrite IH by lia. reflexivity.
Qed.

Lemma read_le_zero_range_other m a n b k :
  a + Z.of_nat n <= b \/ b + Z.of_nat k <= a ->
  Mem.read_le (Mem.zero_range m b k) a n = Mem.read_le m a n.
Proof.
  intros Hd. apply read_le_ext. intros c Hc.
  rewrite byte_at_zero_range. destruct (decide _); [lia | reflexivity].
Qed.

End ByteStore.

(** ** Running the primitives *)

Lemma valid_iff s a n : valid s a n = true <-> dseg_lo s <= a /\ a + n <= dseg_hi s.
Proof.
  unfold valid. rewrite andb_true_iff, !Z.leb_le. reflexivity.
Qed.

Lemma valid_set_heap s m a n : valid (set_heap s m) a n = valid s a n.
Proof. reflexivity. Qed.

Section Run.

Context {B : Type}.
Implicit Types (s : state) (a v : Z).

Lemma run_ret {A} (x : A) (k : A -> M B) s : (y <- ret x ;; k y) s = k x s.
Proof. reflexivity. Qed.

Lemma run_gets {A} (f : state -> A) (k : A -> M B) s : (y <- gets f ;; k y) s = k (f s) s.
Proof. reflexivity. Qed.

Lemma run_modify (f : state -> state) (k : M B) s : (modify f ;; k) s = k (f s).
Proof. reflexivity. Qed.

Lemma run_load_int a (k : Z -> M B) s :
  valid s a 4 = true -> (x <- load_int a ;; k x) s = k (rd_int s a) s.
Proof. intros H. unfold bind, load_int. now rewrite H. Qed.

Lemma run_load_ptr a (k : Z -> M B) s :
  valid s a 8 = true -> (x <- load_ptr a ;; k x) s = k (rd_ptr s a) s.
Proof. intros H. unfold bind, load_ptr. now rewrite H. Qed.

Lemma run_store_int a v (k : M B) s :
  valid s a 4 = true -> (store_int a v ;; k) s = k (wr_int a v s).
Proof. intros H. unfold bind, store_int. now rewrite H. Qed.

Lemma run_store_ptr a v (k : M B) s :
  valid s a 8 = true -> (store_ptr a v ;; k) s = k (wr_ptr a v s).
Proof. intros H. unfold bind, store_ptr. now rewrite H. Qed.

Lemma run_store_char a v (k : M B) s :
  valid s a 1 = true -> (store_char a v ;; k) s = k (wr_char a v s).
Proof. intros H. unfold bind, store_char. now rewrite H. Qed.

Lemma run_assoc {A C} (c : M A) (f : A -> M C) (g : C -> M B) s :
  (y <- (x <- c ;; f x) ;; g y) s = (x <- c ;; y <- f x ;; g y) s.
Proof. unfold bind. destruct (c s); reflexivity. Qed.

Lemma run_bzero a n (k : M B) s :
  0 < n -> valid s a n = true ->
  (bzero a n ;; k) s = k (wr_zero a n s).
Proof.
  intros Hn H. unfold bind, bzero. rewrite H.
  destruct (Z.leb_spec n 0); [lia | reflexivity].
Qed.

End Run.

Lemma run_sbrk_ok {B} incr (k : Z -> M B) s :
  0 <= incr -> dseg_hi s + incr <= dseg_max s ->
  (x <- mem_sbrk incr ;; k x) s =
  k (dseg_hi s) (set_segment (dseg_lo s) (dseg_hi s + incr) (dseg_max s) s).
Proof.
  intros Hpos Hroom. unfold bind, mem_sbrk.
  destruct (Z.leb_spec 0 incr); [| lia].
  destruct (Z.leb_spec (dseg_hi s + incr) (dseg_max s)); [| lia].
  reflexivity.
Qed.

Lemma run_sbrk_fail {B} incr (k : Z -> M B) s :
  dseg_max s < dseg_hi s + incr ->
  (x <- mem_sbrk incr ;; k x) s = k NULL s.
Proof.
  intros Hroom. unfold bind, mem_sbrk.
  destruct (Z.leb_spec (dseg_hi s + incr) (dseg_max s)); [lia |].
  rewrite andb_false_r. reflexivity.
Qed.

(** Reading back what was written, and reading next to it. *)

Lemma rd_ptr_range s a : 0 <= rd_ptr s a < 2 ^ 64.
Proof. unfold rd_ptr. apply (read_le_range (heap s) a 8). Qed.

Lemma to_int_range z : - 2 ^ 31 <= to_int z < 2 ^ 31.
Proof.
  unfold to_int. pose proof (Z.mod_pos_bound z (2 ^ 32) ltac:(lia)).
  destruct (Z.ltb_spec (z mod 2 ^ 32) (2 ^ 31)); lia.
Qed.

Lemma rd_int_range s a : - 2 ^ 31 <= rd_int s a < 2 ^ 31.
Proof. unfold rd_int. apply to_int_range. Qed.

Ltac unfold_access :=
  unfold rd_int, rd_ptr, wr_int, wr_ptr, wr_char, wr_zero in *;
  cbn [heap set_heap set_segment set_big_list set_new_free_page_refs
       set_reusable_page_refs set_processor_locks_base set_num_processors] in *.

(** Projections of a state after writes to the heap or to a global. *)

Section Projections.

Context (f : state -> state).

Section Heap.
Context `{!HeapWrite f}.
Implicit Types (s : state).

Lemma dseg_lo_hw s : dseg_lo (f s) = dseg_lo s.
Proof. apply heap_write. Qed.
Lemma dseg_hi_hw s : dseg_hi (f s) = dseg_hi s.
Proof. apply heap_write. Qed.
Lemma dseg_max_hw s : dseg_max (f s) = dseg_max s.
Proof. apply heap_write. Qed.
Lemma big_list_hw s : big_list (f s) = big_list s.
Proof. apply heap_write. Qed.
Lemma new_free_page_refs_hw s : new_free_page_refs (f s) = new_free_page_refs s.
Proof. apply heap_write. Qed.
Lemma reusable_page_refs_hw s : reusable_page_refs (f s) = reusable_page_refs s.
Proof. apply heap_write. Qed.
Lemma processor_locks_base_hw s : processor_locks_base (f s) = processor_locks_base s.
Proof. apply heap_write. Qed.
Lemma num_processors_hw s : num_processors (f s) = num_processors s.
Proof. apply heap_write. Qed.
Lemma valid_hw s a n : valid (f s) a n = valid s a n.
Proof. unfold valid. now rewrite dseg_lo_hw, dseg_hi_hw. Qed.
Lemma pageref_slot_hw s p c : pageref_slot (f s) p c = pageref_slot s p c.
Proof. unfold pageref_slot. now rewrite dseg_lo_hw. Qed.
End Heap.

Section Global.
Context `{!GlobalWrite f}.
Implicit Types (s : state).

Lemma heap_gw s : heap (f s) = heap s.
Proof. apply global_write. Qed.
Lemma dseg_lo_gw s : dseg_lo (f s) = dseg_lo s.
Proof. apply global_write. Qed.
Lemma dseg_hi_gw s : dseg_hi (f s) = dseg_hi s.
Proof. apply global_write. Qed.
Lemma dseg_max_gw s : dseg_max (f s) = dseg_max s.
Proof. apply global_write. Qed.
Lemma valid_gw s a n : valid (f s) a n = valid s a n.
Proof. unfold valid. now rewrite dseg_lo_gw, dseg_hi_gw. Qed.
Lemma pageref_slot_gw s p c : pageref_slot (f s) p c = pageref_slot s p c.
Proof. unfold pageref_slot. now rewrite dseg_lo_gw. Qed.
Lemma rd_int_gw s a : rd_int (f s) a = rd_int s a.
Proof. unfold rd_int. now rewrite heap_gw. Qed.
Lemma rd_ptr_gw s a : rd_ptr (f s) a = rd_ptr s a.
Proof. unfold rd_ptr. now rewrite heap_gw. Qed.
End Global.

End Projections.

#[global] Instance wr_int_hw a v : HeapWrite (wr_int a v).
Proof. intros s. repeat split. Qed.
#[global] Instance wr_ptr_hw a v : HeapWrite (wr_ptr a v).
Proof. intros s. repeat split. Qed.
#[global] Instance wr_char_hw a v : HeapWrite (wr_char a v).
Proof. intros s. repeat split. Qed.
#[global] Instance wr_zero_hw a n : HeapWrite (wr_zero a n).
Proof. intros s. repeat split. Qed.

#[global] Instance set_big_list_gw v : GlobalWrite (set_big_list v).
Proof. intros s. repeat split. Qed.
#[global] Instance set_new_free_page_refs_gw v : GlobalWrite (set_new_free_page_refs v).
Proof. intros s. repeat split. Qed.
#[global] Instance set_reusable_page_refs_gw v : GlobalWrite (set_reusable_page_refs v).
Proof. intros s. repeat split. Qed.
#[global] Instance set_processor_locks_base_gw v : GlobalWrite (set_processor_locks_base v).
Proof. intros s. repeat split. Qed.
#[global] Instance set_num_processors_gw v : GlobalWrite (set_num_processors v).
Proof. intros s. repeat split. Qed.

Lemma big_list_set v s : big_list (set_big_list v s) = v.
Proof. reflexivity. Qed.
Lemma new_free_page_refs_set v s : new_free_page_refs (set_new_free_page_refs v s) = v.
Proof. reflexivity. Qed.
Lemma reusable_page_refs_set v s : reusable_page_refs (set_reusable_page_refs v s) = v.
Proof. reflexivity. Qed.
Lemma num_processors_set v s : num_processors (set_num_processors v s) = v.
Proof. reflexivity. Qed.
Lemma processor_locks_base_set v s :
  processor_locks_base (set_processor_locks_base v s) = v.
Proof. reflexivity. Qed.

Section SetSegment.

Implicit Types (s : state) (lo hi mx : Z).

Lemma dseg_lo_set_segment lo hi mx s : dseg_lo (set_segment lo hi mx s) = lo.
Proof. reflexivity. Qed.
Lemma dseg_hi_set_segment lo hi mx s : dseg_hi (set_segment lo hi mx s) = hi.
Proof. reflexivity. Qed.
Lemma dseg_max_set_segment lo hi mx s : dseg_max (set_segment lo hi mx s) = mx.
Proof. reflexivity. Qed.
Lemma heap_set_segment lo hi mx s : heap (set_segment lo hi mx s) = heap s.
Proof. reflexivity. Qed.
Lemma rd_int_set_segment lo hi mx s a : rd_int (set_segment lo hi mx s) a = rd_int s a.
Proof. reflexivity. Qed.
Lemma rd_ptr_set_segment lo hi mx s a : rd_ptr (set_segment lo hi mx s) a = rd_ptr s a.
Proof. reflexivity. Qed.
Lemma big_list_set_segment lo hi mx s : big_list (set_segment lo hi mx s) = big_list s.
Proof. reflexivity. Qed.
Lemma new_free_page_refs_set_segment lo hi mx s :
  new_free_page_refs (set_segment lo hi mx s) = new_free_page_refs s.
Proof. reflexivity. Qed.
Lemma reusable_page_refs_set_segment lo hi mx s :
  reusable_page_refs (set_segment lo hi mx s) = reusable_page_refs s.
Proof. reflexivity. Qed.
Lemma num_processors_set_segment lo hi mx s :
  num_processors (set_segment lo hi mx s) = num_processors s.
Proof. reflexivity. Qed.
Lemma pageref_slot_set_segment lo hi mx s p c :
  pageref_slot (set_segment lo hi mx s) p c = lo + p * SIZEOF_PTR * NUM_CLASS + c * SIZEOF_PTR.
Proof. reflexivity. Qed.

(** Reading one global after writing another. *)
Lemma reusable_set_new_free v s :
  reusable_page_refs (set_new_free_page_refs v s) = reusable_page_refs s.
Proof. reflexivity. Qed.
Lemma new_free_set_reusable v s :
  new_free_page_refs (set_reusable_page_refs v s) = new_free_page_refs s.
Proof. reflexivity. Qed.
Lemma num_processors_set_new_free v s :
  num_processors (set_new_free_page_refs v s) = num_processors s.
Proof. reflexivity. Qed.
Lemma num_processors_set_reusable v s :
  num_processors (set_reusable_page_refs v s) = num_processors s.
Proof. reflexivity. Qed.

End SetSegment.

Ltac proj_simpl :=
  repeat first
    [ rewrite dseg_lo_set_segment | rewrite dseg_hi_set_segment
    | rewrite dseg_max_set_segment | rewrite heap_set_segment
    | rewrite big_list_set_segment | rewrite new_free_page_refs_set_segment
    | rewrite reusable_page_refs_set_segment | rewrite num_processors_set_segment
    | rewrite pageref_slot_set_segment
    | rewrite reusable_set_new_free | rewrite new_free_set_reusable
    | rewrite num_processors_set_new_free | rewrite num_processors_set_reusable
    | rewrite valid_hw by typeclasses eauto
    | rewrite valid_gw by typeclasses eauto
    | rewrite pageref_slot_hw by typeclasses eauto
    | rewrite pageref_slot_gw by typeclasses eauto
    | rewrite dseg_lo_hw by typeclasses eauto
    | rewrite dseg_lo_gw by typeclasses eauto
    | rewrite dseg_hi_hw by typeclasses eauto
    | rewrite dseg_hi_gw by typeclasses eauto
    | rewrite dseg_max_hw by typeclasses eauto
    | rewrite dseg_max_gw by typeclasses eauto
    | rewrite big_list_set | rewrite new_free_page_refs_set
    | rewrite reusable_page_refs_set | rewrite num_processors_set
    | rewrite processor_locks_base_set
    | rewrite big_list_hw by typeclasses eauto
    | rewrite new_free_page_refs_hw by typeclasses eauto
    | rewrite reusable_page_refs_hw by typeclasses eauto
    | rewrite num_processors_hw by typeclasses eauto
    | rewrite processor_locks_base_hw by typeclasses eauto
    | rewrite heap_gw by typeclasses eauto ].

Ltac solve_valid :=
  proj_simpl; unfold valid; proj_simpl;
  apply andb_true_intro; split; apply Z.leb_le; lia.

Ltac exec_step :=
  match goal with
  | |- context [bind (bind ?c ?f) ?g ?s] => rewrite (run_assoc c f g s)
  | |- context [bind (ret ?x) ?k ?s] => rewrite (run_ret x k s)
  | |- context [bind (gets ?f) ?k ?s] => rewrite (run_gets f k s)
  | |- context [bind (modify ?f) ?k ?s] => rewrite (run_modify f (k tt) s)
  | |- context [bind (load_int ?a) ?k ?s] => rewrite (run_load_int a k s) by solve_valid
  | |- context [bind (load_ptr ?a) ?k ?s] => rewrite (run_load_ptr a k s) by solve_valid
  | |- context [bind (store_int ?a ?v) ?k ?s] => rewrite (run_store_int a v (k tt) s) by solve_valid
  | |- context [bind (store_ptr ?a ?v) ?k ?s] => rewrite (run_store_ptr a v (k tt) s) by solve_valid
  | |- context [bind (store_char ?a ?v) ?k ?s] => rewrite (run_store_char a v (k tt) s) by solve_valid
  | |- context [bind (bzero ?a ?n) ?k ?s] => rewrite (run_bzero a n (k tt) s) by (lia || solve_valid)
  | |- context [bind (mem_sbrk ?n) ?k ?s] =>
      rewrite (run_sbrk_ok n k s) by (proj_simpl; unfold PAGE_SIZE; lia)
  end.

(** Rewrite a read through the writes it is disjoint from. *)
Ltac rd_other :=
  repeat first
    [ rewrite read_le_write_le_other by (cbn [Z.of_nat Pos.of_succ_nat Pos.succ]; lia)
    | rewrite read_le_zero_range_other by (cbn [Z.of_nat Pos.of_succ_nat Pos.succ]; lia) ].

Section ReadAfterWrite.

Implicit Types (s : state) (a b v : Z).

Lemma rd_ptr_wr_ptr_same s a v : 0 <= v < 2 ^ 64 -> rd_ptr (wr_ptr a v s) a = v.
Proof.
  intros Hv. unfold_access. rewrite read_le_write_le_same.
  apply Z.mod_small. exact Hv.
Qed.

Lemma rd_int_wr_int_same s a v : rd_int (wr_int a v s) a = to_int v.
Proof.
  unfold_access. rewrite read_le_write_le_same. apply to_int_mod.
Qed.

Lemma rd_ptr_wr_ptr_other s a b v :
  a + 8 <= b \/ b + 8 <= a -> rd_ptr (wr_ptr b v s) a = rd_ptr s a.
Proof. intros H. unfold_access. now rd_other. Qed.

Lemma rd_ptr_wr_int_other s a b v :
  a + 8 <= b \/ b + 4 <= a -> rd_ptr (wr_int b v s) a = rd_ptr s a.
Proof. intros H. unfold_access. now rd_other. Qed.

Lemma rd_ptr_wr_char_other s a b v :
  a + 8 <= b \/ b + 1 <= a -> rd_ptr (wr_char b v s) a = rd_ptr s a.
Proof. intros H. unfold_access. now rd_other. Qed.

Lemma rd_int_wr_ptr_other s a b v :
  a + 4 <= b \/ b + 8 <= a -> rd_int (wr_ptr b v s) a = rd_int s a.
Proof. intros H. unfold_access. now rd_other. Qed.

Lemma rd_int_wr_int_other s a b v :
  a + 4 <= b \/ b + 4 <= a -> rd_int (wr_int b v s) a = rd_int s a.
Proof. intros H. unfold_access. now rd_other. Qed.

Lemma rd_int_wr_char_other s a b v :
  a + 4 <= b \/ b + 1 <= a -> rd_int (wr_char b v s) a = rd_int s a.
Proof. intros H. unfold_access. now rd_other. Qed.

Lemma rd_ptr_wr_zero_other s a b n :
  0 <= n -> a + 8 <= b \/ b + n <= a -> rd_ptr (wr_zero b n s) a = rd_ptr s a.
Proof.
  intros Hn H. unfold_access.
  apply read_le_zero_range_other. rewrite Z2Nat.id by lia. cbn. lia.
Qed.

Lemma rd_int_wr_zero_other s a b n :
  0 <= n -> a + 4 <= b \/ b + n <= a -> rd_int (wr_zero b n s) a = rd_int s a.
Proof.
  intros Hn H. unfold_access. f_equal.
  apply read_le_zero_range_other. rewrite Z2Nat.id by lia. cbn. lia.
Qed.

Lemma byte_at_wr_zero_in s a b n :
  b <= a < b + n -> Mem.byte_at (heap (wr_zero b n s)) a = 0.
Proof.
  intros H. unfold_access. rewrite byte_at_zero_range.
  rewrite Z2Nat.id by lia. destruct (decide _); [reflexivity | lia].
Qed.

Lemma byte_at_wr_ptr_other s a b v :
  a < b \/ b + 8 <= a -> Mem.byte_at (heap (wr_ptr b v s)) a = Mem.byte_at (heap s) a.
Proof. intros H. unfold_access. apply byte_at_write_le. cbn. lia. Qed.

Lemma byte_at_wr_int_other s a b v :
  a < b \/ b + 4 <= a -> Mem.byte_at (heap (wr_int b v s)) a = Mem.byte_at (heap s) a.
Proof. intros H. unfold_access. apply byte_at_write_le. cbn. lia. Qed.

Lemma byte_at_wr_char_other s a b v :
  a < b \/ b + 1 <= a -> Mem.byte_at (heap (wr_char b v s)) a = Mem.byte_at (heap s) a.
Proof. intros H. unfold_access. apply byte_at_write_le. cbn. lia. Qed.

Lemma byte_at_wr_zero_other s a b n :
  0 <= n -> a < b \/ b + n <= a ->
  Mem.byte_at (heap (wr_zero b n s)) a = Mem.byte_at (heap s) a.
Proof.
  intros Hn H. unfold_access. rewrite byte_at_zero_range.
  rewrite Z2Nat.id by lia. destruct (decide _); [lia | reflexivity].
Qed.

End ReadAfterWrite.

Ltac rd_simpl :=
  repeat first
    [ rewrite rd_ptr_wr_ptr_same by lia
    | rewrite rd_int_wr_int_same
    | rewrite rd_ptr_wr_ptr_other by lia
    | rewrite rd_ptr_wr_int_other by lia
    | rewrite rd_ptr_wr_char_other by lia
    | rewrite rd_int_wr_ptr_other by lia
    | rewrite rd_int_wr_int_other by lia
    | rewrite rd_int_wr_char_other by lia
    | rewrite rd_ptr_wr_zero_other by lia
    | rewrite rd_int_wr_zero_other by lia
    | rewrite rd_ptr_gw by typeclasses eauto
    | rewrite rd_int_gw by typeclasses eauto
    | rewrite rd_ptr_set_segment
    | rewrite rd_int_set_segment ].

Ltac exec := repeat (exec_step; proj_simpl; rd_simpl).

(** ** Page heads *)


Lemma page_head_of_aligned lo base off :
  lo <= base -> (base - lo) mod PAGE_SIZE = 0 -> 0 <= off < PAGE_SIZE ->
  page_head_of lo (base + off) = base.
Proof.
  intros Hlo Hal Hoff. unfold page_head_of, PAGE_SIZE in *.
  rewrite Z.quot_div_nonneg by lia.
  apply Z.div_exact in Hal; [| lia].
  replace (base + off - lo) with (off + (base - lo) / 4096 * 4096) by lia.
  rewrite Z.div_add by lia. rewrite Z.div_small by lia. lia.
Qed.

(** ** The subpage free path *)

Lemma find_owner_sound fuel page_head prior0 pr0 s prior pr s' :
  find_owner fuel page_head prior0 pr0 s = Ret (prior, pr) s' ->
  s' = s /\ (pr <> NULL -> valid s (pr + PR_BASE) 8 = true /\ rd_ptr s (pr + PR_BASE) = page_head).
Proof.
  revert prior0 pr0. induction fuel as [| fuel IH]; intros prior0 pr0 Hrun; [discriminate |].
  cbn [find_owner] in Hrun.
  destruct (pr0 =? NULL) eqn:Hnull.
  - injection Hrun as <- <- <-. apply Z.eqb_eq in Hnull.
    split; [reflexivity | congruence].
  - unfold bind at 1 in Hrun. unfold load_ptr at 1 in Hrun.
    destruct (valid s (pr0 + PR_BASE) 8) eqn:Hv; [| discriminate].
    destruct (rd_ptr s (pr0 + PR_BASE) =? page_head) eqn:Hbase.
    + injection Hrun as <- <- <-. apply Z.eqb_eq in Hbase.
      split; [reflexivity | intros _; split; assumption].
    + unfold bind at 1 in Hrun. unfold load_ptr at 1 in Hrun.
      destruct (valid s (pr0 + PR_NEXT) 8); [| discriminate].
      apply IH in Hrun. exact Hrun.
Qed.

Lemma blocks_per_page_range c : 0 <= blocks_per_page c <= PAGE_SIZE.
Proof.
  unfold blocks_per_page, PAGE_SIZE.
  pose proof (Z.shiftl_nonneg 1 (BASE_CLASS + c)) as [_ Hnn].
  specialize (Hnn ltac:(lia)).
  destruct (Z.eq_dec (Z.shiftl 1 (BASE_CLASS + c)) 0) as [-> | Hpos].
  - change (4096 ÷ 0) with 0. lia.
  - rewrite Z.quot_div_nonneg by lia. split.
    + apply Z.div_pos; lia.
    + apply Z.div_le_upper_bound; nia.
Qed.

(** Pushing a block: lines 409-414, and the recycling of lines 415-431 when
    the page becomes fully empty. *)
Lemma release_block_full s processor_index block_class_index prior pr ptr base :
  addressable s ->
  pageref_ok s pr base ->
  link_ok s (link_of s processor_index block_class_index prior) pr base ->
  base <= ptr -> ptr + 8 <= base + PAGE_SIZE ->
  0 <= reusable_page_refs s < 2 ^ 64 ->
  rd_int s (pr + PR_NUM_FREE) + 1 = blocks_per_page block_class_index ->
  exists s',
    release_block processor_index block_class_index prior pr ptr s = Ret tt s' /\
    rd_ptr s' (link_of s processor_index block_class_index prior) = rd_ptr s (pr + PR_NEXT) /\
    (forall a, base <= a < base + PAGE_SIZE -> Mem.byte_at (heap s') a = 0) /\
    reusable_page_refs s' = pr /\
    rd_ptr s' (pr + PR_NEXT) = reusable_page_refs s /\
    rd_ptr s' (pr + PR_BASE) = base /\
    rd_ptr s' (pr + PR_FREELIST) = ptr /\
    rd_int s' (pr + PR_NUM_FREE) = blocks_per_page block_class_index /\
    dseg_lo s' = dseg_lo s /\ dseg_hi s' = dseg_hi s /\ dseg_max s' = dseg_max s.
Proof.
  intros [Hlo Hhi] (Hnn & Hpr1 & Hpr2 & Hb1 & Hb2 & Hsep & Hbase)
         (Hl1 & Hl2 & Hl3 & Hl4) Hp1 Hp2 Hreuse Hfull.
  pose proof (blocks_per_page_range block_class_index) as Hbpp.
  pose proof (rd_ptr_range s (pr + PR_NEXT)) as Hnext.
  unfold release_block.
  unfold PR_FREELIST, PR_NUM_FREE, PR_BASE, PR_NEXT, PAGE_SIZE in *.
  exec.
  rewrite Hfull. rewrite !(to_int_small (blocks_per_page _)) by lia.
  change (4096 ÷ Z.shiftl 1 (BASE_CLASS + block_class_index))
    with (blocks_per_page block_class_index).
  rewrite Z.eqb_refl.
  unfold link_of, PR_NEXT in *.
  destruct (prior =? NULL) eqn:Hprior; cbn [negb].
  - unfold set_pageref_head. exec. rewrite Hbase. exec.
    eexists. split; [reflexivity |]. proj_simpl.
    repeat split; rd_simpl; try reflexivity; try lia;
      try (apply to_int_small; lia).
    intros a Ha. proj_simpl. rewrite byte_at_wr_ptr_other by lia.
    apply byte_at_wr_zero_in. lia.
  - exec. rewrite Hbase. exec.
    eexists. split; [reflexivity |]. proj_simpl.
    repeat split; rd_simpl; try reflexivity; try lia;
      try (apply to_int_small; lia).
    intros a Ha. proj_simpl. rewrite byte_at_wr_ptr_other by lia.
    apply byte_at_wr_zero_in. lia.
Qed.

Lemma release_block_keep s processor_index block_class_index prior pr ptr base :
  addressable s ->
  pageref_ok s pr base ->
  base <= ptr -> ptr + 8 <= base + PAGE_SIZE ->
  to_int (rd_int s (pr + PR_NUM_FREE) + 1) <> blocks_per_page block_class_index ->
  exists s',
    release_block processor_index block_class_index prior pr ptr s = Ret tt s' /\
    rd_ptr s' (pr + PR_FREELIST) = ptr /\
    rd_ptr s' ptr = rd_ptr s (pr + PR_FREELIST) /\
    rd_int s' (pr + PR_NUM_FREE) = to_int (rd_int s (pr + PR_NUM_FREE) + 1) /\
    rd_ptr s' (pr + PR_BASE) = base /\
    rd_ptr s' (pr + PR_NEXT) = rd_ptr s (pr + PR_NEXT) /\
    reusable_page_refs s' = reusable_page_refs s /\
    dseg_lo s' = dseg_lo s /\ dseg_hi s' = dseg_hi s /\ dseg_max s' = dseg_max s.
Proof.
  intros [Hlo Hhi] (Hnn & Hpr1 & Hpr2 & Hb1 & Hb2 & Hsep & Hbase) Hp1 Hp2 Hkeep.
  pose proof (rd_ptr_range s (pr + PR_FREELIST)) as Hhead.
  unfold release_block.
  unfold PR_FREELIST, PR_NUM_FREE, PR_BASE, PR_NEXT, PAGE_SIZE in *.
  exec.
  rewrite to_int_mod_idem.
  change (4096 ÷ Z.shiftl 1 (BASE_CLASS + block_class_index))
    with (blocks_per_page block_class_index).
  destruct (Z.eqb_spec (to_int (rd_int s (pr + 24) + 1))
                       (blocks_per_page block_class_index)) as [Heq | _];
    [contradiction |].
  eexists. split; [reflexivity |]. proj_simpl.
  repeat split; rd_simpl; try reflexivity; try lia.
  apply to_int_mod_idem.
Qed.

(** Whatever the page's fill, [release_block] leaves the pointer it was
    given at the head of the page-ref's freelist. *)
Lemma release_block_pushes s processor_index block_class_index prior pr ptr base :
  addressable s ->
  pageref_ok s pr base ->
  link_ok s (link_of s processor_index block_class_index prior) pr base ->
  base <= ptr -> ptr + 8 <= base + PAGE_SIZE ->
  0 <= reusable_page_refs s < 2 ^ 64 ->
  exists s',
    release_block processor_index block_class_index prior pr ptr s = Ret tt s' /\
    rd_ptr s' (pr + PR_FREELIST) = ptr /\
    rd_ptr s' (pr + PR_BASE) = base /\
    dseg_lo s' = dseg_lo s /\ dseg_hi s' = dseg_hi s /\ dseg_max s' = dseg_max s.
Proof.
  intros Haddr Hpr Hlink Hp1 Hp2 Hreuse.
  destruct (Z.eq_dec (to_int (rd_int s (pr + PR_NUM_FREE) + 1))
                     (blocks_per_page block_class_index)) as [Heq | Hne].
  - assert (Hfull : rd_int s (pr + PR_NUM_FREE) + 1 = blocks_per_page block_class_index).
    { pose proof (rd_int_range s (pr + PR_NUM_FREE)).
      pose proof (blocks_per_page_range block_class_index). unfold PAGE_SIZE in *.
      destruct (Z.eq_dec (rd_int s (pr + PR_NUM_FREE) + 1) (2 ^ 31)) as [Hw | Hw].
      - rewrite Hw in Heq. change (to_int (2 ^ 31)) with (- 2 ^ 31) in Heq. lia.
      - rewrite to_int_small in Heq by lia. exact Heq. }
    destruct (release_block_full s processor_index block_class_index prior pr ptr base)
      as (s' & Hrun & _ & _ & _ & _ & Hb & Hf & _ & Hseg); try assumption.
    exists s'. auto.
  - destruct (release_block_keep s processor_index block_class_index prior pr ptr base)
      as (s' & Hrun & Hf & _ & _ & Hb & _ & _ & Hseg); try assumption.
    exists s'. auto.
Qed.

(** Popping a block: lines 370-378. *)
Lemma take_block_spec s pr base :
  pageref_ok s pr base ->
  valid s (rd_ptr s (pr + PR_FREELIST)) 8 = true ->
  exists s',
    take_block pr s =
      Ret (if rd_ptr s (pr + PR_FREELIST) =? base
           then rd_ptr s (pr + PR_FREELIST) + 8
           else rd_ptr s (pr + PR_FREELIST)) s' /\
    rd_int s' (pr + PR_NUM_FREE) = to_int (rd_int s (pr + PR_NUM_FREE) - 1) /\
    rd_ptr s' (pr + PR_BASE) = base /\
    dseg_lo s' = dseg_lo s /\ dseg_hi s' = dseg_hi s /\ dseg_max s' = dseg_max s.
Proof.
  intros (Hnn & Hpr1 & Hpr2 & Hb1 & Hb2 & Hsep & Hbase) Hv.
  apply valid_iff in Hv.
  unfold take_block, PR_FREELIST, PR_NUM_FREE, PR_BASE, SIZEOF_INT, PAGE_SIZE in *.
  exec. rewrite Hbase.
  destruct (rd_ptr s (pr + 8) =? base); (eexists; split; [reflexivity |]);
    proj_simpl; repeat split; rd_simpl; try reflexivity; try lia;
    apply to_int_mod_idem.
Qed.

Lemma run_known {A B} (c : M A) (k : A -> M B) s a s' :
  c s = Ret a s' -> (x <- c ;; k x) s = k a s'.
Proof. intros H. unfold bind. now rewrite H. Qed.

Lemma bind_inv {A B} (c : M A) (k : A -> M B) s b s' :
  (x <- c ;; k x) s = Ret b s' ->
  exists a s1, c s = Ret a s1 /\ k a s1 = Ret b s'.
Proof.
  unfold bind. destruct (c s) as [a s1 | |]; try discriminate.
  intros H. exists a, s1. auto.
Qed.

Lemma bind_value {A} (c : M A) (k : A -> M Z) (P : Z -> Prop) :
  (forall a s r s', k a s = Ret r s' -> P r) ->
  forall s r s', (x <- c ;; k x) s = Ret r s' -> P r.
Proof.
  intros Hk s r s' Hrun. apply bind_inv in Hrun as (a & s1 & _ & Hrun).
  eapply Hk, Hrun.
Qed.

Lemma Ret_inj {A} (a a' : A) (s s' : state) :
  Ret a s = Ret a' s' -> a = a' /\ s = s'.
Proof. intros H. injection H as -> ->. auto. Qed.

Lemma value_of_run {A} (c : M A) s a :
  value_of c s = Some a -> c s = Ret a (state_after c s).
Proof.
  unfold value_of, state_after. destruct (c s); intros H; try discriminate.
  injection H as ->. reflexivity.
Qed.

(** [subpage_mm_free] up to the push. *)
Lemma subpage_mm_free_run fuel s ptr page_head proc c prior pr :
  free_finds fuel s ptr page_head proc c prior pr ->
  valid s page_head 8 = true ->
  subpage_mm_free fuel ptr s = (release_block proc c prior pr ptr ;; ret 1) s.
Proof.
  intros (Hph & Hproc & Hbig & Hc & Hslot & Hwalk) Hv. apply valid_iff in Hv.
  apply valid_iff in Hslot.
  unfold subpage_mm_free, get_page_head, pageref_head, SIZEOF_INT in *.
  exec. rewrite <- Hph. exec. rewrite <- Hproc.
  destruct (Z.eqb_spec proc (-1)) as [Heq | _]; [contradiction |].
  exec. rewrite <- Hc. exec.
  rewrite (run_known _ _ _ _ _ Hwalk). reflexivity.
Qed.

(** ** Computations that do not move the break *)

Section KeepsSegment.



Lemma keeps_modify (f : state -> state) :
  (forall s, dseg_lo (f s) = dseg_lo s /\ dseg_hi (f s) = dseg_hi s /\
             dseg_max (f s) = dseg_max s) ->
  keeps_segment (modify f).
Proof. intros Hf s x s' H. injection H as _ <-. apply Hf. Qed.











End KeepsSegment.


(** Taking a page-ref from the reusable list: lines 253-258. *)
Lemma acquire_pageref_reuse s :
  reusable_page_refs s <> NULL ->
  valid s (reusable_page_refs s + PR_NEXT) 8 = true ->
  acquire_pageref s =
    Ret (reusable_page_refs s, false)
        (set_reusable_page_refs (rd_ptr s (reusable_page_refs s + PR_NEXT)) s).
Proof.
  intros Hnn Hv. unfold acquire_pageref.
  rewrite run_gets.
  destruct (Z.eqb_spec (reusable_page_refs s) NULL) as [Heq | _]; [contradiction |].
  cbn [negb]. rewrite run_load_ptr by exact Hv. reflexivity.
Qed.


(** ** Recycling of empty pages *)



(** ** Initialisation *)

Lemma init_sizes np :
  0 < np <= 2 ^ 20 ->
  freelist_space_of np = 72 * np /\
  page_needed_of np = (136 * np + 4095) / 4096 /\
  0 < page_needed_of np /\
  to_int (page_needed_of np * PAGE_SIZE) = (136 * np + 4095) / 4096 * 4096.
Proof.
  intros Hnp.
  assert (Hfs : freelist_space_of np = 72 * np).
  { unfold freelist_space_of, NUM_CLASS, SIZEOF_PTR.
    rewrite to_size_t_small by lia. rewrite to_int_small by lia. lia. }
  assert (Hms : mutex_space_of np = 64 * np).
  { unfold mutex_space_of, CACHELINE_SIZE. apply to_int_small. lia. }
  assert (Hq : 0 < (136 * np + 4095) / 4096 <= 2 ^ 16).
  { split.
    - apply Z.div_str_pos. lia.
    - apply Z.div_le_upper_bound; lia. }
  assert (Hpn : page_needed_of np = (136 * np + 4095) / 4096).
  { unfold page_needed_of. rewrite Hfs, Hms. unfold PAGE_SIZE.
    rewrite Z.quot_div_nonneg by lia.
    replace (72 * np + 64 * np + 4096 - 1) with (136 * np + 4095) by lia.
    apply to_int_small. lia. }
  repeat split; try assumption.
  - rewrite Hpn. lia.
  - rewrite Hpn. unfold PAGE_SIZE. apply to_int_small. lia.
Qed.

(** What a call of [mm_init] does on a heap that is already initialised
    and has room: it returns 0, leaves the segment base and every byte
    below the old break as they were, grows the heap by a new zeroed
    directory-and-locks region and re-seats the per-processor lock array
    in it. Whatever the state, [mm_init] returns -1 only when the substrate
    was uninitialised and its initialisation failed. *)
Theorem mm_init_again (pf : platform) (s : state) :
  dseg_lo s <> NULL ->
  dseg_lo s <= dseg_hi s ->
  0 < ncpus pf <= 2 ^ 20 ->
  dseg_hi s + (136 * ncpus pf + 4095) / 4096 * 4096 <= dseg_max s ->
  (exists s',
     mm_init pf s = Ret 0 s' /\
     dseg_lo s' = dseg_lo s /\
     dseg_hi s' = dseg_hi s + (136 * ncpus pf + 4095) / 4096 * 4096 /\
     dseg_hi s < dseg_hi s' /\
     processor_locks_base s' = dseg_hi s + 72 * ncpus pf /\
     (forall a, a < dseg_hi s -> Mem.byte_at (heap s') a = Mem.byte_at (heap s) a) /\
     (forall a, dseg_hi s <= a < dseg_hi s' -> Mem.byte_at (heap s') a = 0)) /\
  (forall s0 r s0',
     mm_init pf s0 = Ret r s0' -> r = -1 ->
     dseg_lo s0 = NULL /\ dseg_hi s0 = NULL /\ heap_ok pf = false).
Proof.
  intros Hinit Hord Hnp Hroom.
  destruct (init_sizes (ncpus pf) Hnp) as (Hfs & Hpn & Hpos & Hbytes).
  split.
  - unfold mm_init. rewrite !run_gets.
    destruct (Z.eqb_spec (dseg_lo s) NULL) as [Heq | _]; [contradiction |].
    rewrite andb_false_l. rewrite run_ret.
    change (0 =? -1) with false. cbv iota.
    rewrite run_modify, run_gets. rewrite num_processors_set.
    rewrite Hbytes, Hfs.
    rewrite run_sbrk_ok; proj_simpl; [| lia | exact Hroom].
    set (n := (136 * ncpus pf + 4095) / 4096 * 4096) in *.
    assert (Hn : 0 < n) by (subst n; lia).
    rewrite run_bzero; [| exact Hn | apply valid_iff; cbn [dseg_lo dseg_hi set_segment]; lia].
    rewrite run_modify. eexists. split; [reflexivity |].
    rewrite processor_locks_base_set. rewrite !dseg_lo_gw, !dseg_hi_gw by typeclasses eauto.
    rewrite dseg_lo_hw, dseg_hi_hw by typeclasses eauto. cbn [dseg_lo dseg_hi set_segment].
    repeat split; try lia.
    + intros a Ha. rewrite heap_gw by typeclasses eauto.
      rewrite byte_at_wr_zero_other by lia. reflexivity.
    + intros a Ha. rewrite heap_gw by typeclasses eauto.
      apply byte_at_wr_zero_in. lia.
  - intros s0 r s0' Hrun ->. unfold mm_init in Hrun. rewrite !run_gets in Hrun.
    apply bind_inv in Hrun as (r0 & s1 & Hguard & Hrun).
    revert Hrun. destruct (Z.eqb_spec r0 (-1)) as [-> | Hok]; intros Hrun.
    + destruct ((dseg_lo s0 =? NULL) && (dseg_hi s0 =? NULL)) eqn:Hg.
      * apply andb_true_iff in Hg as [Hlo Hhi]. apply Z.eqb_eq in Hlo, Hhi.
        unfold mem_init in Hguard. destruct (heap_ok pf); [discriminate | auto].
      * discriminate.
    + exfalso.
      match type of Hrun with
      | ?c s1 = _ => assert (Hval : forall s r s', c s = Ret r s' -> r = 0)
      end.
      { do 5 (apply bind_value; intros ?).
        intros s2 r2 s2' Hret. injection Hret as <- _. reflexivity. }
      apply Hval in Hrun. discriminate.
Qed.

Lemma mm_init_again_witness :
  (exists s',
     mm_init demo_platform fresh_heap = Ret 0 s' /\
     dseg_lo s' = dseg_lo fresh_heap /\
     dseg_hi s' = dseg_hi fresh_heap + (136 * ncpus demo_platform + 4095) / 4096 * 4096 /\
     dseg_hi fresh_heap < dseg_hi s' /\
     processor_locks_base s' = dseg_hi fresh_heap + 72 * ncpus demo_platform /\
     (forall a, a < dseg_hi fresh_heap ->
                Mem.byte_at (heap s') a = Mem.byte_at (heap fresh_heap) a) /\
     (forall a, dseg_hi fresh_heap <= a < dseg_hi s' -> Mem.byte_at (heap s') a = 0)) /\
  (forall s0 r s0',
     mm_init demo_platform s0 = Ret r s0' -> r = -1 ->
     dseg_lo s0 = NULL /\ dseg_hi s0 = NULL /\ heap_ok demo_platform = false).
Proof.
  apply (mm_init_again demo_platform fresh_heap).
  - vm_compute. discriminate.
  - vm_compute. discriminate.
  - split; vm_compute; [reflexivity | discriminate].
  - vm_compute. discriminate.
Defined.

(** On the demo machine a second [mm_init] moves the break from 0x101000
    to 0x102000 and the lock array from 0x100048 to 0x101048. *)
Lemma init_not_idempotent : ~ init_idempotent demo_platform.
Proof.
  intros Hidem.
  assert (Hfirst : mm_init demo_platform initial_state = Ret 0 fresh_heap)
    by (apply value_of_run; vm_compute; reflexivity).
  specialize (Hidem fresh_heap Hfirst).
  assert (Hgrows : dseg_hi (state_after (mm_init demo_platform) fresh_heap)
                   <> dseg_hi fresh_heap)
    by (vm_compute; discriminate).
  apply Hgrows. unfold state_after at 1. rewrite Hidem. reflexivity.
Qed.

(** ** The base block of a class-2048 page *)

(** A page-ref whose only free block is the base block is passed over by the
    walk of [subpage_mm_malloc] when the request does not fit in the base
    block: the swap needs [num_free > 1]. Nothing is written. *)
Lemma find_pageref_skips_lone_base fuel c sz pr s :
  dseg_lo s <= pr -> pr + 32 <= dseg_hi s -> pr <> NULL ->
  rd_int s (pr + PR_NUM_FREE) = 1 ->
  rd_ptr s (pr + PR_FREELIST) = rd_ptr s (pr + PR_BASE) ->
  to_size_t (Z.shiftl 1 (BASE_CLASS + c) - 8) < sz ->
  find_pageref (S fuel) c sz pr s = find_pageref fuel c sz (rd_ptr s (pr + PR_NEXT)) s.
Proof.
  intros Hlo Hhi Hnn Hnf Hhead Hfit.
  cbn [find_pageref]. unfold PR_NUM_FREE, PR_FREELIST, PR_BASE, PR_NEXT in *.
  destruct (Z.eqb_spec pr NULL) as [Heq | _]; [contradiction |].
  exec. rewrite Hnf. change (1 >? 0) with true. cbv iota.
  exec. rewrite Hhead, Z.eqb_refl.
  destruct (Z.geb_spec (to_size_t (Z.shiftl 1 (BASE_CLASS + c) - 8)) sz) as [Hge | _];
    [lia |].
  change (1 >? 1) with false. cbv iota.
  exec. reflexivity.
Qed.

(** C6, amended. Once the first [allocate(2048)] on a fresh arena has taken
    the non-base block, the page-ref's only free block is the base block.
    A second [allocate(2048)] on that processor then passes over the
    page-ref without swapping anything (its freelist head and [num_free]
    are as before), takes the next fresh page-ref, binds a newly sbrk-ed
    page to it and returns that page's non-base block: the old break plus
    2048. *)
Theorem second_2048_takes_new_page
    (fuel : nat) (s : state) (cpu proc pr pr2 : Z) :
  addressable s ->
  num_processors s <> 0 ->
  proc = Z.rem cpu (num_processors s) ->
  valid s (pageref_slot s proc 8) 8 = true ->
  lone_base_block s (pageref_slot s proc 8) pr ->
  fresh_pageref_ready s (pageref_slot s proc 8) pr pr2 ->
  dseg_hi s + PAGE_SIZE <= dseg_max s -> dseg_max s <= 2 ^ 64 ->
  exists s',
    subpage_mm_malloc (S (S fuel)) cpu 2048 s = Ret (dseg_hi s + 2048) s' /\
    dseg_hi s' = dseg_hi s + PAGE_SIZE /\
    rd_ptr s' (pageref_slot s proc 8) = pr2 /\
    rd_ptr s' (pr2 + PR_NEXT) = pr /\
    rd_ptr s' (pr2 + PR_BASE) = dseg_hi s /\
    rd_ptr s' (pr + PR_FREELIST) = rd_ptr s (pr + PR_FREELIST) /\
    rd_int s' (pr + PR_NUM_FREE) = 1.
Proof.
  intros [Ha1 Ha2] Hnp Hproc Hslot (Hhead & Hnn & Hp1 & Hp2 & Hsp & Hnext & Hnf & Hfl)
         (Hre & Hfresh & Hnn2 & Hq1 & Hq2 & Hsq & Hpq) Hroom Hmax.
  apply valid_iff in Hslot. unfold NULL in *.
  unfold subpage_mm_malloc, get_processor_index.
  exec. destruct (Z.eqb_spec (num_processors s) 0) as [Heq | _]; [contradiction |].
  exec. rewrite <- Hproc.
  change (get_block_class_index 2048) with 8.
  unfold pageref_head. exec. rewrite Hhead.
  assert (Hwalk : find_pageref (S (S fuel)) 8 2048 pr s = Ret NULL s).
  { rewrite find_pageref_skips_lone_base; try assumption;
      [| vm_compute; reflexivity ].
    rewrite Hnext. reflexivity. }
  rewrite (run_known _ _ _ _ _ Hwalk). rewrite Z.eqb_refl.
  unfold allocate_pageref, acquire_pageref, NULL.
  exec. rewrite Hre. rewrite Z.eqb_refl. cbn [negb].
  exec. rewrite Hfresh.
  destruct (Z.eqb_spec pr2 0) as [Heq | _]; [contradiction |].
  unfold PR_NEXT, PR_BASE, PR_FREELIST, PR_NUM_FREE, PAGE_SIZE in *.
  exec. cbn [fst snd]. unfold pageref_head, set_pageref_head. exec.
  rewrite Hhead.
  replace (Z.to_nat 4096 + 1)%nat with (S (S (S (Z.to_nat 4094)))) by (vm_compute; reflexivity).
  generalize (Z.to_nat 4094) as more. intros more.
  change (Z.shiftl 1 (8 + BASE_CLASS)) with 2048.
  cbn [build_loop]. unfold PR_FREELIST, PR_NUM_FREE, PAGE_SIZE, SIZEOF_INT.
  change (0 <? 4096) with true. change (0 + 2048 <? 4096) with true.
  change (0 + 2048 + 2048 <? 4096) with false. cbv iota.
  exec. unfold take_block, PR_FREELIST, PR_NUM_FREE, PR_BASE, SIZEOF_INT. exec.
  rewrite !Z.add_0_l, !Z.add_0_r.
  destruct (Z.eqb_spec (dseg_hi s + 2048) (dseg_hi s)) as [Heq | _]; [lia |].
  eexists. split; [reflexivity |].
  proj_simpl. repeat split; rd_simpl; try reflexivity; try lia.
Qed.


Lemma second_2048_takes_new_page_witness :
  exists s',
    subpage_mm_malloc walk_fuel 0 2048 one_block_taken
      = Ret (dseg_hi one_block_taken + 2048) s' /\
    dseg_hi s' = dseg_hi one_block_taken + PAGE_SIZE /\
    rd_ptr s' (pageref_slot one_block_taken 0 8) = 1056704 /\
    rd_ptr s' (1056704 + PR_NEXT) = 1052672 /\
    rd_ptr s' (1056704 + PR_BASE) = dseg_hi one_block_taken /\
    rd_ptr s' (1052672 + PR_FREELIST) = rd_ptr one_block_taken (1052672 + PR_FREELIST) /\
    rd_int s' (1052672 + PR_NUM_FREE) = 1.
Proof.
  apply (second_2048_takes_new_page 14 one_block_taken 0 0 1052672 1056704).
  - split; vm_compute; [reflexivity | discriminate].
  - vm_compute. discriminate.
  - vm_compute. reflexivity.
  - vm_compute. reflexivity.
  - unfold lone_base_block.
    repeat match goal with |- _ /\ _ => split end;
      try (vm_compute; (reflexivity || discriminate)).
    left. vm_compute. discriminate.
  - unfold fresh_pageref_ready.
    repeat match goal with |- _ /\ _ => split end;
      try (vm_compute; (reflexivity || discriminate));
      left; vm_compute; discriminate.
  - vm_compute. discriminate.
  - vm_compute. discriminate.
Defined.

(** C6 as stated fails: on the demo machine the two pointers are 0x102800
    and 0x103800, in different pages. *)
Lemma second_2048_not_from_same_page : ~ second_2048_from_same_page demo_platform 0.
Proof.
  intros (p1 & p2 & s & Hrun & _ & Hpage).
  assert (Hval : value_of (two_allocations_of_2048 demo_platform 0) initial_state
                 = Some (1058816, 1062912)) by (vm_compute; reflexivity).
  apply value_of_run in Hval. rewrite Hval in Hrun.
  apply Ret_inj in Hrun as [Hpair <-].
  apply pair_equal_spec in Hpair as [<- <-].
  assert (Hpages :
    page_head_of (dseg_lo (state_after (two_allocations_of_2048 demo_platform 0)
                                       initial_state)) 1062912
    <> page_head_of (dseg_lo (state_after (two_allocations_of_2048 demo_platform 0)
                                          initial_state)) 1058816)
    by (vm_compute; discriminate).
  exact (Hpages Hpage).
Qed.

(** ** Size classes *)

Lemma class_loop_smallest (n : nat) (i sz : Z) :
  (0 < n)%nat -> 0 <= i ->
  sz <= 2 ^ (i + Z.of_nat n + 2) ->
  (forall j, 0 <= j < i -> 2 ^ (j + 3) < sz) ->
  i <= class_loop n i sz < i + Z.of_nat n /\
  sz <= 2 ^ (class_loop n i sz + 3) /\
  (forall j, 0 <= j < class_loop n i sz -> 2 ^ (j + 3) < sz).
Proof.
  revert i. induction n as [| n IH]; intros i Hn Hi Hmax Hbelow; [lia |].
  cbn [class_loop]. unfold BASE_CLASS. rewrite Z.shiftl_1_l.
  destruct (Z.geb_spec (2 ^ (i + 3)) sz) as [Hfit | Hsmall].
  - repeat split; try lia. exact Hbelow.
  - destruct n as [| n].
    + replace (i + Z.of_nat 1 + 2) with (i + 3) in Hmax by lia. lia.
    + destruct (IH (i + 1)) as (Hr & Hle & Hmin); try lia.
      * replace (i + 1 + Z.of_nat (S n) + 2) with (i + Z.of_nat (S (S n)) + 2) by lia.
        exact Hmax.
      * intros j Hj. destruct (Z.eq_dec j i) as [-> | Hne]; [lia |].
        apply Hbelow. lia.
      * repeat split; try lia. exact Hmin.
Qed.

(** C10. For every request size [sz] with [1 <= sz <= 2048],
    [get_block_class_index sz] is an index in [0, 8], it is the smallest
    [i] with [2^(i+3) >= sz], and the fallback value -1 is not returned. *)
Theorem get_block_class_index_smallest (sz : Z) :
  1 <= sz <= 2048 ->
  0 <= get_block_class_index sz <= 8 /\
  sz <= 2 ^ (get_block_class_index sz + 3) /\
  (forall j, 0 <= j < get_block_class_index sz -> 2 ^ (j + 3) < sz) /\
  get_block_class_index sz <> -1.
Proof.
  intros Hsz. unfold get_block_class_index.
  destruct (class_loop_smallest (Z.to_nat NUM_CLASS) 0 sz) as (Hr & Hle & Hmin).
  - unfold NUM_CLASS. lia.
  - lia.
  - unfold NUM_CLASS. change (0 + Z.of_nat (Z.to_nat 9) + 2) with 11. lia.
  - intros j Hj. lia.
  - change (Z.of_nat (Z.to_nat NUM_CLASS)) with 9 in Hr.
    repeat split; try lia. exact Hmin.
Qed.

Lemma get_block_class_index_smallest_witness :
  1 <= 2047 <= 2048 /\
  (0 <= get_block_class_index 2047 <= 8 /\
   2047 <= 2 ^ (get_block_class_index 2047 + 3) /\
   (forall j, 0 <= j < get_block_class_index 2047 -> 2 ^ (j + 3) < 2047) /\
   get_block_class_index 2047 <> -1).
Proof. split; [lia | apply (get_block_class_index_smallest 2047); lia]. Defined.

(** ** Where the code departs from the specification *)

(** Closed facts about a scenario are settled by evaluation. *)
Ltac evaluate :=
  repeat match goal with |- _ /\ _ => split end;
  vm_compute; reflexivity.

(** C1. The split path of [big_mm_malloc] writes the page count only. In
    [large_then_split] the first pointer comes from the fresh-sbrk path and
    has the sentinel -1 two words before it; the second comes from the
    split path (the break does not move), has its page count in the word
    before it, and the word before that still holds the 0 the caller had
    stored in the payload of the first allocation. *)
Theorem split_path_writes_no_sentinel :
  value_of large_then_split initial_state = Some (1052680, 1060872) /\
  dseg_hi (state_after large_then_split initial_state) = 1048576 + 4 * PAGE_SIZE /\
  rd_int (state_after large_then_split initial_state) (1052680 - 8) = -1 /\
  rd_int (state_after large_then_split initial_state) (1060872 - 4) = 1 /\
  rd_int (state_after large_then_split initial_state) (1060872 - 8) = 0.
Proof. evaluate. Qed.

(** C2. Freeing the pointer obtained from the split path: the first word of
    its page is read as processor id 0, not as the sentinel, so
    [subpage_mm_free] does not redirect; it walks the (0, 1) list, finds no
    page-ref and dereferences NULL. *)
Theorem free_of_split_pointer_not_redirected :
  value_of large_then_split initial_state = Some (1052680, 1060872) /\
  rd_int (state_after large_then_split initial_state)
         (page_head_of 1048576 1060872) = 0 /\
  subpage_mm_free walk_fuel 1060872 (state_after large_then_split initial_state) = Fault /\
  mm_free walk_fuel 1060872 (state_after large_then_split initial_state) = Fault.
Proof. evaluate. Qed.

(** C3. The processor index is stored through a [char] pointer. A thread on
    processor 256 of a 512-processor machine gets a block of a page whose
    first word reads 0, not 256; freeing the block then searches arena 0,
    finds no page-ref and dereferences NULL. *)
Theorem processor_index_stored_as_one_byte :
  value_of (alloc_on_cpu_256 ;; get_processor_index 256) initial_state = Some 256 /\
  value_of alloc_on_cpu_256 initial_state = Some 1126392 /\
  page_head_of 1048576 1126392 = 1122304 /\
  rd_int (state_after alloc_on_cpu_256 initial_state) 1122304 = 0 /\
  mm_free walk_fuel 1126392 (state_after alloc_on_cpu_256 initial_state) = Fault.
Proof. evaluate. Qed.

Lemma self_loop_is_no_chain s h :
  h <> NULL -> rd_ptr s h = h -> forall n, ~ chain s h n.
Proof.
  intros Hnn Hloop n. induction n as [| n IH]; intros Hchain.
  - inversion Hchain. congruence.
  - inversion Hchain as [| h' n' _ _ Hrest]; subst.
    rewrite Hloop in Hrest. exact (IH Hrest).
Qed.

(** C4. In [double_handout] the 511th allocation of 8 bytes and the
    allocation of 0 bytes (served from the base block) return the same
    address 0x102008. After both are freed the page-ref counts two free
    blocks, but its freelist is the single node 0x102008 linked to itself:
    no NULL-terminated chain of any length starts at the head. *)
Theorem freelist_can_become_cyclic :
  value_of double_handout initial_state = Some (1056776, 1056776) /\
  rd_int (state_after double_handout initial_state) (1052672 + PR_NUM_FREE) = 2 /\
  rd_ptr (state_after double_handout initial_state) (1052672 + PR_FREELIST) = 1056776 /\
  rd_ptr (state_after double_handout initial_state) 1056776 = 1056776 /\
  forall n, ~ chain (state_after double_handout initial_state)
                    (rd_ptr (state_after double_handout initial_state)
                            (1052672 + PR_FREELIST)) n.
Proof.
  assert (Hhead : rd_ptr (state_after double_handout initial_state)
                         (1052672 + PR_FREELIST) = 1056776)
    by (vm_compute; reflexivity).
  assert (Hloop : rd_ptr (state_after double_handout initial_state) 1056776 = 1056776)
    by (vm_compute; reflexivity).
  split; [vm_compute; reflexivity |].
  split; [vm_compute; reflexivity |].
  split; [exact Hhead |]. split; [exact Hloop |].
  rewrite Hhead. apply self_loop_is_no_chain; [discriminate | exact Hloop].
Qed.

(** The terminator is lost even earlier: the two metadata bytes overwrite
    the [next] field of the base node, so after the very first
    [mm_malloc(2048)] the only free node links to 0x800000000. *)
Lemma base_node_terminator_overwritten :
  rd_int one_block_taken (1052672 + PR_NUM_FREE) = 1 /\
  rd_ptr one_block_taken (1052672 + PR_FREELIST) = 1056768 /\
  rd_ptr one_block_taken 1056768 = 8 * 2 ^ 32.
Proof. evaluate. Qed.

(** C5. On the subpage path a failing [mem_sbrk] is not checked: with no
    room for the metadata page, or with room for it but not for the data
    page, [mm_malloc(8)] writes through a NULL-based pointer instead of
    returning NULL. The large path does return NULL. *)
Theorem subpage_malloc_faults_when_heap_is_full :
  (mm_init one_page_platform ;; mm_malloc walk_fuel 0 8) initial_state = Fault /\
  (mm_init two_page_platform ;; mm_malloc walk_fuel 0 8) initial_state = Fault /\
  value_of (mm_init one_page_platform ;; mm_malloc walk_fuel 0 5000) initial_state
    = Some NULL.
Proof. evaluate. Qed.

(** C8. The guard of [mm_init] covers [mem_init] only. Called again on a
    heap that serves an allocation, [mm_init] returns 0 but takes one more
    page from the substrate (the break moves from 0x103000 to 0x104000) and
    re-seats the lock array in it: the lock of processor 0 moves from
    0x100048 to 0x103048 while its arena stays in use. The directory is still
    read at [dseg_lo], where the list of arena (0, 0) starts with the
    page-ref 0x101000; the directory words of the new region are zero and
    never read. *)
Theorem second_init_moves_lock_array :
  value_of (mm_init demo_platform) small_block_taken = Some 0 /\
  dseg_lo initialised_twice = dseg_lo small_block_taken /\
  dseg_hi small_block_taken = 1060864 /\
  dseg_hi initialised_twice = 1060864 + PAGE_SIZE /\
  value_of (processor_mutex 0) small_block_taken = Some 1048648 /\
  value_of (processor_mutex 0) initialised_twice = Some 1060936 /\
  value_of (pageref_head 0 0) small_block_taken = Some 1052672 /\
  value_of (pageref_head 0 0) initialised_twice = Some 1052672 /\
  rd_ptr initialised_twice (pageref_slot initialised_twice 0 0) = 1052672 /\
  rd_ptr initialised_twice 1060864 = NULL.
Proof. evaluate. Qed.

(** C9. The test that the base block holds 8 bytes less is made only when
    the head of the freelist is the page base. In [base_block_reused] the
    base block of the class-1024 page 0x102000 is handed out as 0x102008 for
    1016 bytes, freed, and handed out again as 0x102008 for 1024 bytes: its
    last 8 bytes are the link of the free block 0x102400. Once the caller
    has written them, the next request returns 0x102400 and the one after
    returns 0x102004, a pointer to the second metadata word of the page. *)
Theorem pointer_into_metadata_after_base_block_reuse :
  value_of base_block_reused initial_state
    = Some (1056776, 1056776, 1057792, 1056772) /\
  rd_ptr (state_after base_block_reused initial_state) (1052672 + PR_BASE) = 1056768 /\
  page_head_of 1048576 1056772 = 1056768 /\
  1056772 = 1056768 + SIZEOF_INT /\
  1057792 = 1056776 + 1016.
Proof. evaluate. Qed.

(** * Beyond the specification's claims *)

(** Side conditions of a witness: a run that ends in a state is checked by
    conversion, a value by evaluation. *)
Ltac witness_facts :=
  repeat match goal with |- _ /\ _ => split end;
  first [ lazymatch goal with |- _ = Ret _ _ => reflexivity end
        | vm_compute; (reflexivity || discriminate) ].

(** * Further properties of the large-object allocator *)

Lemma span_pages_spec sz :
  2048 < sz <= 2 ^ 30 ->
  to_int (to_size_t (to_size_t (sz + 2 * SIZEOF_INT) + PAGE_SIZE - 1) / PAGE_SIZE)
    = span_pages sz /\
  0 < span_pages sz <= 2 ^ 18 + 2 /\
  sz + 8 <= span_pages sz * 4096 /\
  to_int (span_pages sz * PAGE_SIZE) = span_pages sz * 4096.
Proof.
  intros Hsz. unfold span_pages, SIZEOF_INT, PAGE_SIZE.
  rewrite (to_size_t_small (sz + 2 * 4)) by lia.
  rewrite to_size_t_small by lia.
  assert (Hq : 0 < (sz + 2 * 4 + 4096 - 1) / 4096 <= 2 ^ 18 + 2).
  { split.
    - apply Z.div_str_pos. lia.
    - apply Z.div_le_upper_bound; lia. }
  pose proof (Z.mul_succ_div_gt (sz + 2 * 4 + 4096 - 1) 4096 ltac:(lia)) as Hgt.
  repeat split; try lia.
  - apply to_int_small. lia.
  - apply to_int_small. lia.
Qed.

Lemma big_walk_empty fuel num_pages prior s :
  (0 < fuel)%nat -> big_walk fuel num_pages NULL prior s = Ret NULL s.
Proof. intros Hf. destruct fuel; [lia | reflexivity]. Qed.

(** X1. A request of more than 2048 bytes on a heap whose list of free
    spans is empty and whose region has room is served from the substrate:
    with [k = span_pages sz], the break advances by [k] pages, the first
    word of the new span is the sentinel -1, the second is [k], the pointer
    returned is the old break plus 8, the payload ends inside the span, the
    list of free spans stays empty and no byte below the old break changes. *)
Theorem mm_malloc_large_fresh (fuel : nat) (cpu sz : Z) (s : state) :
  (0 < fuel)%nat ->
  addressable s -> dseg_lo s <= dseg_hi s -> dseg_max s <= 2 ^ 64 ->
  big_list s = NULL ->
  2048 < sz <= 2 ^ 30 ->
  dseg_hi s + span_pages sz * 4096 <= dseg_max s ->
  exists s',
    mm_malloc fuel cpu sz s = Ret (dseg_hi s + 8) s' /\
    rd_int s' (dseg_hi s) = -1 /\
    rd_int s' (dseg_hi s + 4) = span_pages sz /\
    dseg_hi s' = dseg_hi s + span_pages sz * 4096 /\
    dseg_hi s + 8 + sz <= dseg_hi s' /\
    big_list s' = NULL /\
    (forall a, a < dseg_hi s -> Mem.byte_at (heap s') a = Mem.byte_at (heap s) a).
Proof.
  intros Hfuel [Ha1 Ha2] Hord Hmax Hbig Hsz Hroom.
  destruct (span_pages_spec sz Hsz) as (Hpages & Hrange & Hfits & Hbytes).
  unfold mm_malloc.
  destruct (Z.leb_spec sz (PAGE_SIZE / 2)) as [Hsmall | _];
    [change (PAGE_SIZE / 2) with 2048 in Hsmall; lia |].
  unfold big_mm_malloc. rewrite Hpages, Hbytes.
  rewrite run_gets, Hbig.
  rewrite (run_known _ _ _ _ _ (big_walk_empty fuel _ NULL s Hfuel)).
  rewrite Z.eqb_refl.
  rewrite run_sbrk_ok by lia.
  destruct (Z.eqb_spec (dseg_hi s) NULL) as [Heq | _]; [unfold NULL in Heq; lia |].
  cbn [negb]. unfold SIZEOF_INT.
  exec. eexists. split; [rewrite <- Z.add_assoc; reflexivity |].
  proj_simpl.
  repeat match goal with |- _ /\ _ => split end; rd_simpl;
    try lia; try assumption; try (apply to_int_small; lia); try reflexivity.
  intros a Ha. rewrite !byte_at_wr_int_other by lia. reflexivity.
Qed.

Lemma mm_malloc_large_fresh_witness :
  exists s',
    mm_malloc walk_fuel 0 10000 fresh_heap = Ret (dseg_hi fresh_heap + 8) s' /\
    rd_int s' (dseg_hi fresh_heap) = -1 /\
    rd_int s' (dseg_hi fresh_heap + 4) = span_pages 10000 /\
    dseg_hi s' = dseg_hi fresh_heap + span_pages 10000 * 4096 /\
    dseg_hi fresh_heap + 8 + 10000 <= dseg_hi s' /\
    big_list s' = NULL /\
    (forall a, a < dseg_hi fresh_heap ->
               Mem.byte_at (heap s') a = Mem.byte_at (heap fresh_heap) a).
Proof.
  apply (mm_malloc_large_fresh walk_fuel 0 10000 fresh_heap).
  - unfold walk_fuel. lia.
  - split; vm_compute; [reflexivity | discriminate].
  - vm_compute. discriminate.
  - vm_compute. discriminate.
  - vm_compute. reflexivity.
  - lia.
  - vm_compute. discriminate.
Defined.



(** X3. When the first free span holds more pages than a large request
    needs, the request is carved off its tail: the span keeps [n - k]
    pages, the word [(n - k) * 4096] bytes after the span's count receives
    [k], the pointer returned is 4 bytes after that word and the block ends
    inside the span. The list head and the break stay, and these two words
    are the only bytes written. *)
Theorem mm_malloc_large_split (fuel : nat) (cpu sz : Z) (s : state) (curr n : Z) :
  (0 < fuel)%nat ->
  big_list s = curr -> 0 < curr ->
  valid s curr 4 = true ->
  rd_int s curr = n ->
  2048 < sz <= 2 ^ 30 ->
  span_pages sz < n <= 2 ^ 18 ->
  valid s (curr + (n - span_pages sz) * 4096) 4 = true ->
  exists s',
    mm_malloc fuel cpu sz s = Ret (curr + (n - span_pages sz) * 4096 + 4) s' /\
    rd_int s' curr = n - span_pages sz /\
    rd_int s' (curr + (n - span_pages sz) * 4096) = span_pages sz /\
    curr + (n - span_pages sz) * 4096 + 4 + sz <= curr - 4 + n * 4096 /\
    big_list s' = curr /\
    dseg_hi s' = dseg_hi s /\
    (forall a,
       ~ (curr <= a < curr + 4) ->
       ~ (curr + (n - span_pages sz) * 4096 <= a < curr + (n - span_pages sz) * 4096 + 4) ->
       Mem.byte_at (heap s') a = Mem.byte_at (heap s) a).
Proof.
  intros Hfuel Hbig Hnn Hv Hn Hsz Hmore Hvt.
  destruct (span_pages_spec sz Hsz) as (Hpages & Hrange & Hfits & Hbytes).
  apply valid_iff in Hv. apply valid_iff in Hvt.
  unfold mm_malloc.
  destruct (Z.leb_spec sz (PAGE_SIZE / 2)) as [Hsmall | _];
    [change (PAGE_SIZE / 2) with 2048 in Hsmall; lia |].
  unfold big_mm_malloc. rewrite Hpages.
  rewrite run_gets, Hbig.
  destruct fuel as [| fuel]; [lia |]. cbn [big_walk].
  destruct (Z.eqb_spec curr NULL) as [Heq | _]; [unfold NULL in Heq; lia |].
  exec. rewrite Hn.
  destruct (Z.gtb_spec n (span_pages sz)) as [_ | Hle]; [| lia].
  rewrite (to_int_small (n - span_pages sz)) by lia.
  exec. rewrite (to_int_small (n - span_pages sz)) by lia.
  unfold PAGE_SIZE, SIZEOF_INT.
  rewrite (to_int_small ((n - span_pages sz) * 4096)) by lia.
  exec.
  destruct (Z.eqb_spec (curr + (n - span_pages sz) * 4096 + 4) NULL) as [Heq | _];
    [unfold NULL in Heq; lia |].
  eexists. split; [reflexivity |].
  proj_simpl.
  repeat match goal with |- _ /\ _ => split end; rd_simpl;
    try lia; try assumption; try (apply to_int_small; lia); try reflexivity.
  intros a Ha1 Ha2. rewrite !byte_at_wr_int_other by lia. reflexivity.
Qed.

Lemma mm_malloc_large_split_witness :
  exists s',
    mm_malloc walk_fuel 0 4000 one_span_freed
      = Ret (1052676 + (3 - span_pages 4000) * 4096 + 4) s' /\
    rd_int s' 1052676 = 3 - span_pages 4000 /\
    rd_int s' (1052676 + (3 - span_pages 4000) * 4096) = span_pages 4000 /\
    1052676 + (3 - span_pages 4000) * 4096 + 4 + 4000 <= 1052676 - 4 + 3 * 4096 /\
    big_list s' = 1052676 /\
    dseg_hi s' = dseg_hi one_span_freed /\
    (forall a,
       ~ (1052676 <= a < 1052676 + 4) ->
       ~ (1052676 + (3 - span_pages 4000) * 4096 <= a
          < 1052676 + (3 - span_pages 4000) * 4096 + 4) ->
       Mem.byte_at (heap s') a = Mem.byte_at (heap one_span_freed) a).
Proof.
  apply (mm_malloc_large_split walk_fuel 0 4000 one_span_freed 1052676 3).
  - unfold walk_fuel. lia.
  - vm_compute. reflexivity.
  - lia.
  - vm_compute. reflexivity.
  - vm_compute. reflexivity.
  - lia.
  - split; vm_compute; [reflexivity | discriminate].
  - vm_compute. reflexivity.
Defined.

(** X4. Round trip of a large block: freeing a block whose page starts
    with the sentinel -1 and asking again for the size it was allocated
    with returns the same pointer. The list of free spans and the break are
    as before, and the only bytes that may differ are [p + 4, p + 12), where
    the list link was stored in the payload. *)
Theorem large_free_then_malloc_same_size
    (fuel : nat) (cpu sz p : Z) (s : state) :
  (0 < fuel)%nat ->
  addressable s ->
  valid s (page_head_of (dseg_lo s) p) 4 = true ->
  rd_int s (page_head_of (dseg_lo s) p) = -1 ->
  valid s (p - 4) 16 = true ->
  2048 < sz <= 2 ^ 30 ->
  rd_int s (p - 4) = span_pages sz ->
  0 <= big_list s < 2 ^ 64 ->
  exists s',
    (mm_free fuel p ;; mm_malloc fuel cpu sz) s = Ret p s' /\
    big_list s' = big_list s /\
    dseg_hi s' = dseg_hi s /\
    (forall a, ~ (p + 4 <= a < p + 12) ->
               Mem.byte_at (heap s') a = Mem.byte_at (heap s) a).
Proof.
  intros Hfuel [Ha1 Ha2] Hvh Hsent Hv Hsz Hcount Hbig.
  destruct (span_pages_spec sz Hsz) as (Hpages & Hrange & Hfits & Hbytes).
  apply valid_iff in Hvh. apply valid_iff in Hv.
  unfold mm_free.
  destruct (Z.eqb_spec p NULL) as [Heq | _]; [unfold NULL in Heq; lia |].
  unfold subpage_mm_free, get_page_head.
  exec. rewrite Hsent. change (-1 =? -1) with true. cbv iota.
  exec. change (0 =? 0) with true. cbv iota.
  unfold big_mm_free, SIZEOF_INT, BIG_NEXT. exec.
  unfold mm_malloc.
  destruct (Z.leb_spec sz (PAGE_SIZE / 2)) as [Hsmall | _];
    [change (PAGE_SIZE / 2) with 2048 in Hsmall; lia |].
  unfold big_mm_malloc. rewrite Hpages.
  exec.
  destruct fuel as [| fuel]; [lia |]. cbn [big_walk].
  destruct (Z.eqb_spec (p - 4) NULL) as [Heq | _]; [unfold NULL in Heq; lia |].
  unfold SIZEOF_INT, BIG_NEXT.
  exec. rewrite Hcount.
  destruct (Z.gtb_spec (span_pages sz) (span_pages sz)) as [Hgt | _]; [lia |].
  rewrite Z.eqb_refl. exec. rewrite Z.eqb_refl. cbn [negb].
  exec.
  replace (p - 4 + 4) with p by lia.
  destruct (Z.eqb_spec p NULL) as [Heq | _]; [unfold NULL in Heq; lia |].
  eexists. split; [reflexivity |].
  proj_simpl.
  repeat match goal with |- _ /\ _ => split end; rd_simpl;
    try lia; try assumption; try reflexivity.
  intros a Ha. rewrite byte_at_wr_ptr_other by lia. reflexivity.
Qed.

Lemma large_free_then_malloc_same_size_witness :
  exists s',
    (mm_free walk_fuel 1052680 ;; mm_malloc walk_fuel 0 10000) one_span_taken
      = Ret 1052680 s' /\
    big_list s' = big_list one_span_taken /\
    dseg_hi s' = dseg_hi one_span_taken /\
    (forall a, ~ (1052680 + 4 <= a < 1052680 + 12) ->
               Mem.byte_at (heap s') a = Mem.byte_at (heap one_span_taken) a).
Proof.
  apply (large_free_then_malloc_same_size walk_fuel 0 10000 1052680 one_span_taken).
  - unfold walk_fuel. lia.
  - split; vm_compute; [reflexivity | discriminate].
  - vm_compute. reflexivity.
  - vm_compute. reflexivity.
  - vm_compute. reflexivity.
  - lia.
  - vm_compute. reflexivity.
  - split; vm_compute; [discriminate | reflexivity].
Defined.

(** X5. First fit on the list of free spans: a first span with fewer
    pages than needed is passed over, and a second span with exactly the
    pages needed is unlinked by storing its successor in the [next] field
    of the first. The pointer returned is 4 bytes after the second span's
    count; the list head, the first span's count and the break stay, and
    the [next] field of the first span is the only word written. *)
Theorem mm_malloc_large_skips_small_span
    (fuel : nat) (cpu sz : Z) (s : state) (a b n : Z) :
  addressable s ->
  2048 < sz <= 2 ^ 30 ->
  big_list s = a -> 0 < a -> valid s a 16 = true ->
  rd_int s a = n -> n < span_pages sz ->
  rd_ptr s (a + BIG_NEXT) = b -> 0 < b -> valid s b 16 = true ->
  rd_int s b = span_pages sz ->
  (a + 16 <= b \/ b + 16 <= a) ->
  exists s',
    mm_malloc (S (S fuel)) cpu sz s = Ret (b + SIZEOF_INT) s' /\
    big_list s' = a /\
    rd_ptr s' (a + BIG_NEXT) = rd_ptr s (b + BIG_NEXT) /\
    rd_int s' a = n /\
    dseg_hi s' = dseg_hi s /\
    (forall x, ~ (a + 8 <= x < a + 16) -> Mem.byte_at (heap s') x = Mem.byte_at (heap s) x).
Proof.
  intros [Ha1 Ha2] Hsz Hbig Hapos Hva Hn Hsmall Hnext Hbpos Hvb Hnb Hsep.
  destruct (span_pages_spec sz Hsz) as (Hpages & Hrange & Hfits & Hbytes).
  apply valid_iff in Hva, Hvb.
  pose proof (rd_ptr_range s (b + 8)) as Hr.
  unfold mm_malloc.
  destruct (Z.leb_spec sz (PAGE_SIZE / 2)) as [Hle | _];
    [change (PAGE_SIZE / 2) with 2048 in Hle; lia |].
  unfold big_mm_malloc. rewrite Hpages.
  rewrite run_gets, Hbig. unfold BIG_NEXT, SIZEOF_INT, NULL in *.
  cbn [big_walk]. unfold BIG_NEXT, SIZEOF_INT, NULL.
  destruct (Z.eqb_spec a 0) as [Heq | _]; [lia |].
  exec. rewrite Hn.
  destruct (Z.gtb_spec n (span_pages sz)) as [Hgt | _]; [lia |].
  destruct (Z.eqb_spec n (span_pages sz)) as [Heq | _]; [lia |].
  exec. rewrite Hnext.
  destruct (Z.eqb_spec b 0) as [Heq | _]; [lia |].
  exec. rewrite Hnb.
  destruct (Z.gtb_spec (span_pages sz) (span_pages sz)) as [Hgt | _]; [lia |].
  rewrite Z.eqb_refl. exec.
  destruct (Z.eqb_spec a 0) as [Heq | _]; [lia |]. cbn [negb].
  exec.
  destruct (Z.eqb_spec (b + 4) 0) as [Heq | _]; [lia |].
  eexists. split; [reflexivity |].
  proj_simpl. rd_simpl.
  repeat match goal with |- _ /\ _ => split end; try reflexivity; try assumption.
  intros x Hx. apply byte_at_wr_ptr_other. lia.
Qed.

Lemma mm_malloc_large_skips_small_span_witness :
  exists s',
    mm_malloc walk_fuel 0 10000 two_spans_freed = Ret (1052676 + SIZEOF_INT) s' /\
    big_list s' = 1064964 /\
    rd_ptr s' (1064964 + BIG_NEXT) = rd_ptr two_spans_freed (1052676 + BIG_NEXT) /\
    rd_int s' 1064964 = 2 /\
    dseg_hi s' = dseg_hi two_spans_freed /\
    (forall x, ~ (1064964 + 8 <= x < 1064964 + 16) ->
               Mem.byte_at (heap s') x = Mem.byte_at (heap two_spans_freed) x).
Proof.
  apply (mm_malloc_large_skips_small_span 14 0 10000 two_spans_freed 1064964 1052676 2).
  - split; vm_compute; [reflexivity | discriminate].
  - lia.
  - vm_compute. reflexivity.
  - lia.
  - vm_compute. reflexivity.
  - vm_compute. reflexivity.
  - vm_compute. reflexivity.
  - vm_compute. reflexivity.
  - lia.
  - vm_compute. reflexivity.
  - vm_compute. reflexivity.
  - right. lia.
Defined.

(** * Further properties of the subpage allocator *)


(** X6. [mm_free] of a pointer whose page does not start with -1 and
    whose (processor, class) list, as named by the first two words of that
    page, holds no page-ref bound to the page: the walk of
    [subpage_mm_free] ends with [page_ref == NULL], the next statement reads
    [page_ref->freelist], and the call faults. *)
Theorem free_without_pageref_faults
    (fuel : nat) (s : state) (ptr page_head proc c prior : Z) :
  8 < dseg_lo s ->
  ptr <> NULL ->
  free_finds fuel s ptr page_head proc c prior NULL ->
  valid s page_head 8 = true ->
  subpage_mm_free fuel ptr s = Fault /\ mm_free fuel ptr s = Fault.
Proof.
  intros Hlo Hnn Hfinds Hv.
  assert (Hsub : subpage_mm_free fuel ptr s = Fault).
  { rewrite (subpage_mm_free_run fuel s ptr page_head proc c prior NULL Hfinds Hv).
    unfold release_block, PR_FREELIST, NULL.
    unfold bind at 1. unfold bind at 1. unfold load_ptr.
    destruct (valid s (0 + 8) 8) eqn:Hvalid; [| reflexivity].
    apply valid_iff in Hvalid. lia. }
  split; [exact Hsub |].
  unfold mm_free.
  destruct (Z.eqb_spec ptr NULL) as [Heq | _]; [contradiction |].
  unfold bind. rewrite Hsub. reflexivity.
Qed.

Lemma free_without_pageref_faults_witness :
  subpage_mm_free walk_fuel 1060872 (state_after large_then_split initial_state) = Fault /\
  mm_free walk_fuel 1060872 (state_after large_then_split initial_state) = Fault.
Proof.
  apply (free_without_pageref_faults
           walk_fuel (state_after large_then_split initial_state)
           1060872 1060864 0 1 NULL).
  - vm_compute. reflexivity.
  - discriminate.
  - unfold free_finds. witness_facts.
  - vm_compute. reflexivity.
Defined.

(** X7. [mm_free] of a pointer whose page starts with the sentinel -1
    pushes the span on the list of free spans: the new head is [p - 4], the
    old head is stored at [p + 4], the page count at [p - 4] is kept, the
    break stays, and bytes [p + 4, p + 12) are the only ones written. *)
Theorem mm_free_large_pushes (fuel : nat) (p : Z) (s : state) :
  p <> NULL ->
  valid s (page_head_of (dseg_lo s) p) 4 = true ->
  rd_int s (page_head_of (dseg_lo s) p) = -1 ->
  valid s (p - 4) 16 = true ->
  0 <= big_list s < 2 ^ 64 ->
  exists s',
    mm_free fuel p s = Ret tt s' /\
    big_list s' = p - 4 /\
    rd_ptr s' (p + 4) = big_list s /\
    rd_int s' (p - 4) = rd_int s (p - 4) /\
    dseg_hi s' = dseg_hi s /\
    (forall a, ~ (p + 4 <= a < p + 12) ->
               Mem.byte_at (heap s') a = Mem.byte_at (heap s) a).
Proof.
  intros Hnn Hvh Hsent Hv Hbig.
  apply valid_iff in Hvh. apply valid_iff in Hv.
  unfold mm_free.
  destruct (Z.eqb_spec p NULL) as [Heq | _]; [contradiction |].
  unfold subpage_mm_free, get_page_head.
  exec. rewrite Hsent. change (-1 =? -1) with true. cbv iota.
  exec. change (0 =? 0) with true. cbv iota.
  unfold big_mm_free, SIZEOF_INT, BIG_NEXT. exec.
  unfold modify. eexists. split; [reflexivity |].
  proj_simpl. replace (p - 4 + 8) with (p + 4) by lia.
  repeat match goal with |- _ /\ _ => split end; rd_simpl;
    try lia; try assumption; try reflexivity.
  intros a Ha. rewrite byte_at_wr_ptr_other by lia. reflexivity.
Qed.

Lemma mm_free_large_pushes_witness :
  exists s',
    mm_free walk_fuel 1052680 one_span_taken = Ret tt s' /\
    big_list s' = 1052680 - 4 /\
    rd_ptr s' (1052680 + 4) = big_list one_span_taken /\
    rd_int s' (1052680 - 4) = rd_int one_span_taken (1052680 - 4) /\
    dseg_hi s' = dseg_hi one_span_taken /\
    (forall a, ~ (1052680 + 4 <= a < 1052680 + 12) ->
               Mem.byte_at (heap s') a = Mem.byte_at (heap one_span_taken) a).
Proof.
  apply (mm_free_large_pushes walk_fuel 1052680 one_span_taken).
  - discriminate.
  - vm_compute. reflexivity.
  - vm_compute. reflexivity.
  - vm_compute. reflexivity.
  - split; vm_compute; [discriminate | reflexivity].
Defined.

(** [subpage_mm_malloc] when the first page-ref of the arena has a free
    block at the head of its freelist that is not the base block. *)
Lemma subpage_mm_malloc_hit fuel cpu sz s proc c pr base h :
  num_processors s <> 0 ->
  proc = Z.rem cpu (num_processors s) ->
  c = get_block_class_index sz ->
  valid s (pageref_slot s proc c) 8 = true ->
  rd_ptr s (pageref_slot s proc c) = pr ->
  pageref_ok s pr base ->
  0 < rd_int s (pr + PR_NUM_FREE) ->
  rd_ptr s (pr + PR_FREELIST) = h ->
  h <> base ->
  valid s h 8 = true ->
  h + 8 <= pr \/ pr + 32 <= h ->
  subpage_mm_malloc (S fuel) cpu sz s =
    Ret h (wr_ptr (pr + PR_FREELIST) (rd_ptr s h)
             (wr_int (pr + PR_NUM_FREE) (to_int (rd_int s (pr + PR_NUM_FREE) - 1)) s)).
Proof.
  intros Hnp Hproc Hc Hslot Hhead (Hnn & Hp1 & Hp2 & Hb1 & Hb2 & Hsep & Hbase)
         Hnf Hfl Hne Hvh Hdis.
  apply valid_iff in Hslot. apply valid_iff in Hvh.
  unfold subpage_mm_malloc, get_processor_index.
  exec. destruct (Z.eqb_spec (num_processors s) 0) as [Heq | _]; [contradiction |].
  exec. rewrite <- Hproc, <- Hc.
  unfold pageref_head. exec. rewrite Hhead.
  cbn [find_pageref].
  destruct (Z.eqb_spec pr NULL) as [Heq | _]; [contradiction |].
  unfold PR_NUM_FREE, PR_FREELIST, PR_BASE, PAGE_SIZE in *.
  exec.
  destruct (Z.gtb_spec (rd_int s (pr + 24)) 0) as [_ | Hle]; [| lia].
  exec. rewrite Hfl, Hbase.
  destruct (Z.eqb_spec h base) as [Heq | _]; [contradiction |].
  exec.
  destruct (Z.eqb_spec pr NULL) as [Heq | _]; [contradiction |].
  exec. unfold take_block, PR_NUM_FREE, PR_FREELIST, PR_BASE.
  exec. rewrite Hfl. exec. rewrite Hbase.
  destruct (Z.eqb_spec h base) as [Heq | _]; [contradiction |].
  reflexivity.
Qed.

(** X8. When the first page-ref of the (processor, class) list has free
    blocks and the head of its freelist is not the base block, a subpage
    request returns that head, makes the block's successor the new head and
    decrements [num_free]. The break stays and the [freelist] and
    [num_free] fields of the page-ref are the only bytes written. *)
Theorem subpage_malloc_pops_head
    (fuel : nat) (cpu sz : Z) (s : state) (proc c pr base h : Z) :
  num_processors s <> 0 ->
  proc = Z.rem cpu (num_processors s) ->
  c = get_block_class_index sz ->
  sz <= 2048 ->
  valid s (pageref_slot s proc c) 8 = true ->
  rd_ptr s (pageref_slot s proc c) = pr ->
  pageref_ok s pr base ->
  0 < rd_int s (pr + PR_NUM_FREE) ->
  rd_ptr s (pr + PR_FREELIST) = h ->
  h <> base ->
  valid s h 8 = true ->
  h + 8 <= pr \/ pr + 32 <= h ->
  exists s',
    mm_malloc (S fuel) cpu sz s = Ret h s' /\
    rd_ptr s' (pr + PR_FREELIST) = rd_ptr s h /\
    rd_int s' (pr + PR_NUM_FREE) = rd_int s (pr + PR_NUM_FREE) - 1 /\
    dseg_hi s' = dseg_hi s /\
    (forall a, ~ (pr + 8 <= a < pr + 16) -> ~ (pr + 24 <= a < pr + 28) ->
               Mem.byte_at (heap s') a = Mem.byte_at (heap s) a).
Proof.
  intros Hnp Hproc Hc Hsz Hslot Hhead Hpr Hnf Hfl Hne Hvh Hdis.
  unfold mm_malloc.
  destruct (Z.leb_spec sz (PAGE_SIZE / 2)) as [_ | Hbig];
    [| change (PAGE_SIZE / 2) with 2048 in Hbig; lia].
  rewrite (subpage_mm_malloc_hit fuel cpu sz s proc c pr base h) by assumption.
  pose proof (rd_ptr_range s h) as Hrange.
  pose proof (rd_int_range s (pr + PR_NUM_FREE)) as Hnfr.
  unfold PR_NUM_FREE, PR_FREELIST in *.
  eexists. split; [reflexivity |]. proj_simpl.
  repeat match goal with |- _ /\ _ => split end; rd_simpl;
    try lia; try reflexivity;
    try (rewrite to_int_mod_idem; apply to_int_small; lia).
  intros a Ha1 Ha2.
  rewrite byte_at_wr_ptr_other by lia. rewrite byte_at_wr_int_other by lia.
  reflexivity.
Qed.

Lemma subpage_malloc_pops_head_witness :
  exists s',
    mm_malloc walk_fuel 0 8 small_block_taken = Ret 1060848 s' /\
    rd_ptr s' (1052672 + PR_FREELIST) = rd_ptr small_block_taken 1060848 /\
    rd_int s' (1052672 + PR_NUM_FREE) = rd_int small_block_taken (1052672 + PR_NUM_FREE) - 1 /\
    dseg_hi s' = dseg_hi small_block_taken /\
    (forall a, ~ (1052672 + 8 <= a < 1052672 + 16) -> ~ (1052672 + 24 <= a < 1052672 + 28) ->
               Mem.byte_at (heap s') a = Mem.byte_at (heap small_block_taken) a).
Proof.
  apply (subpage_malloc_pops_head 15 0 8 small_block_taken 0 0 1052672 1056768 1060848).
  - vm_compute. discriminate.
  - vm_compute. reflexivity.
  - vm_compute. reflexivity.
  - lia.
  - vm_compute. reflexivity.
  - vm_compute. reflexivity.
  - unfold pageref_ok.
    repeat match goal with |- _ /\ _ => split end;
      try (vm_compute; (reflexivity || discriminate)).
    left. vm_compute. discriminate.
  - vm_compute. reflexivity.
  - vm_compute. reflexivity.
  - discriminate.
  - vm_compute. reflexivity.
  - right. lia.
Defined.

(** The state [release_block] ends in when the page does not become empty. *)
Lemma release_block_keep_state s proc c prior pr ptr base :
  addressable s ->
  pageref_ok s pr base ->
  base <= ptr -> ptr + 8 <= base + PAGE_SIZE ->
  to_int (rd_int s (pr + PR_NUM_FREE) + 1) <> blocks_per_page c ->
  release_block proc c prior pr ptr s =
    Ret tt (wr_int (pr + PR_NUM_FREE) (to_int (rd_int s (pr + PR_NUM_FREE) + 1))
              (wr_ptr ptr (rd_ptr s (pr + PR_FREELIST))
                 (wr_ptr (pr + PR_FREELIST) ptr s))).
Proof.
  intros [Hlo Hhi] (Hnn & Hpr1 & Hpr2 & Hb1 & Hb2 & Hsep & Hbase) Hp1 Hp2 Hkeep.
  unfold release_block.
  unfold PR_FREELIST, PR_NUM_FREE, PR_BASE, PR_NEXT, PAGE_SIZE in *.
  exec.
  rewrite to_int_mod_idem.
  change (4096 ÷ Z.shiftl 1 (BASE_CLASS + c)) with (blocks_per_page c).
  destruct (Z.eqb_spec (to_int (rd_int s (pr + 24) + 1)) (blocks_per_page c))
    as [Heq | _]; [contradiction |].
  reflexivity.
Qed.

(** The walk of [subpage_mm_free] reports no predecessor only for the
    page-ref it started from. *)
Lemma find_owner_first fuel page_head prior0 pr0 s prior pr s' :
  find_owner fuel page_head prior0 pr0 s = Ret (prior, pr) s' ->
  (prior = prior0 /\ pr = pr0) \/ prior <> NULL.
Proof.
  revert prior0 pr0. induction fuel as [| fuel IH]; intros prior0 pr0 Hrun; [discriminate |].
  cbn [find_owner] in Hrun.
  destruct (pr0 =? NULL) eqn:Hnull.
  - apply Ret_inj in Hrun as [Hpair _]. apply pair_equal_spec in Hpair as [<- <-]. auto.
  - unfold bind at 1 in Hrun. unfold load_ptr at 1 in Hrun.
    destruct (valid s (pr0 + PR_BASE) 8); [| discriminate].
    destruct (rd_ptr s (pr0 + PR_BASE) =? page_head).
    + apply Ret_inj in Hrun as [Hpair _]. apply pair_equal_spec in Hpair as [<- <-]. auto.
    + unfold bind at 1 in Hrun. unfold load_ptr at 1 in Hrun.
      destruct (valid s (pr0 + PR_NEXT) 8); [| discriminate].
      apply IH in Hrun as [[-> _] | Hne]; [| auto].
      right. apply Z.eqb_neq. exact Hnull.
Qed.

(** X9. Round trip of a subpage block: freeing a block of the first
    page-ref of its list (the page not becoming empty) and asking again,
    on the same processor, for a size of the same class returns the same
    pointer; the freelist head and [num_free] of the page-ref are restored
    and the break stays. Outside the first 8 bytes of the block and the two
    fields of the page-ref no byte changes. *)
Theorem subpage_free_then_malloc
    (fuel : nat) (cpu sz ptr : Z) (s : state) (page_head proc c pr : Z) :
  addressable s ->
  free_finds (S fuel) s ptr page_head proc c NULL pr ->
  pageref_ok s pr page_head ->
  link_ok s (pageref_slot s proc c) pr page_head ->
  page_head + 8 <= ptr -> ptr + 8 <= page_head + PAGE_SIZE ->
  0 <= rd_int s (pr + PR_NUM_FREE) ->
  rd_int s (pr + PR_NUM_FREE) + 1 < blocks_per_page c ->
  num_processors s <> 0 ->
  proc = Z.rem cpu (num_processors s) ->
  c = get_block_class_index sz ->
  sz <= 2048 ->
  exists s',
    (mm_free (S fuel) ptr ;; mm_malloc (S fuel) cpu sz) s = Ret ptr s' /\
    rd_ptr s' (pr + PR_FREELIST) = rd_ptr s (pr + PR_FREELIST) /\
    rd_int s' (pr + PR_NUM_FREE) = rd_int s (pr + PR_NUM_FREE) /\
    dseg_hi s' = dseg_hi s /\
    (forall a, ~ (ptr <= a < ptr + 8) ->
               ~ (pr + 8 <= a < pr + 16) -> ~ (pr + 24 <= a < pr + 28) ->
               Mem.byte_at (heap s') a = Mem.byte_at (heap s) a).
Proof.
  intros Haddr Hfinds Hpr Hlink Hp1 Hp2 Hnf0 Hnf1 Hnp Hproc Hc Hsz.
  pose proof (blocks_per_page_range c) as Hbpp. unfold PAGE_SIZE in Hbpp.
  pose proof (rd_ptr_range s (pr + PR_FREELIST)) as Hhead.
  assert (Hinc : to_int (rd_int s (pr + PR_NUM_FREE) + 1) = rd_int s (pr + PR_NUM_FREE) + 1)
    by (apply to_int_small; lia).
  assert (Hv : valid s page_head 8 = true).
  { destruct Hpr as (_ & _ & _ & Hb1 & Hb2 & _). unfold PAGE_SIZE in Hb2.
    apply valid_iff. lia. }
  assert (Hrel := release_block_keep_state s proc c NULL pr ptr page_head Haddr Hpr
                    ltac:(lia) Hp2 ltac:(lia)).
  destruct Haddr as [Ha1 Ha2].
  destruct Hpr as (Hnn & Hpr1 & Hpr2 & Hb1 & Hb2 & Hsep & Hbase).
  destruct Hlink as (Hl1 & Hl2 & Hl3 & Hl4).
  destruct Hfinds as (Hph & Hprc & Hbig & Hcls & Hslot & Hwalk).
  assert (Hfinds : free_finds (S fuel) s ptr page_head proc c NULL pr)
    by (repeat split; assumption).
  assert (Hfirst : rd_ptr s (pageref_slot s proc c) = pr).
  { apply find_owner_first in Hwalk as [[_ Heq] | Hne]; [auto | contradiction]. }
  unfold mm_free.
  destruct (Z.eqb_spec ptr NULL) as [Heq | _]; [unfold NULL in Heq; lia |].
  rewrite run_assoc.
  rewrite (run_known _ _ _ _ _
             (eq_trans (subpage_mm_free_run (S fuel) s ptr page_head proc c NULL pr Hfinds Hv)
                       (run_known _ _ _ _ _ Hrel))).
  change (1 =? 0) with false. cbv iota. rewrite run_ret.
  unfold mm_malloc.
  destruct (Z.leb_spec sz (PAGE_SIZE / 2)) as [_ | Hlarge];
    [| change (PAGE_SIZE / 2) with 2048 in Hlarge; lia].
  unfold PR_NUM_FREE, PR_FREELIST, PR_BASE, PAGE_SIZE in *.
  rewrite Hinc.
  rewrite (subpage_mm_malloc_hit fuel cpu sz _ proc c pr page_head ptr);
    unfold pageref_ok, PR_FREELIST, PR_NUM_FREE, PR_BASE, PAGE_SIZE;
    proj_simpl; rd_simpl; try assumption; try lia;
    try (apply valid_iff; lia); try (repeat split; try assumption; lia).
  eexists. split; [reflexivity |]. proj_simpl.
  repeat match goal with |- _ /\ _ => split end; rd_simpl;
    try lia; try reflexivity.
  - rewrite ?to_int_mod_idem. rewrite ?Hinc.
    replace (rd_int s (pr + 24) + 1 - 1) with (rd_int s (pr + 24)) by lia.
    apply to_int_small. pose proof (rd_int_range s (pr + 24)). lia.
  - intros a Hx1 Hx2 Hx3.
    rewrite byte_at_wr_ptr_other by lia. rewrite byte_at_wr_int_other by lia.
    rewrite byte_at_wr_int_other by lia. rewrite byte_at_wr_ptr_other by lia.
    rewrite byte_at_wr_ptr_other by lia. reflexivity.
Qed.

Lemma subpage_free_then_malloc_witness :
  exists s',
    (mm_free walk_fuel 1060848 ;; mm_malloc walk_fuel 0 8) two_small_blocks_taken
      = Ret 1060848 s' /\
    rd_ptr s' (1052672 + PR_FREELIST) = rd_ptr two_small_blocks_taken (1052672 + PR_FREELIST) /\
    rd_int s' (1052672 + PR_NUM_FREE) = rd_int two_small_blocks_taken (1052672 + PR_NUM_FREE) /\
    dseg_hi s' = dseg_hi two_small_blocks_taken /\
    (forall a, ~ (1060848 <= a < 1060848 + 8) ->
               ~ (1052672 + 8 <= a < 1052672 + 16) -> ~ (1052672 + 24 <= a < 1052672 + 28) ->
               Mem.byte_at (heap s') a = Mem.byte_at (heap two_small_blocks_taken) a).
Proof.
  apply (subpage_free_then_malloc 15 0 8 1060848 two_small_blocks_taken
           1056768 0 0 1052672).
  - split; vm_compute; [reflexivity | discriminate].
  - unfold free_finds. witness_facts.
  - unfold pageref_ok.
    repeat match goal with |- _ /\ _ => split end;
      try (vm_compute; (reflexivity || discriminate)).
    left. vm_compute. discriminate.
  - unfold link_ok.
    repeat match goal with |- _ /\ _ => split end;
      try (vm_compute; (reflexivity || discriminate));
      left; vm_compute; discriminate.
  - lia.
  - unfold PAGE_SIZE. lia.
  - vm_compute. discriminate.
  - vm_compute. reflexivity.
  - vm_compute. discriminate.
  - vm_compute. reflexivity.
  - vm_compute. reflexivity.
  - lia.
Defined.

(** X10. A page-ref without free blocks at the head of the (processor,
    class) list is passed over: when its successor has free blocks and the
    head of the successor's freelist is not the base block, the request
    returns that head and updates the successor as for a first page-ref.
    The break stays and the [freelist] and [num_free] fields of the
    successor are the only bytes written. *)
Theorem subpage_malloc_skips_full_pageref
    (fuel : nat) (cpu sz : Z) (s : state) (proc c pr1 pr2 base h : Z) :
  num_processors s <> 0 ->
  proc = Z.rem cpu (num_processors s) ->
  c = get_block_class_index sz ->
  sz <= 2048 ->
  valid s (pageref_slot s proc c) 8 = true ->
  rd_ptr s (pageref_slot s proc c) = pr1 ->
  pr1 <> NULL -> valid s pr1 32 = true ->
  rd_int s (pr1 + PR_NUM_FREE) <= 0 ->
  rd_ptr s (pr1 + PR_NEXT) = pr2 ->
  pageref_ok s pr2 base ->
  0 < rd_int s (pr2 + PR_NUM_FREE) ->
  rd_ptr s (pr2 + PR_FREELIST) = h ->
  h <> base ->
  valid s h 8 = true ->
  h + 8 <= pr2 \/ pr2 + 32 <= h ->
  exists s',
    mm_malloc (S (S fuel)) cpu sz s = Ret h s' /\
    rd_ptr s' (pr2 + PR_FREELIST) = rd_ptr s h /\
    rd_int s' (pr2 + PR_NUM_FREE) = rd_int s (pr2 + PR_NUM_FREE) - 1 /\
    dseg_hi s' = dseg_hi s /\
    (forall a, ~ (pr2 + 8 <= a < pr2 + 16) -> ~ (pr2 + 24 <= a < pr2 + 28) ->
               Mem.byte_at (heap s') a = Mem.byte_at (heap s) a).
Proof.
  intros Hnp Hproc Hc Hsz Hslot Hhead Hnn1 Hv1 Hfull Hnext
         (Hnn & Hp1 & Hp2 & Hb1 & Hb2 & Hsep & Hbase) Hnf Hfl Hne Hvh Hdis.
  apply valid_iff in Hslot. apply valid_iff in Hvh. apply valid_iff in Hv1.
  pose proof (rd_ptr_range s h) as Hrange.
  pose proof (rd_int_range s (pr2 + PR_NUM_FREE)) as Hnfr.
  unfold mm_malloc.
  destruct (Z.leb_spec sz (PAGE_SIZE / 2)) as [_ | Hbig];
    [| change (PAGE_SIZE / 2) with 2048 in Hbig; lia].
  unfold subpage_mm_malloc, get_processor_index.
  exec. destruct (Z.eqb_spec (num_processors s) 0) as [Heq | _]; [contradiction |].
  exec. rewrite <- Hproc, <- Hc.
  unfold pageref_head. exec. rewrite Hhead.
  cbn [find_pageref].
  destruct (Z.eqb_spec pr1 NULL) as [Heq | _]; [contradiction |].
  unfold PR_NUM_FREE, PR_FREELIST, PR_BASE, PR_NEXT, PAGE_SIZE in *.
  exec.
  destruct (Z.gtb_spec (rd_int s (pr1 + 24)) 0) as [Hgt | _]; [lia |].
  rewrite Z.add_0_r in *.
  exec. rewrite Hnext.
  destruct (Z.eqb_spec pr2 NULL) as [Heq | _]; [contradiction |].
  exec.
  destruct (Z.gtb_spec (rd_int s (pr2 + 24)) 0) as [_ | Hle]; [| lia].
  exec. rewrite Hfl, Hbase.
  destruct (Z.eqb_spec h base) as [Heq | _]; [contradiction |].
  exec.
  destruct (Z.eqb_spec pr2 NULL) as [Heq | _]; [contradiction |].
  exec. unfold take_block, PR_NUM_FREE, PR_FREELIST, PR_BASE.
  exec. rewrite Hfl. exec. rewrite Hbase.
  destruct (Z.eqb_spec h base) as [Heq | _]; [contradiction |].
  eexists. split; [reflexivity |]. proj_simpl.
  repeat match goal with |- _ /\ _ => split end; rd_simpl;
    try lia; try reflexivity;
    try (rewrite to_int_mod_idem; apply to_int_small; lia).
  intros a Ha1 Ha2.
  rewrite byte_at_wr_ptr_other by lia. rewrite byte_at_wr_int_other by lia.
  reflexivity.
Qed.

Lemma subpage_malloc_skips_full_pageref_witness :
  exists s',
    mm_malloc walk_fuel 0 2048 full_then_free = Ret 1058816 s' /\
    rd_ptr s' (1052672 + PR_FREELIST) = rd_ptr full_then_free 1058816 /\
    rd_int s' (1052672 + PR_NUM_FREE) = rd_int full_then_free (1052672 + PR_NUM_FREE) - 1 /\
    dseg_hi s' = dseg_hi full_then_free /\
    (forall a, ~ (1052672 + 8 <= a < 1052672 + 16) -> ~ (1052672 + 24 <= a < 1052672 + 28) ->
               Mem.byte_at (heap s') a = Mem.byte_at (heap full_then_free) a).
Proof.
  apply (subpage_malloc_skips_full_pageref 14 0 2048 full_then_free 0 8
           1056704 1052672 1056768 1058816).
  - vm_compute. discriminate.
  - vm_compute. reflexivity.
  - vm_compute. reflexivity.
  - lia.
  - vm_compute. reflexivity.
  - vm_compute. reflexivity.
  - discriminate.
  - vm_compute. reflexivity.
  - vm_compute. discriminate.
  - vm_compute. reflexivity.
  - unfold pageref_ok.
    repeat match goal with |- _ /\ _ => split end;
      try (vm_compute; (reflexivity || discriminate)).
    left. vm_compute. discriminate.
  - vm_compute. reflexivity.
  - vm_compute. reflexivity.
  - discriminate.
  - vm_compute. reflexivity.
  - right. lia.
Defined.

(** * The page-ref pool *)

Lemma heap_only_refl s : heap_only s s.
Proof. repeat split. Qed.

Lemma heap_only_trans s1 s2 s3 : heap_only s1 s2 -> heap_only s2 s3 -> heap_only s1 s3.
Proof.
  unfold heap_only. intros (?&?&?&?&?&?&?&?) (?&?&?&?&?&?&?&?).
  repeat split; congruence.
Qed.

Lemma heap_only_hw (f : state -> state) `{!HeapWrite f} s : heap_only s (f s).
Proof. apply heap_write. Qed.

Lemma rd_ptr_ext s1 s2 a :
  (forall b, a <= b < a + 8 -> Mem.byte_at (heap s1) b = Mem.byte_at (heap s2) b) ->
  rd_ptr s1 a = rd_ptr s2 a.
Proof. intros H. unfold rd_ptr. apply read_le_ext. exact H. Qed.

Lemma rd_int_ext s1 s2 a :
  (forall b, a <= b < a + 4 -> Mem.byte_at (heap s1) b = Mem.byte_at (heap s2) b) ->
  rd_int s1 a = rd_int s2 a.
Proof. intros H. unfold rd_int. f_equal. apply read_le_ext. exact H. Qed.

(** The slot loop of [allocate_pageref], started at slot [j] with [j] slots
    already chained: it chains the remaining slots of the page, each one to
    the slot before it, and counts them. *)
Lemma build_loop_spec (pr base step n : Z) :
  8 <= step -> step * n = 4096 ->
  0 <= base -> base + 4096 <= 2 ^ 64 ->
  (pr + 32 <= base \/ base + 4096 <= pr) ->
  forall (fuel : nat) (j : Z) (s : state),
    0 <= j <= n -> (Z.to_nat (n - j) < fuel)%nat ->
    dseg_lo s <= pr -> pr + 32 <= dseg_hi s ->
    dseg_lo s <= base -> base + 4096 <= dseg_hi s ->
    rd_int s (pr + 24) = j ->
    rd_ptr s (pr + 8) = (if j =? 0 then 0 else base + (j - 1) * step) ->
    exists s',
      build_loop fuel pr base step (j * step) s = Ret tt s' /\
      heap_only s s' /\
      rd_int s' (pr + 24) = n /\
      rd_ptr s' (pr + 8) = base + (n - 1) * step /\
      (forall k, j <= k < n ->
         rd_ptr s' (base + k * step) = if k =? 0 then 0 else base + (k - 1) * step) /\
      (forall a, ~ (base + j * step <= a < base + 4096) ->
                 ~ (pr + 8 <= a < pr + 16) -> ~ (pr + 24 <= a < pr + 28) ->
                 Mem.byte_at (heap s') a = Mem.byte_at (heap s) a).
Proof.
  intros Hstep Hn Hb0 Hb64 Hsep.
  assert (Hnpos : 0 < n) by nia.
  assert (Hn512 : n <= 512) by nia.
  induction fuel as [| fuel IH]; intros j s Hj Hfuel Hlo Hhi Hblo Hbhi Hnf Hfl; [lia |].
  cbn [build_loop]. unfold PAGE_SIZE, PR_FREELIST, PR_NUM_FREE.
  destruct (Z.ltb_spec (j * step) 4096) as [Hlt | Hge].
  - assert (Hjn : j < n) by nia.
    assert (Hoff : 0 <= j * step /\ j * step + step <= 4096) by nia.
    assert (Hnext : (j + 1) * step = j * step + step) by lia.
    assert (Hprev : 0 < j -> (j - 1) * step = j * step - step) by (intros; lia).
    exec. rewrite Hnf, Hfl.
    rewrite (to_int_small (j + 1)) by lia.
    set (s1 := wr_int (pr + 24) (j + 1) _).
    destruct (IH (j + 1) s1) as (s' & Hrun & Hsame & Hcount & Hhead & Hnodes & Hframe).
    + lia.
    + lia.
    + subst s1. proj_simpl. exact Hlo.
    + subst s1. proj_simpl. exact Hhi.
    + subst s1. proj_simpl. exact Hblo.
    + subst s1. proj_simpl. exact Hbhi.
    + subst s1. rd_simpl. apply to_int_small. lia.
    + subst s1. rd_simpl.
      destruct (Z.eqb_spec (j + 1) 0) as [Heq | _]; [lia |].
      replace (j + 1 - 1) with j by lia. reflexivity.
    + rewrite Hnext in Hrun, Hframe.
      exists s'. split; [exact Hrun |].
      split.
      { assert (H1 : heap_only s s1)
          by (subst s1; unfold heap_only; proj_simpl; repeat split).
        exact (heap_only_trans _ _ _ H1 Hsame). }
      split; [exact Hcount |]. split; [exact Hhead |]. split.
      * intros k Hk. destruct (Z.eq_dec k j) as [-> | Hne].
        -- rewrite (rd_ptr_ext s' s1).
           ++ subst s1. rd_simpl.
              destruct (Z.eqb_spec j 0) as [-> | Hj0]; rd_simpl.
              ** reflexivity.
              ** rewrite rd_ptr_wr_ptr_same; [reflexivity |]. nia.
           ++ intros b Hb. apply Hframe; lia.
        -- apply Hnodes. lia.
      * intros a Ha1 Ha2 Ha3. rewrite Hframe by lia.
        subst s1. rewrite byte_at_wr_int_other by lia.
        rewrite byte_at_wr_ptr_other by lia.
        rewrite byte_at_wr_ptr_other by lia. reflexivity.
  - assert (Hjn : j = n) by nia. rewrite Hjn in Hnf, Hfl.
    exists s. split; [reflexivity |]. split; [apply heap_only_refl |].
    split; [exact Hnf |]. split.
    + rewrite Hfl. destruct (Z.eqb_spec n 0); [lia | reflexivity].
    + split; [intros k Hk; lia | reflexivity].
Qed.

Lemma read_le_zero_bytes m a n :
  Mem.read_le m a n = 0 ->
  forall b, a <= b < a + Z.of_nat n -> Mem.byte_at m b = 0.
Proof.
  revert a. induction n as [| n IH]; intros a Hz b Hb; [lia |].
  cbn [Mem.read_le] in Hz.
  pose proof (byte_at_range m a). pose proof (read_le_range m (a + 1) n).
  destruct (Z.eq_dec b a) as [-> | Hne]; [lia |].
  apply (IH (a + 1)); lia.
Qed.

Lemma byte_at_wr_char_same s a v : Mem.byte_at (heap (wr_char a v s)) a = v mod 256.
Proof.
  unfold wr_char. cbn [heap set_heap Mem.write_le].
  rewrite byte_at_insert. destruct (decide (a = a)); [| congruence].
  apply Z.mod_mod. lia.
Qed.

(** A [char] store over the low byte of a word whose other bytes are zero. *)
Lemma rd_int_wr_char_low s a v :
  (forall b, a < b < a + 4 -> Mem.byte_at (heap s) b = 0) ->
  rd_int (wr_char a v s) a = v mod 256.
Proof.
  intros Hz. unfold rd_int. cbn [Mem.read_le].
  rewrite byte_at_wr_char_same.
  rewrite !byte_at_wr_char_other by lia.
  rewrite !Hz by lia.
  pose proof (Z.mod_pos_bound v 256 ltac:(lia)).
  rewrite to_int_small; lia.
Qed.

Lemma class_size_facts c :
  0 <= c <= 8 ->
  8 <= class_size c <= 2048 /\
  class_size c * (4096 / class_size c) = 4096 /\
  2 <= 4096 / class_size c <= 512 /\
  Z.shiftl 1 (BASE_CLASS + c) = class_size c /\
  blocks_per_page c = 4096 / class_size c.
Proof.
  intros Hc.
  assert (Hcases : c = 0 \/ c = 1 \/ c = 2 \/ c = 3 \/ c = 4 \/ c = 5 \/ c = 6 \/
                   c = 7 \/ c = 8) by lia.
  repeat (destruct Hcases as [-> | Hcases]; [vm_compute; intuition discriminate |]).
  subst c. vm_compute. intuition discriminate.
Qed.

(** [allocate_pageref] once a page-ref [pr] has been taken from a pool:
    [pr] becomes the head of the (processor, class) list, is bound to the
    page at [base] (a fresh one when [create] is set) and every slot of
    that page is chained on its freelist, last slot first. *)
Lemma allocate_pageref_run (proc c pr base : Z) (create : bool) (s s1 : state) :
  acquire_pageref s = Ret (pr, create) s1 ->
  0 <= c <= 8 ->
  0 < dseg_lo s1 -> dseg_hi s1 <= dseg_max s1 -> dseg_max s1 <= 2 ^ 64 ->
  dseg_lo s1 <= pageref_slot s1 proc c -> pageref_slot s1 proc c + 8 <= dseg_hi s1 ->
  dseg_lo s1 <= pr -> pr + 32 <= dseg_hi s1 ->
  (pageref_slot s1 proc c + 8 <= pr \/ pr + 32 <= pageref_slot s1 proc c) ->
  (if create
   then base = dseg_hi s1 /\ dseg_hi s1 + 4096 <= dseg_max s1
   else base = rd_ptr s1 (pr + 16) /\
        dseg_lo s1 <= base /\ base + 4096 <= dseg_hi s1 /\
        (pr + 32 <= base \/ base + 4096 <= pr) /\
        (pageref_slot s1 proc c + 8 <= base \/ base + 4096 <= pageref_slot s1 proc c)) ->
  exists s',
    allocate_pageref proc c s = Ret pr s' /\
    heap_only (set_segment (dseg_lo s1)
                 (if create then dseg_hi s1 + 4096 else dseg_hi s1) (dseg_max s1) s1) s' /\
    rd_ptr s' (pageref_slot s1 proc c) = pr /\
    rd_ptr s' pr = rd_ptr s1 (pageref_slot s1 proc c) /\
    rd_ptr s' (pr + 16) = base /\
    rd_int s' (pr + 24) = 4096 / class_size c /\
    rd_ptr s' (pr + 8) = base + 4096 - class_size c /\
    rd_ptr s' (base + 4096 - class_size c) = base + 4096 - 2 * class_size c /\
    rd_int s' base = proc mod 256 /\
    rd_int s' (base + 4) = c /\
    (forall a, ~ (pageref_slot s1 proc c <= a < pageref_slot s1 proc c + 8) ->
               ~ (pr <= a < pr + 32) -> ~ (base <= a < base + 4096) ->
               Mem.byte_at (heap s') a = Mem.byte_at (heap s1) a).
Proof.
  intros Hacq Hc Hlo Hhimax Hmax Hs1 Hs2 Hp1 Hp2 Hsp Hbase.
  destruct (class_size_facts c Hc) as (Hcs & Hdiv & Hn & _ & _).
  set (cs := class_size c) in *. set (n := 4096 / cs) in *.
  set (slot := pageref_slot s1 proc c) in *.
  set (hi' := if create then dseg_hi s1 + 4096 else dseg_hi s1).
  pose proof (rd_ptr_range s1 slot) as Hold.
  assert (Hbase' : dseg_lo s1 <= base /\ base + 4096 <= hi' /\
                   (pr + 32 <= base \/ base + 4096 <= pr) /\
                   (slot + 8 <= base \/ base + 4096 <= slot) /\ hi' <= 2 ^ 64).
  { subst hi'. destruct create; intuition lia. }
  destruct Hbase' as (Hb1 & Hb2 & Hbp & Hbs & Hhi64).
  assert (Hhi' : dseg_hi s1 <= hi') by (subst hi'; destruct create; lia).
  unfold allocate_pageref. rewrite (run_known _ _ _ _ _ Hacq). cbn [fst snd].
  unfold pageref_head, set_pageref_head, PR_NEXT, PR_BASE, PR_FREELIST, PR_NUM_FREE, NULL,
    PAGE_SIZE.
  change (Z.shiftl 1 (c + BASE_CLASS)) with cs. rewrite Z.add_0_r.
  exec. fold slot.
  assert (Hmid : exists s2,
    heap_only (set_segment (dseg_lo s1) hi' (dseg_max s1) s1) s2 /\
    rd_ptr s2 slot = pr /\ rd_ptr s2 pr = rd_ptr s1 slot /\
    rd_ptr s2 (pr + 16) = base /\ rd_int s2 (pr + 24) = 0 /\ rd_ptr s2 (pr + 8) = 0 /\
    (forall a, ~ (slot <= a < slot + 8) -> ~ (pr <= a < pr + 32) ->
               Mem.byte_at (heap s2) a = Mem.byte_at (heap s1) a) /\
    forall k : M Z,
      (x <- (if create
             then fresh <- mem_sbrk 4096 ;; store_ptr (pr + 16) fresh ;; ret fresh
             else ret (rd_ptr s1 (pr + 16))) ;;
       store_ptr (pr + 8) 0 ;; store_int (pr + 24) 0 ;;
       build_loop (Z.to_nat 4096 + 1) pr x cs 0 ;; k)
        (wr_ptr slot pr (wr_ptr pr (rd_ptr s1 slot) s1))
      = (build_loop (Z.to_nat 4096 + 1) pr base cs 0 ;; k) s2).
  { destruct create.
    - destruct Hbase as [-> Hroom]. subst hi'. eexists.
      split; [| split; [| split; [| split; [| split; [| split; [| split]]]]]];
        cycle 7.
      + intros k. exec. reflexivity.
      + unfold heap_only. proj_simpl. repeat split.
      + rd_simpl. lia.
      + rd_simpl. reflexivity.
      + rd_simpl. lia.
      + rd_simpl. reflexivity.
      + rd_simpl. reflexivity.
      + intros a Ha1 Ha2. rewrite byte_at_wr_int_other by lia.
        rewrite !byte_at_wr_ptr_other by lia. proj_simpl.
        rewrite !byte_at_wr_ptr_other by lia. reflexivity.
    - destruct Hbase as (Hbeq & _). subst hi'.
      rewrite <- Hbeq. eexists.
      split; [| split; [| split; [| split; [| split; [| split; [| split]]]]]];
        cycle 7.
      + intros k. exec. reflexivity.
      + unfold heap_only. proj_simpl. repeat split.
      + rd_simpl. lia.
      + rd_simpl. reflexivity.
      + rd_simpl. lia.
      + rd_simpl. reflexivity.
      + rd_simpl. reflexivity.
      + intros a Ha1 Ha2. rewrite byte_at_wr_int_other by lia.
        rewrite !byte_at_wr_ptr_other by lia. reflexivity. }
  destruct Hmid as (s2 & Hsame2 & Hslot2 & Hnext2 & Hbase2 & Hnf2 & Hfl2 & Hframe2 & Hrun2).
  rd_simpl. rewrite Hrun2. clear Hrun2.
  unfold heap_only in Hsame2.
  cbn [dseg_lo dseg_hi dseg_max big_list new_free_page_refs reusable_page_refs
       processor_locks_base num_processors set_segment] in Hsame2.
  destruct Hsame2 as (Hlo2 & Hhi2 & Hmx2 & Hg2).
  destruct (build_loop_spec pr base cs n (proj1 Hcs) Hdiv ltac:(lia) ltac:(lia) Hbp
              (Z.to_nat 4096 + 1)%nat 0 s2)
    as (s3 & Hrun3 & Hsame3 & Hnf3 & Hfl3 & Hnodes3 & Hframe3);
    try lia.
  { rewrite Hfl2. reflexivity. }
  rewrite Z.mul_0_l in Hrun3, Hframe3. rewrite Z.add_0_r in Hframe3.
  rewrite (run_known _ _ _ _ _ Hrun3).
  destruct Hsame3 as (Hlo3 & Hhi3 & Hmx3 & Hg3).
  assert (Hbase3 : rd_ptr s3 (pr + 16) = base).
  { rewrite <- Hbase2. apply rd_ptr_ext. intros b Hb. apply Hframe3; lia. }
  assert (Hzero3 : forall b, base <= b < base + 8 -> Mem.byte_at (heap s3) b = 0).
  { intros b Hb. apply (read_le_zero_bytes (heap s3) base 8).
    - specialize (Hnodes3 0 ltac:(lia)). rewrite Z.mul_0_l, Z.add_0_r in Hnodes3.
      exact Hnodes3.
    - cbn. lia. }
  assert (Hlast : (n - 1) * cs = 4096 - cs) by lia.
  assert (Hprev : (n - 1 - 1) * cs = 4096 - 2 * cs) by lia.
  rewrite run_load_ptr by (apply valid_iff; lia). rewrite Hbase3.
  rewrite run_store_char by (apply valid_iff; lia).
  rewrite run_load_ptr by (proj_simpl; apply valid_iff; lia).
  rd_simpl. rewrite Hbase3. unfold SIZEOF_INT.
  rewrite run_store_char by (proj_simpl; apply valid_iff; lia).
  eexists. split; [reflexivity |].
  split.
  { unfold heap_only. proj_simpl.
    cbn [dseg_lo dseg_hi dseg_max big_list new_free_page_refs reusable_page_refs
         processor_locks_base num_processors set_segment].
    destruct Hg2 as (?&?&?&?&?). destruct Hg3 as (?&?&?&?&?).
    repeat split; congruence. }
  split; [| split; [| split; [| split; [| split; [| split; [| split; [| split]]]]]]].
  - rd_simpl. rewrite <- Hslot2. apply rd_ptr_ext. intros b Hb. apply Hframe3; lia.
  - rd_simpl. rewrite <- Hnext2. apply rd_ptr_ext. intros b Hb. apply Hframe3; lia.
  - rd_simpl. exact Hbase3.
  - rd_simpl. exact Hnf3.
  - rd_simpl. rewrite Hfl3. lia.
  - rd_simpl. replace (base + 4096 - cs) with (base + (n - 1) * cs) by lia.
    rewrite Hnodes3 by lia.
    destruct (Z.eqb_spec (n - 1) 0) as [Heq | _]; lia.
  - rd_simpl. apply rd_int_wr_char_low. intros b Hb. apply Hzero3. lia.
  - rewrite rd_int_wr_char_low.
    + apply Z.mod_small. lia.
    + intros b Hb. rewrite byte_at_wr_char_other by lia. apply Hzero3. lia.
  - intros a Ha1 Ha2 Ha3.
    rewrite !byte_at_wr_char_other by lia.
    rewrite Hframe3 by lia. apply Hframe2; lia.
Qed.

(** The loop that carves a metadata page into page-refs, entered at record
    [j]: each remaining 64-byte record is pushed on the list of fresh
    page-refs, so that the last record of the page ends up first. *)
Lemma carve_loop_spec (pr : Z) :
  0 <= pr -> pr + 4096 <= 2 ^ 64 ->
  forall (fuel : nat) (j : Z) (s : state),
    1 <= j <= 64 -> (Z.to_nat (64 - j) < fuel)%nat ->
    dseg_lo s <= pr -> pr + 4096 <= dseg_hi s ->
    0 <= new_free_page_refs s < 2 ^ 64 ->
    exists s',
      carve_loop fuel pr (64 * j) s = Ret tt s' /\
      heap_only (set_new_free_page_refs (new_free_page_refs s') s) s' /\
      new_free_page_refs s' = (if j <? 64 then pr + 4032 else new_free_page_refs s) /\
      (forall k, j <= k < 64 ->
         rd_ptr s' (pr + 64 * k) = if k =? j then new_free_page_refs s else pr + 64 * (k - 1)) /\
      (forall a, ~ (pr + 64 * j <= a < pr + 4096) ->
                 Mem.byte_at (heap s') a = Mem.byte_at (heap s) a).
Proof.
  intros Hp0 Hp64.
  induction fuel as [| fuel IH]; intros j s Hj Hfuel Hlo Hhi Hfresh; [lia |].
  cbn [carve_loop]. unfold PAGE_SIZE, CACHELINE_SIZE, PR_NEXT.
  destruct (Z.ltb_spec (64 * j) 4096) as [Hlt | Hge].
  - rewrite Z.add_0_r. exec.
    replace (64 * j + 64) with (64 * (j + 1)) by lia.
    set (s1 := set_new_free_page_refs _ _).
    destruct (IH (j + 1) s1) as (s' & Hrun & Hsame & Hnew & Hnodes & Hframe).
    + lia.
    + lia.
    + subst s1. proj_simpl. exact Hlo.
    + subst s1. proj_simpl. exact Hhi.
    + subst s1. proj_simpl. lia.
    + exists s'. split; [exact Hrun |].
      assert (Hs1 : new_free_page_refs s1 = pr + 64 * j) by (subst s1; proj_simpl; reflexivity).
      split; [| split; [| split]].
      * unfold heap_only in *. subst s1.
        revert Hsame. proj_simpl.
        cbn [dseg_lo dseg_hi dseg_max big_list new_free_page_refs reusable_page_refs
             processor_locks_base num_processors set_new_free_page_refs wr_ptr set_heap].
        tauto.
      * rewrite Hnew, Hs1.
        destruct (Z.ltb_spec (j + 1) 64), (Z.ltb_spec j 64); lia.
      * intros k Hk. destruct (Z.eqb_spec k j) as [-> | Hne].
        -- rewrite (rd_ptr_ext s' s1).
           ++ subst s1. rd_simpl. reflexivity.
           ++ intros b Hb. apply Hframe. lia.
        -- rewrite Hnodes by lia. rewrite Hs1.
           destruct (Z.eqb_spec k (j + 1)) as [-> | _]; [f_equal; lia | reflexivity].
      * intros a Ha. rewrite Hframe by lia. subst s1.
        rewrite heap_gw by typeclasses eauto.
        apply byte_at_wr_ptr_other. lia.
  - exists s. split; [reflexivity |].
    split; [| split; [| split]].
    + unfold heap_only. destruct s. repeat split.
    + destruct (Z.ltb_spec j 64); [lia | reflexivity].
    + intros k Hk. lia.
    + reflexivity.
Qed.

(** Taking the first fresh page-ref: lines 280-283. *)
Lemma acquire_pageref_fresh s :
  reusable_page_refs s = NULL ->
  new_free_page_refs s <> NULL ->
  valid s (new_free_page_refs s + PR_NEXT) 8 = true ->
  acquire_pageref s =
    Ret (new_free_page_refs s, true)
        (set_new_free_page_refs (rd_ptr s (new_free_page_refs s + PR_NEXT)) s).
Proof.
  intros Hre Hnn Hv. unfold acquire_pageref.
  rewrite run_gets, Hre, Z.eqb_refl. cbn [negb]. rewrite run_gets.
  destruct (Z.eqb_spec (new_free_page_refs s) NULL) as [Heq | _]; [contradiction |].
  rewrite run_load_ptr by exact Hv. reflexivity.
Qed.

(** With both pools empty a metadata page is taken from the substrate: its
    first record is handed out and the other 63 become the fresh list. *)
Lemma acquire_pageref_carve s :
  reusable_page_refs s = NULL ->
  new_free_page_refs s = NULL ->
  0 <= dseg_lo s <= dseg_hi s -> dseg_hi s + 4096 <= dseg_max s -> dseg_max s <= 2 ^ 64 ->
  exists s1,
    acquire_pageref s = Ret (dseg_hi s, true) s1 /\
    heap_only (set_new_free_page_refs (dseg_hi s + 4032)
                 (set_segment (dseg_lo s) (dseg_hi s + 4096) (dseg_max s) s)) s1 /\
    (forall k, 1 <= k < 64 ->
       rd_ptr s1 (dseg_hi s + 64 * k) = if k =? 1 then NULL else dseg_hi s + 64 * (k - 1)) /\
    (forall a, ~ (dseg_hi s + 64 <= a < dseg_hi s + 4096) ->
               Mem.byte_at (heap s1) a = Mem.byte_at (heap s) a).
Proof.
  intros Hre Hfr Hseg Hroom Hmax. unfold acquire_pageref.
  rewrite run_gets, Hre, Z.eqb_refl. cbn [negb]. rewrite run_gets, Hfr, Z.eqb_refl.
  unfold PAGE_SIZE, CACHELINE_SIZE. exec.
  change (Z.to_nat (4096 / 64)) with 64%nat.
  set (s0 := set_segment _ _ _ s).
  destruct (carve_loop_spec (dseg_hi s) ltac:(lia) ltac:(lia) 64%nat 1 s0)
    as (s1 & Hrun & Hsame & Hnew & Hnodes & Hframe).
  - lia.
  - lia.
  - subst s0. proj_simpl. lia.
  - subst s0. proj_simpl. lia.
  - subst s0. proj_simpl. rewrite Hfr. unfold NULL. lia.
  - change (64 * 1) with 64 in Hrun.
    rewrite (run_known _ _ _ _ _ Hrun). exists s1.
    split; [reflexivity |].
    change (1 <? 64) with true in Hnew. cbv iota in Hnew.
    rewrite Hnew in Hsame.
    split; [exact Hsame |]. split.
    + intros k Hk. rewrite Hnodes by exact Hk. subst s0. proj_simpl. rewrite Hfr.
      reflexivity.
    + intros a Ha. rewrite Hframe by lia. reflexivity.
Qed.

Lemma class_index_range sz :
  sz <= 2048 -> 0 <= get_block_class_index sz <= 8.
Proof.
  intros Hsz. unfold get_block_class_index.
  destruct (class_loop_smallest (Z.to_nat NUM_CLASS) 0 sz) as (Hr & _).
  - unfold NUM_CLASS. lia.
  - lia.
  - unfold NUM_CLASS. change (0 + Z.of_nat (Z.to_nat 9) + 2) with 11. lia.
  - intros j Hj. lia.
  - change (Z.of_nat (Z.to_nat NUM_CLASS)) with 9 in Hr. lia.
Qed.

Lemma class_index_fits sz :
  sz <= 2048 -> sz <= class_size (get_block_class_index sz).
Proof.
  intros Hsz. unfold get_block_class_index, class_size, BASE_CLASS.
  destruct (class_loop_smallest (Z.to_nat NUM_CLASS) 0 sz) as (Hr & Hle & _).
  - unfold NUM_CLASS. lia.
  - lia.
  - unfold NUM_CLASS. change (0 + Z.of_nat (Z.to_nat 9) + 2) with 11. lia.
  - intros j Hj. lia.
  - rewrite Z.shiftl_1_l. exact Hle.
Qed.

(** A subpage request that finds no usable page-ref on its list: the
    page-ref [pr] obtained from a pool is put first on the list and the
    last slot of its page is handed out. *)
Lemma mm_malloc_new_pageref
    (fuel : nat) (cpu sz proc c pr base : Z) (create : bool) (s s1 : state) :
  num_processors s <> 0 -> proc = Z.rem cpu (num_processors s) ->
  sz <= 2048 -> c = get_block_class_index sz ->
  valid s (pageref_slot s proc c) 8 = true ->
  find_pageref fuel c sz (rd_ptr s (pageref_slot s proc c)) s = Ret NULL s ->
  acquire_pageref s = Ret (pr, create) s1 ->
  dseg_lo s1 = dseg_lo s -> dseg_hi s <= dseg_hi s1 ->
  0 < dseg_lo s1 -> dseg_hi s1 <= dseg_max s1 -> dseg_max s1 <= 2 ^ 64 ->
  dseg_lo s1 <= pr -> pr + 32 <= dseg_hi s1 ->
  (pageref_slot s proc c + 8 <= pr \/ pr + 32 <= pageref_slot s proc c) ->
  (if create
   then base = dseg_hi s1 /\ dseg_hi s1 + 4096 <= dseg_max s1
   else base = rd_ptr s1 (pr + 16) /\
        dseg_lo s1 <= base /\ base + 4096 <= dseg_hi s1 /\
        (pr + 32 <= base \/ base + 4096 <= pr) /\
        (pageref_slot s proc c + 8 <= base \/ base + 4096 <= pageref_slot s proc c)) ->
  exists s',
    mm_malloc fuel cpu sz s = Ret (base + 4096 - class_size c) s' /\
    heap_only (set_segment (dseg_lo s1)
                 (if create then dseg_hi s1 + 4096 else dseg_hi s1) (dseg_max s1) s1) s' /\
    rd_ptr s' (pageref_slot s proc c) = pr /\
    rd_ptr s' pr = rd_ptr s1 (pageref_slot s proc c) /\
    rd_ptr s' (pr + 16) = base /\
    rd_int s' (pr + 24) = 4096 / class_size c - 1 /\
    rd_ptr s' (pr + 8) = base + 4096 - 2 * class_size c /\
    rd_int s' base = proc mod 256 /\
    rd_int s' (base + 4) = c /\
    (forall a, ~ (pageref_slot s proc c <= a < pageref_slot s proc c + 8) ->
               ~ (pr <= a < pr + 32) -> ~ (base <= a < base + 4096) ->
               Mem.byte_at (heap s') a = Mem.byte_at (heap s1) a).
Proof.
  intros Hnp Hproc Hsz Hc Hslot Hwalk Hacq Hlo1 Hhi1 Hpos Hhimax Hmax Hp1 Hp2 Hsp Hbase.
  assert (Hcr : 0 <= c <= 8) by (subst c; apply class_index_range; exact Hsz).
  assert (Hslots : pageref_slot s1 proc c = pageref_slot s proc c)
    by (unfold pageref_slot; rewrite Hlo1; reflexivity).
  apply valid_iff in Hslot.
  destruct (allocate_pageref_run proc c pr base create s s1 Hacq Hcr)
    as (s2 & Hrun & Hsame & Hs & Hnext & Hb & Hnf & Hfl & Hnode & Hm1 & Hm2 & Hframe);
    try assumption; try (rewrite Hslots; assumption || lia).
  rewrite Hslots in *.
  destruct (class_size_facts c Hcr) as (Hcs & Hdiv & Hn & _ & _).
  assert (Hbase' : dseg_lo s2 <= base /\ base + 4096 <= dseg_hi s2 /\
                   dseg_lo s2 <= pr /\ pr + 32 <= dseg_hi s2 /\ dseg_hi s2 <= 2 ^ 64 /\
                   (pr + 32 <= base \/ base + 4096 <= pr) /\ 0 < base).
  { destruct Hsame as (-> & -> & _). cbn [dseg_lo dseg_hi set_segment].
    destruct create; intuition lia. }
  destruct Hbase' as (Hb1 & Hb2 & Hq1 & Hq2 & Hhi64 & Hsep & Hb0).
  unfold mm_malloc, PAGE_SIZE. change (4096 / 2) with 2048.
  destruct (Z.leb_spec sz 2048) as [_ | Hgt]; [| lia].
  unfold subpage_mm_malloc, get_processor_index.
  exec. destruct (Z.eqb_spec (num_processors s) 0) as [Heq | _]; [contradiction |].
  exec. rewrite <- Hproc, <- Hc. unfold pageref_head. exec.
  rewrite (run_known _ _ _ _ _ Hwalk). rewrite Z.eqb_refl.
  rewrite (run_known _ _ _ _ _ Hrun).
  unfold take_block, PR_FREELIST, PR_NUM_FREE, PR_BASE, SIZEOF_INT.
  rewrite run_load_ptr by (apply valid_iff; lia). rewrite Hfl.
  rewrite run_load_int by (apply valid_iff; lia). rewrite Hnf.
  rewrite run_store_int by (apply valid_iff; lia).
  rewrite run_load_ptr by (proj_simpl; apply valid_iff; lia).
  rd_simpl. rewrite Hnode.
  rewrite run_store_ptr by (proj_simpl; apply valid_iff; lia).
  rewrite run_load_ptr by (proj_simpl; apply valid_iff; lia).
  rd_simpl. rewrite Hb.
  destruct (Z.eqb_spec (base + 4096 - class_size c) base) as [Heq | _]; [lia |].
  eexists. split; [reflexivity |].
  split.
  { unfold heap_only in *. proj_simpl. exact Hsame. }
  split; [| split; [| split; [| split; [| split; [| split; [| split]]]]]].
  - rd_simpl. exact Hs.
  - rd_simpl. exact Hnext.
  - rd_simpl. exact Hb.
  - rd_simpl. rewrite ?to_int_mod_idem. apply to_int_small. lia.
  - rd_simpl. reflexivity.
  - rd_simpl. exact Hm1.
  - rd_simpl. exact Hm2.
  - intros a Ha1 Ha2 Ha3.
    rewrite byte_at_wr_ptr_other by lia. rewrite byte_at_wr_int_other by lia.
    apply Hframe; assumption.
Qed.


(** X11. A subpage request that finds no usable page-ref on its list,
    with no reusable page-ref but a fresh one available, binds a new page to
    that page-ref: the break advances by one page, the page-ref becomes the
    head of the list and points to the former head, every slot of the page
    is chained and the last one, at [PAGE_SIZE - class_size c] in the page,
    is returned; [num_free] is the number of slots minus one. The first two
    words of the page hold the low byte of the processor index and the class
    index. Below the old break only the directory word and the page-ref
    record are written. *)
Theorem mm_malloc_binds_fresh_page
    (fuel : nat) (cpu sz proc c pr : Z) (s : state) :
  addressable s -> dseg_hi s + PAGE_SIZE <= dseg_max s -> dseg_max s <= 2 ^ 64 ->
  num_processors s <> 0 -> proc = Z.rem cpu (num_processors s) ->
  0 <= sz <= 2048 -> c = get_block_class_index sz ->
  valid s (pageref_slot s proc c) 8 = true ->
  find_pageref fuel c sz (rd_ptr s (pageref_slot s proc c)) s = Ret NULL s ->
  reusable_page_refs s = NULL ->
  new_free_page_refs s = pr -> pr <> NULL ->
  dseg_lo s <= pr -> pr + 32 <= dseg_hi s ->
  (pageref_slot s proc c + 8 <= pr \/ pr + 32 <= pageref_slot s proc c) ->
  exists s',
    mm_malloc fuel cpu sz s = Ret (dseg_hi s + PAGE_SIZE - class_size c) s' /\
    sz <= class_size c /\
    dseg_hi s' = dseg_hi s + PAGE_SIZE /\
    new_free_page_refs s' = rd_ptr s (pr + PR_NEXT) /\
    rd_ptr s' (pageref_slot s proc c) = pr /\
    rd_ptr s' (pr + PR_NEXT) = rd_ptr s (pageref_slot s proc c) /\
    rd_ptr s' (pr + PR_BASE) = dseg_hi s /\
    rd_int s' (pr + PR_NUM_FREE) = PAGE_SIZE / class_size c - 1 /\
    rd_ptr s' (pr + PR_FREELIST) = dseg_hi s + PAGE_SIZE - 2 * class_size c /\
    rd_int s' (dseg_hi s) = proc mod 256 /\
    rd_int s' (dseg_hi s + SIZEOF_INT) = c /\
    (forall a, a < dseg_hi s ->
               ~ (pageref_slot s proc c <= a < pageref_slot s proc c + 8) ->
               ~ (pr <= a < pr + 32) ->
               Mem.byte_at (heap s') a = Mem.byte_at (heap s) a).
Proof.
  intros [Ha1 Ha2] Hroom Hmax Hnp Hproc Hsz Hc Hslot Hwalk Hre Hfresh Hnn Hp1 Hp2 Hsp.
  unfold PAGE_SIZE, PR_NEXT, PR_BASE, PR_NUM_FREE, PR_FREELIST, SIZEOF_INT in *.
  assert (Hacq := acquire_pageref_fresh s Hre).
  rewrite Hfresh in Hacq. unfold PR_NEXT in Hacq. rewrite Z.add_0_r in *.
  specialize (Hacq Hnn ltac:(apply valid_iff; lia)).
  destruct (mm_malloc_new_pageref fuel cpu sz proc c pr (dseg_hi s) true s _
              Hnp Hproc ltac:(lia) Hc Hslot Hwalk Hacq)
    as (s' & Hrun & Hsame & Hs & Hnext & Hb & Hnf & Hfl & Hm1 & Hm2 & Hframe);
    proj_simpl; try lia.
  exists s'. split; [exact Hrun |].
  revert Hsame Hnext Hframe. unfold heap_only. proj_simpl. rd_simpl.
  cbn [dseg_lo dseg_hi dseg_max big_list new_free_page_refs reusable_page_refs
       processor_locks_base num_processors set_segment].
  intros (Hlo' & Hhi' & Hmx' & Hbl' & Hnew' & _) Hnext Hframe.
  assert (Hfit : sz <= class_size c)
    by (subst c; apply class_index_fits; lia).
  repeat split; try assumption.
  intros a Ha Hns Hnp'. apply Hframe; lia.
Qed.

Lemma mm_malloc_binds_fresh_page_witness :
  exists s',
    mm_malloc walk_fuel 0 100 one_block_taken
      = Ret (dseg_hi one_block_taken + PAGE_SIZE - class_size 4) s' /\
    100 <= class_size 4 /\
    dseg_hi s' = dseg_hi one_block_taken + PAGE_SIZE /\
    new_free_page_refs s' = rd_ptr one_block_taken (1056704 + PR_NEXT) /\
    rd_ptr s' (pageref_slot one_block_taken 0 4) = 1056704 /\
    rd_ptr s' (1056704 + PR_NEXT) = rd_ptr one_block_taken (pageref_slot one_block_taken 0 4) /\
    rd_ptr s' (1056704 + PR_BASE) = dseg_hi one_block_taken /\
    rd_int s' (1056704 + PR_NUM_FREE) = PAGE_SIZE / class_size 4 - 1 /\
    rd_ptr s' (1056704 + PR_FREELIST) = dseg_hi one_block_taken + PAGE_SIZE - 2 * class_size 4 /\
    rd_int s' (dseg_hi one_block_taken) = 0 mod 256 /\
    rd_int s' (dseg_hi one_block_taken + SIZEOF_INT) = 4 /\
    (forall a, a < dseg_hi one_block_taken ->
               ~ (pageref_slot one_block_taken 0 4 <= a < pageref_slot one_block_taken 0 4 + 8) ->
               ~ (1056704 <= a < 1056704 + 32) ->
               Mem.byte_at (heap s') a = Mem.byte_at (heap one_block_taken) a).
Proof.
  apply (mm_malloc_binds_fresh_page walk_fuel 0 100 0 4 1056704 one_block_taken).
  - split; vm_compute; [reflexivity | discriminate].
  - vm_compute. discriminate.
  - vm_compute. discriminate.
  - vm_compute. discriminate.
  - vm_compute. reflexivity.
  - lia.
  - vm_compute. reflexivity.
  - vm_compute. reflexivity.
  - reflexivity.
  - vm_compute. reflexivity.
  - vm_compute. reflexivity.
  - vm_compute. discriminate.
  - vm_compute. discriminate.
  - vm_compute. discriminate.
  - left. vm_compute. discriminate.
Defined.

(** X12. With both pools of page-refs empty, a subpage request that finds
    no usable page-ref takes two pages from the substrate. The first is
    carved into 64-byte page-ref records: record 0 serves the request and
    records 1..63 form the list of fresh page-refs, whose head is record 63
    and in which record [k] links to record [k - 1] and record 1 to NULL.
    The second page is bound to record 0 and its last slot is returned.
    Below the old break only the directory word is written. *)
Theorem mm_malloc_first_carves_pagerefs
    (fuel : nat) (cpu sz proc c : Z) (s : state) :
  addressable s -> dseg_lo s <= dseg_hi s ->
  dseg_hi s + 2 * PAGE_SIZE <= dseg_max s -> dseg_max s <= 2 ^ 64 ->
  num_processors s <> 0 -> proc = Z.rem cpu (num_processors s) ->
  0 <= sz <= 2048 -> c = get_block_class_index sz ->
  valid s (pageref_slot s proc c) 8 = true ->
  find_pageref fuel c sz (rd_ptr s (pageref_slot s proc c)) s = Ret NULL s ->
  reusable_page_refs s = NULL ->
  new_free_page_refs s = NULL ->
  exists s',
    mm_malloc fuel cpu sz s = Ret (dseg_hi s + 2 * PAGE_SIZE - class_size c) s' /\
    dseg_hi s' = dseg_hi s + 2 * PAGE_SIZE /\
    rd_ptr s' (pageref_slot s proc c) = dseg_hi s /\
    rd_ptr s' (dseg_hi s + PR_NEXT) = rd_ptr s (pageref_slot s proc c) /\
    rd_ptr s' (dseg_hi s + PR_BASE) = dseg_hi s + PAGE_SIZE /\
    rd_int s' (dseg_hi s + PR_NUM_FREE) = PAGE_SIZE / class_size c - 1 /\
    new_free_page_refs s' = dseg_hi s + PAGE_SIZE - CACHELINE_SIZE /\
    (forall k, 1 <= k < 64 ->
       rd_ptr s' (dseg_hi s + CACHELINE_SIZE * k + PR_NEXT) =
       if k =? 1 then NULL else dseg_hi s + CACHELINE_SIZE * (k - 1)) /\
    (forall a, a < dseg_hi s ->
               ~ (pageref_slot s proc c <= a < pageref_slot s proc c + 8) ->
               Mem.byte_at (heap s') a = Mem.byte_at (heap s) a).
Proof.
  intros [Ha1 Ha2] Hord Hroom Hmax Hnp Hproc Hsz Hc Hslot Hwalk Hre Hfresh.
  unfold PAGE_SIZE, CACHELINE_SIZE, PR_NEXT, PR_BASE, PR_NUM_FREE, PR_FREELIST in *.
  destruct (acquire_pageref_carve s Hre Hfresh ltac:(lia) ltac:(lia) Hmax)
    as (s1 & Hacq & Hsame1 & Hnodes1 & Hframe1).
  unfold heap_only in Hsame1. revert Hsame1. proj_simpl.
  cbn [dseg_lo dseg_hi dseg_max big_list new_free_page_refs reusable_page_refs
       processor_locks_base num_processors set_segment set_new_free_page_refs].
  intros (Hlo1 & Hhi1 & Hmx1 & Hbl1 & Hnew1 & Hre1 & Hlk1 & Hnp1).
  pose proof Hslot as Hslot'. apply valid_iff in Hslot'.
  destruct (mm_malloc_new_pageref fuel cpu sz proc c (dseg_hi s) (dseg_hi s + 4096) true s s1
              Hnp Hproc ltac:(lia) Hc Hslot Hwalk Hacq)
    as (s' & Hrun & Hsame & Hs & Hnext & Hb & Hnf & Hfl & Hm1 & Hm2 & Hframe);
    try lia.
  exists s'. split.
  { rewrite Hrun. do 2 f_equal. lia. }
  unfold heap_only in Hsame. revert Hsame.
  cbn [dseg_lo dseg_hi dseg_max big_list new_free_page_refs reusable_page_refs
       processor_locks_base num_processors set_segment].
  intros (Hlo' & Hhi' & Hmx' & Hbl' & Hnew' & _).
  split; [lia |]. split; [exact Hs |].
  split.
  { rewrite Z.add_0_r. rewrite Hnext. apply rd_ptr_ext. intros b Hb'.
    apply Hframe1. lia. }
  split; [exact Hb |]. split; [exact Hnf |].
  split; [lia |]. split.
  - intros k Hk. rewrite Z.add_0_r. rewrite <- Hnodes1 by exact Hk.
    apply rd_ptr_ext. intros b Hb'. apply Hframe; lia.
  - intros a Ha Hns. rewrite Hframe by lia. apply Hframe1. lia.
Qed.

Lemma mm_malloc_first_carves_pagerefs_witness :
  exists s',
    mm_malloc walk_fuel 0 100 fresh_heap
      = Ret (dseg_hi fresh_heap + 2 * PAGE_SIZE - class_size 4) s' /\
    dseg_hi s' = dseg_hi fresh_heap + 2 * PAGE_SIZE /\
    rd_ptr s' (pageref_slot fresh_heap 0 4) = dseg_hi fresh_heap /\
    rd_ptr s' (dseg_hi fresh_heap + PR_NEXT) = rd_ptr fresh_heap (pageref_slot fresh_heap 0 4) /\
    rd_ptr s' (dseg_hi fresh_heap + PR_BASE) = dseg_hi fresh_heap + PAGE_SIZE /\
    rd_int s' (dseg_hi fresh_heap + PR_NUM_FREE) = PAGE_SIZE / class_size 4 - 1 /\
    new_free_page_refs s' = dseg_hi fresh_heap + PAGE_SIZE - CACHELINE_SIZE /\
    (forall k, 1 <= k < 64 ->
       rd_ptr s' (dseg_hi fresh_heap + CACHELINE_SIZE * k + PR_NEXT) =
       if k =? 1 then NULL else dseg_hi fresh_heap + CACHELINE_SIZE * (k - 1)) /\
    (forall a, a < dseg_hi fresh_heap ->
               ~ (pageref_slot fresh_heap 0 4 <= a < pageref_slot fresh_heap 0 4 + 8) ->
               Mem.byte_at (heap s') a = Mem.byte_at (heap fresh_heap) a).
Proof.
  apply (mm_malloc_first_carves_pagerefs walk_fuel 0 100 0 4 fresh_heap).
  - split; vm_compute; [reflexivity | discriminate].
  - vm_compute. discriminate.
  - vm_compute. discriminate.
  - vm_compute. discriminate.
  - vm_compute. discriminate.
  - vm_compute. reflexivity.
  - lia.
  - vm_compute. reflexivity.
  - vm_compute. reflexivity.
  - reflexivity.
  - vm_compute. reflexivity.
  - vm_compute. reflexivity.
Defined.

(** X13. With a page-ref on the reusable list, a subpage request that
    finds no usable page-ref on its list reuses that page-ref and the page
    it is bound to, whatever class and processor the page served before:
    the break does not move, the fresh list is untouched, the reusable list
    advances to its next element, the page is chained anew for the class
    of the request and its last slot is returned, and the first two words
    of the page name the new processor and class. Only the directory word,
    the page-ref record and the page are written. *)
Theorem mm_malloc_reuses_recycled_page
    (fuel : nat) (cpu sz proc c pr base : Z) (s : state) :
  addressable s -> dseg_hi s <= dseg_max s -> dseg_max s <= 2 ^ 64 ->
  num_processors s <> 0 -> proc = Z.rem cpu (num_processors s) ->
  0 <= sz <= 2048 -> c = get_block_class_index sz ->
  valid s (pageref_slot s proc c) 8 = true ->
  find_pageref fuel c sz (rd_ptr s (pageref_slot s proc c)) s = Ret NULL s ->
  reusable_page_refs s = pr ->
  pageref_ok s pr base ->
  (pageref_slot s proc c + 8 <= pr \/ pr + 32 <= pageref_slot s proc c) ->
  (pageref_slot s proc c + 8 <= base \/ base + PAGE_SIZE <= pageref_slot s proc c) ->
  exists s',
    mm_malloc fuel cpu sz s = Ret (base + PAGE_SIZE - class_size c) s' /\
    dseg_hi s' = dseg_hi s /\
    reusable_page_refs s' = rd_ptr s (pr + PR_NEXT) /\
    new_free_page_refs s' = new_free_page_refs s /\
    rd_ptr s' (pageref_slot s proc c) = pr /\
    rd_ptr s' (pr + PR_NEXT) = rd_ptr s (pageref_slot s proc c) /\
    rd_ptr s' (pr + PR_BASE) = base /\
    rd_int s' (pr + PR_NUM_FREE) = PAGE_SIZE / class_size c - 1 /\
    rd_int s' base = proc mod 256 /\
    rd_int s' (base + SIZEOF_INT) = c /\
    (forall a, ~ (pageref_slot s proc c <= a < pageref_slot s proc c + 8) ->
               ~ (pr <= a < pr + 32) -> ~ (base <= a < base + PAGE_SIZE) ->
               Mem.byte_at (heap s') a = Mem.byte_at (heap s) a).
Proof.
  intros [Ha1 Ha2] Hhimax Hmax Hnp Hproc Hsz Hc Hslot Hwalk Hre
         (Hnn & Hp1 & Hp2 & Hb1 & Hb2 & Hsep & Hbase) Hsp Hsb.
  unfold PAGE_SIZE, PR_NEXT, PR_BASE, PR_NUM_FREE, PR_FREELIST, SIZEOF_INT in *.
  assert (Hacq := acquire_pageref_reuse s).
  rewrite Hre in Hacq. unfold PR_NEXT in Hacq. rewrite Z.add_0_r in *.
  specialize (Hacq Hnn ltac:(apply valid_iff; lia)).
  destruct (mm_malloc_new_pageref fuel cpu sz proc c pr base false s _
              Hnp Hproc ltac:(lia) Hc Hslot Hwalk Hacq)
    as (s' & Hrun & Hsame & Hs & Hnext & Hb & Hnf & Hfl & Hm1 & Hm2 & Hframe);
    proj_simpl; rd_simpl; try lia.
  exists s'. split; [exact Hrun |].
  revert Hsame Hnext Hframe. unfold heap_only. proj_simpl. rd_simpl.
  cbn [dseg_lo dseg_hi dseg_max big_list new_free_page_refs reusable_page_refs
       processor_locks_base num_processors set_segment set_reusable_page_refs].
  intros (Hlo' & Hhi' & Hmx' & Hbl' & Hnew' & Hre' & _) Hnext Hframe.
  repeat split; assumption.
Qed.

Lemma mm_malloc_reuses_recycled_page_witness :
  exists s',
    mm_malloc walk_fuel 0 100 page_recycled = Ret (1056768 + PAGE_SIZE - class_size 4) s' /\
    dseg_hi s' = dseg_hi page_recycled /\
    reusable_page_refs s' = rd_ptr page_recycled (1052672 + PR_NEXT) /\
    new_free_page_refs s' = new_free_page_refs page_recycled /\
    rd_ptr s' (pageref_slot page_recycled 0 4) = 1052672 /\
    rd_ptr s' (1052672 + PR_NEXT) = rd_ptr page_recycled (pageref_slot page_recycled 0 4) /\
    rd_ptr s' (1052672 + PR_BASE) = 1056768 /\
    rd_int s' (1052672 + PR_NUM_FREE) = PAGE_SIZE / class_size 4 - 1 /\
    rd_int s' 1056768 = 0 mod 256 /\
    rd_int s' (1056768 + SIZEOF_INT) = 4 /\
    (forall a, ~ (pageref_slot page_recycled 0 4 <= a < pageref_slot page_recycled 0 4 + 8) ->
               ~ (1052672 <= a < 1052672 + 32) -> ~ (1056768 <= a < 1056768 + PAGE_SIZE) ->
               Mem.byte_at (heap s') a = Mem.byte_at (heap page_recycled) a).
Proof.
  apply (mm_malloc_reuses_recycled_page walk_fuel 0 100 0 4 1052672 1056768 page_recycled).
  - split; vm_compute; [reflexivity | discriminate].
  - vm_compute. discriminate.
  - vm_compute. discriminate.
  - vm_compute. discriminate.
  - vm_compute. reflexivity.
  - lia.
  - vm_compute. reflexivity.
  - vm_compute. reflexivity.
  - reflexivity.
  - vm_compute. reflexivity.
  - unfold pageref_ok.
    repeat match goal with |- _ /\ _ => split end;
      try (vm_compute; (reflexivity || discriminate)).
    left. vm_compute. discriminate.
  - left. vm_compute. discriminate.
  - left. vm_compute. discriminate.
Defined.

(** * Initialisation, first call *)

Lemma init_bytes_spec np :
  0 < np <= 2 ^ 20 ->
  init_bytes np = (136 * np + 4095) / 4096 * 4096 /\
  136 * np <= init_bytes np.
Proof.
  intros Hnp. unfold init_bytes, NUM_CLASS, SIZEOF_PTR, CACHELINE_SIZE, PAGE_SIZE.
  replace (9 * 8 * np + 64 * np + 4096 - 1) with (136 * np + 4095) by lia.
  split; [reflexivity |].
  pose proof (Z.mul_succ_div_gt (136 * np + 4095) 4096 ltac:(lia)). lia.
Qed.

(** X14. The first [mm_init] on a substrate that initialises and whose
    region holds the directory and the locks: it returns 0, the segment
    starts at the base of the region and spans [init_bytes] bytes, all of
    them zero, so that the head of every (processor, class) list reads
    NULL; every directory word lies below the lock array, which starts
    right after the directory, and every processor's lock is a 64-byte slot
    inside the segment. *)
Theorem mm_init_first_call (pf : platform) (s : state) :
  dseg_lo s = NULL -> dseg_hi s = NULL ->
  heap_ok pf = true -> 0 < heap_base pf ->
  0 < ncpus pf <= 2 ^ 20 ->
  init_bytes (ncpus pf) <= heap_size pf ->
  exists s',
    mm_init pf s = Ret 0 s' /\
    dseg_lo s' = heap_base pf /\
    dseg_hi s' = heap_base pf + init_bytes (ncpus pf) /\
    num_processors s' = ncpus pf /\
    processor_locks_base s' = heap_base pf + NUM_CLASS * SIZEOF_PTR * ncpus pf /\
    (forall a, dseg_lo s' <= a < dseg_hi s' -> Mem.byte_at (heap s') a = 0) /\
    (forall proc c, 0 <= proc < ncpus pf -> 0 <= c < NUM_CLASS ->
       pageref_head proc c s' = Ret NULL s' /\
       pageref_slot s' proc c + SIZEOF_PTR <= processor_locks_base s') /\
    (forall i, 0 <= i < ncpus pf ->
       exists m, processor_mutex i s' = Ret m s' /\
                 m = processor_locks_base s' + CACHELINE_SIZE * i /\
                 m + CACHELINE_SIZE <= dseg_hi s').
Proof.
  intros Hlo Hhi Hok Hbase Hnp Hroom.
  destruct (init_sizes (ncpus pf) Hnp) as (Hfs & Hpn & Hpos & Hbytes).
  destruct (init_bytes_spec (ncpus pf) Hnp) as (Hib & Hfit).
  rewrite Hib in *.
  set (n := (136 * ncpus pf + 4095) / 4096 * 4096) in *.
  assert (Hn : 0 < n) by (rewrite Hpn in Hpos; subst n; lia).
  unfold mm_init. rewrite !run_gets. rewrite Hlo, Hhi. rewrite Z.eqb_refl.
  cbn [andb]. unfold mem_init. rewrite Hok.
  unfold bind at 1. change (0 =? -1) with false. cbv iota.
  rewrite run_modify, run_gets. rewrite num_processors_set.
  rewrite Hbytes, Hfs. fold n.
  rewrite run_sbrk_ok; proj_simpl; [| lia | lia].
  rewrite run_bzero; [| exact Hn | apply valid_iff; proj_simpl; lia].
  rewrite run_modify. eexists. split; [reflexivity |].
  unfold NUM_CLASS, SIZEOF_PTR, CACHELINE_SIZE, NULL.
  rewrite processor_locks_base_set.
  assert (Hzero : forall a, heap_base pf <= a < heap_base pf + n ->
     Mem.byte_at (heap (set_processor_locks_base (heap_base pf + 72 * ncpus pf)
        (wr_zero (heap_base pf) n
           (set_segment (heap_base pf) (heap_base pf + n) (heap_base pf + heap_size pf)
              (set_num_processors (ncpus pf) s))))) a = 0).
  { intros a Ha. rewrite heap_gw by typeclasses eauto. apply byte_at_wr_zero_in. lia. }
  proj_simpl.
  split; [reflexivity |]. split; [reflexivity |].
  split; [reflexivity |]. split; [lia |].
  split; [exact Hzero |]. split.
  - intros proc c Hproc Hc. unfold pageref_head. rewrite run_gets.
    unfold pageref_slot. proj_simpl. unfold SIZEOF_PTR, NUM_CLASS.
    split; [| lia].
    unfold load_ptr. 
    replace (valid _ _ 8) with true
      by (symmetry; apply valid_iff; proj_simpl; lia).
    f_equal. unfold rd_ptr. rewrite heap_gw by typeclasses eauto.
    unfold wr_zero. cbn [heap set_heap].
    apply read_le_zero_range_in; rewrite ?Z2Nat.id by lia; cbn; lia.
  - intros i Hi. eexists. split; [reflexivity |].
    rewrite processor_locks_base_set. unfold CACHELINE_SIZE.
    rewrite to_int_small by lia. split; lia.
Qed.

Lemma mm_init_first_call_witness :
  exists s',
    mm_init demo_platform initial_state = Ret 0 s' /\
    dseg_lo s' = heap_base demo_platform /\
    dseg_hi s' = heap_base demo_platform + init_bytes (ncpus demo_platform) /\
    num_processors s' = ncpus demo_platform /\
    processor_locks_base s' =
      heap_base demo_platform + NUM_CLASS * SIZEOF_PTR * ncpus demo_platform /\
    (forall a, dseg_lo s' <= a < dseg_hi s' -> Mem.byte_at (heap s') a = 0) /\
    (forall proc c, 0 <= proc < ncpus demo_platform -> 0 <= c < NUM_CLASS ->
       pageref_head proc c s' = Ret NULL s' /\
       pageref_slot s' proc c + SIZEOF_PTR <= processor_locks_base s') /\
    (forall i, 0 <= i < ncpus demo_platform ->
       exists m, processor_mutex i s' = Ret m s' /\
                 m = processor_locks_base s' + CACHELINE_SIZE * i /\
                 m + CACHELINE_SIZE <= dseg_hi s').
Proof.
  apply (mm_init_first_call demo_platform initial_state).
  - reflexivity.
  - reflexivity.
  - reflexivity.
  - vm_compute. reflexivity.
  - split; vm_compute; [reflexivity | discriminate].
  - vm_compute. discriminate.
Defined.

(** X15. The result of [mem_sbrk] is not tested by [mm_init]: when the
    substrate initialises but its region cannot hold the directory and the
    locks, [mem_sbrk] answers NULL, [bzero] is called on it and the call
    faults. *)
Theorem mm_init_region_too_small (pf : platform) (s : state) :
  dseg_lo s = NULL -> dseg_hi s = NULL ->
  heap_ok pf = true -> 0 < heap_base pf ->
  0 < ncpus pf <= 2 ^ 20 ->
  heap_size pf < init_bytes (ncpus pf) ->
  mm_init pf s = Fault.
Proof.
  intros Hlo Hhi Hok Hbase Hnp Hroom.
  destruct (init_sizes (ncpus pf) Hnp) as (Hfs & Hpn & Hpos & Hbytes).
  destruct (init_bytes_spec (ncpus pf) Hnp) as (Hib & Hfit).
  rewrite Hib in *.
  set (n := (136 * ncpus pf + 4095) / 4096 * 4096) in *.
  assert (Hn : 0 < n) by (rewrite Hpn in Hpos; subst n; lia).
  unfold mm_init. rewrite !run_gets. rewrite Hlo, Hhi. rewrite Z.eqb_refl.
  cbn [andb]. unfold mem_init. rewrite Hok.
  unfold bind at 1. change (0 =? -1) with false. cbv iota.
  rewrite run_modify, run_gets. rewrite num_processors_set.
  rewrite Hbytes, Hfs. fold n.
  rewrite run_sbrk_fail by (proj_simpl; lia).
  unfold bind at 1. unfold bzero, NULL.
  destruct (Z.leb_spec n 0) as [Hle | _]; [lia |].
  replace (valid _ 0 n) with false; [reflexivity |].
  symmetry. unfold valid. proj_simpl.
  destruct (Z.leb_spec (heap_base pf) 0); [lia | reflexivity].
Qed.

Lemma mm_init_region_too_small_witness :
  mm_init (mkPlatform 1048576 2048 true 1) initial_state = Fault.
Proof.
  apply (mm_init_region_too_small (mkPlatform 1048576 2048 true 1) initial_state).
  - reflexivity.
  - reflexivity.
  - reflexivity.
  - vm_compute. reflexivity.
  - split; vm_compute; [reflexivity | discriminate].
  - vm_compute. reflexivity.
Defined.

(** X16. When the substrate fails to initialise, [mm_init] returns -1 and
    changes nothing: [num_processors] is still 0, and a subpage request
    made after it divides by zero in [get_processor_index]. *)
Theorem failed_init_leaves_allocator_unusable
    (pf : platform) (fuel : nat) (cpu sz : Z) (s : state) :
  dseg_lo s = NULL -> dseg_hi s = NULL -> heap_ok pf = false ->
  num_processors s = 0 -> sz <= 2048 ->
  mm_init pf s = Ret (-1) s /\
  (mm_init pf ;; mm_malloc fuel cpu sz) s = Fault.
Proof.
  intros Hlo Hhi Hok Hnp Hsz.
  assert (Hinit : mm_init pf s = Ret (-1) s).
  { unfold mm_init. rewrite !run_gets. rewrite Hlo, Hhi. rewrite Z.eqb_refl.
    cbn [andb]. unfold mem_init. rewrite Hok. reflexivity. }
  split; [exact Hinit |].
  rewrite (run_known _ _ _ _ _ Hinit).
  unfold mm_malloc, PAGE_SIZE. change (4096 / 2) with 2048.
  destruct (Z.leb_spec sz 2048) as [_ | Hgt]; [| lia].
  unfold subpage_mm_malloc, get_processor_index.
  rewrite run_assoc, run_gets, Hnp. reflexivity.
Qed.

Lemma failed_init_leaves_allocator_unusable_witness :
  mm_init (mkPlatform 1048576 4096 false 1) initial_state = Ret (-1) initial_state /\
  (mm_init (mkPlatform 1048576 4096 false 1) ;; mm_malloc walk_fuel 0 16) initial_state = Fault.
Proof.
  apply (failed_init_leaves_allocator_unusable
           (mkPlatform 1048576 4096 false 1) walk_fuel 0 16 initial_state);
    first [reflexivity | lia].
Defined.

(** * Helpers *)

(** X17. Pages are counted from [dseg_lo]: for a page start [p] (a multiple
    of the page size above [dseg_lo]) and an offset [k] within the page,
    [get_page_head (p + k)] is [p]. The division truncates towards zero, so
    an address less than a page below [dseg_lo] is mapped to [dseg_lo]
    itself, which is above it. *)
Theorem get_page_head_of_page_offset (s : state) (p k : Z) :
  dseg_lo s <= p -> (p - dseg_lo s) mod PAGE_SIZE = 0 -> 0 <= k < PAGE_SIZE ->
  get_page_head (p + k) s = Ret p s /\
  (forall a, dseg_lo s - PAGE_SIZE < a < dseg_lo s ->
             get_page_head a s = Ret (dseg_lo s) s).
Proof.
  intros Hp Hal Hk. unfold get_page_head, gets, page_head_of, PAGE_SIZE in *. split.
  - f_equal. rewrite Z.quot_div_nonneg by lia.
    apply Z.mod_divide in Hal; [| lia]. destruct Hal as [q Hq].
    replace (p + k - dseg_lo s) with (k + q * 4096) by lia.
    rewrite Z.div_add by lia. rewrite Z.div_small by lia. lia.
  - intros a Ha. f_equal.
    rewrite <- (Z.opp_involutive (a - dseg_lo s)).
    rewrite Z.quot_opp_l by lia.
    rewrite Z.quot_small by lia. lia.
Qed.

Lemma get_page_head_of_page_offset_witness :
  get_page_head (1056768 + 2048) one_block_taken = Ret 1056768 one_block_taken /\
  (forall a, dseg_lo one_block_taken - PAGE_SIZE < a < dseg_lo one_block_taken ->
             get_page_head a one_block_taken = Ret (dseg_lo one_block_taken) one_block_taken).
Proof.
  apply (get_page_head_of_page_offset one_block_taken 1056768 2048).
  - vm_compute. discriminate.
  - vm_compute. reflexivity.
  - unfold PAGE_SIZE. lia.
Defined.

(** X18. The directory words do not alias: after [set_pageref_head p c
    address], [pageref_head] reads [address] for the pair [(p, c)] and the
    former value for any other pair of a processor and a class in
    [0, NUM_CLASS). *)
Theorem set_pageref_head_then_pageref_head (s : state) (p c p' c' address : Z) :
  0 <= c < NUM_CLASS -> 0 <= c' < NUM_CLASS ->
  0 <= address < 2 ^ 64 ->
  valid s (pageref_slot s p c) 8 = true ->
  valid s (pageref_slot s p' c') 8 = true ->
  exists s',
    set_pageref_head p c address s = Ret tt s' /\
    pageref_head p' c' s' =
      Ret (if (p' =? p) && (c' =? c) then address else rd_ptr s (pageref_slot s p' c')) s'.
Proof.
  intros Hc Hc' Ha Hv Hv'. apply valid_iff in Hv, Hv'.
  unfold set_pageref_head, pageref_head. rewrite !run_gets.
  unfold store_ptr. replace (valid _ _ 8) with true by (symmetry; apply valid_iff; lia).
  eexists. split; [reflexivity |].
  rewrite run_gets. rewrite pageref_slot_hw by typeclasses eauto.
  unfold load_ptr. rewrite valid_hw by typeclasses eauto.
  replace (valid _ _ 8) with true by (symmetry; apply valid_iff; lia).
  f_equal. unfold pageref_slot, NUM_CLASS, SIZEOF_PTR in *.
  destruct (Z.eqb_spec p' p) as [-> | Hp]; cbn [andb].
  - destruct (Z.eqb_spec c' c) as [-> | Hcc].
    + apply rd_ptr_wr_ptr_same. exact Ha.
    + apply rd_ptr_wr_ptr_other. lia.
  - apply rd_ptr_wr_ptr_other. lia.
Qed.

Lemma set_pageref_head_then_pageref_head_witness :
  exists s',
    set_pageref_head 3 8 4242 (state_after (mm_init big_machine) initial_state) = Ret tt s' /\
    pageref_head 4 0 s' =
      Ret (if (4 =? 3) && (0 =? 8) then 4242
           else rd_ptr (state_after (mm_init big_machine) initial_state)
                       (pageref_slot (state_after (mm_init big_machine) initial_state) 4 0)) s'.
Proof.
  apply (set_pageref_head_then_pageref_head
           (state_after (mm_init big_machine) initial_state) 3 8 4 0 4242).
  - unfold NUM_CLASS. lia.
  - unfold NUM_CLASS. lia.
  - lia.
  - vm_compute. reflexivity.
  - vm_compute. reflexivity.
Defined.

(** X19. For a size above 2048 no class fits and the loop of
    [get_block_class_index] falls through to -1. *)
Theorem get_block_class_index_out_of_range (sz : Z) :
  2048 < sz -> get_block_class_index sz = -1.
Proof.
  intros Hbig. unfold get_block_class_index, NUM_CLASS.
  change (Z.to_nat 9) with 9%nat. cbn [class_loop].
  repeat match goal with
         | |- context [Z.shiftl 1 ?e >=? sz] =>
             let v := eval vm_compute in (Z.shiftl 1 e) in
             change (Z.shiftl 1 e) with v;
             destruct (Z.geb_spec v sz); [lia |]
         end.
  reflexivity.
Qed.

Lemma get_block_class_index_out_of_range_witness :
  get_block_class_index 2049 = -1.
Proof. apply (get_block_class_index_out_of_range 2049). lia. Defined.

(** X20. For a size in (8, 2048] the class chosen is not the first, and its
    block size is less than twice the size asked for: a block wastes less
    than half of its bytes. *)
Theorem class_size_below_twice_request (sz : Z) :
  8 < sz <= 2048 ->
  1 <= get_block_class_index sz <= 8 /\
  sz <= Z.shiftl 1 (get_block_class_index sz + BASE_CLASS) < 2 * sz.
Proof.
  intros Hsz. unfold get_block_class_index, BASE_CLASS.
  destruct (class_loop_smallest (Z.to_nat NUM_CLASS) 0 sz) as (Hr & Hle & Hmin).
  - unfold NUM_CLASS. lia.
  - lia.
  - unfold NUM_CLASS. change (0 + Z.of_nat (Z.to_nat 9) + 2) with 11. lia.
  - intros j Hj. lia.
  - change (Z.of_nat (Z.to_nat NUM_CLASS)) with 9 in Hr.
    set (r := class_loop (Z.to_nat NUM_CLASS) 0 sz) in *.
    assert (Hr1 : 1 <= r).
    { destruct (Z.eq_dec r 0) as [Hz | Hnz]; [| lia].
      rewrite Hz in Hle. change (2 ^ (0 + 3)) with 8 in Hle. lia. }
    split; [lia |]. rewrite Z.shiftl_1_l. split; [exact Hle |].
    specialize (Hmin (r - 1) ltac:(lia)).
    replace (r + 3) with (Z.succ (r - 1 + 3)) by lia.
    rewrite Z.pow_succ_r by lia. lia.
Qed.

Lemma class_size_below_twice_request_witness :
  1 <= get_block_class_index 100 <= 8 /\
  100 <= Z.shiftl 1 (get_block_class_index 100 + BASE_CLASS) < 2 * 100.
Proof. apply (class_size_below_twice_request 100). lia. Defined.

(** X21. [sched_getcpu] answers -1 when it fails, and the remainder of C
    keeps the sign of the dividend: on a machine with two or more
    processors the processor index is then -1. The directory word that
    [pageref_head] addresses with it ends before [dseg_lo], and the lock
    that [processor_mutex] addresses with it starts 64 bytes before the
    lock array. *)
Theorem negative_cpu_indexes_before_directory (sz : Z) (s : state) :
  2 <= num_processors s -> sz <= 2048 ->
  get_processor_index (-1) s = Ret (-1) s /\
  pageref_slot s (-1) (get_block_class_index sz) + SIZEOF_PTR <= dseg_lo s /\
  processor_mutex (-1) s = Ret (processor_locks_base s - CACHELINE_SIZE) s.
Proof.
  intros Hnp Hsz.
  assert (Hrem : Z.rem (-1) (num_processors s) = -1).
  { change (-1) with (- (1)). rewrite Z.rem_opp_l by lia.
    rewrite Z.rem_small by lia. reflexivity. }
  split; [| split].
  - unfold get_processor_index. rewrite run_gets.
    destruct (Z.eqb_spec (num_processors s) 0) as [Heq | _]; [lia |].
    unfold ret. rewrite Hrem. reflexivity.
  - pose proof (class_index_range sz Hsz) as Hc.
    unfold pageref_slot, SIZEOF_PTR, NUM_CLASS. lia.
  - unfold processor_mutex, gets, CACHELINE_SIZE.
    change (to_int (-1 * 64)) with (-64). f_equal; lia.
Qed.

Lemma negative_cpu_indexes_before_directory_witness :
  get_processor_index (-1) (state_after (mm_init big_machine) initial_state)
    = Ret (-1) (state_after (mm_init big_machine) initial_state) /\
  pageref_slot (state_after (mm_init big_machine) initial_state) (-1)
               (get_block_class_index 16) + SIZEOF_PTR
    <= dseg_lo (state_after (mm_init big_machine) initial_state) /\
  processor_mutex (-1) (state_after (mm_init big_machine) initial_state)
    = Ret (processor_locks_base (state_after (mm_init big_machine) initial_state)
           - CACHELINE_SIZE)
          (state_after (mm_init big_machine) initial_state).
Proof.
  apply (negative_cpu_indexes_before_directory 16
           (state_after (mm_init big_machine) initial_state)).
  - vm_compute. discriminate.
  - lia.
Defined.
